(** * Organazer.py: a file organizer, embedded and verified

    Shallow embedding of [scripts/python/file-organizer/Organazer.py].

    - Paths are lists of components relative to [source_folder]; the source
      folder itself is the empty path.
    - The file system is a finite map from paths to nodes.  The embedding is
      sequential: nothing but the organizer touches the file system.
    - Python exceptions that escape a function are the [Exc] result.
    - File names are strings of bytes, the UTF-8 encoding of the names; the
      dot, the one character the code looks for in a name, is a single byte
      of it.
    - What the operating system and the libraries decide (the digest, the
      case mapping of [str.lower], the enumeration order of a directory,
      the clock, the JSON encoder) is a [Platform] instance.
    - [Path.exists] is the lookup in the map: [stat] is taken to fail only
      in the ways that pathlib reads as absence.  An error that [exists]
      raises again, such as a generated name longer than the operating
      system allows, is outside the embedding, and so are permissions on
      directories and links.
    - Logging is not part of the state: the methods are embedded as they
      run without a handler that writes into the source folder.
    - [trace] is a ghost record of the I/O calls made, newest first. *)

From stdpp Require Import gmap strings list fin_maps pretty sorting.
From Stdlib Require Import Strings.Ascii Strings.Byte.

Local Open Scope string_scope.
Local Open Scope list_scope.
Local Open Scope nat_scope.

(** ** Names and paths *)

Abbreviation path := (list string).

(** [Path.name]: the last component. *)
Definition name (p : path) : string := default EmptyString (last p).

(** [folder / name]. *)
Definition join (folder : path) (n : string) : path := folder ++ [n].

(** [p] is an entry directly inside [dir]. *)
Definition child_of (dir p : path) : bool :=
  bool_decide (p ≠ [] ∧ removelast p = dir).

(** [p] lies strictly below [dir]. *)
Definition below (dir p : path) : bool :=
  bool_decide (p ≠ dir ∧ take (length dir) p = dir).

(** [s.rsplit('.', 1)], when [s] has a dot: the text before the last dot and
    the text after it. *)
Fixpoint rsplit_dot (s : string) : option (string * string) :=
  match s with
  | EmptyString => None
  | String c r =>
      match rsplit_dot r with
      | Some (b, a) => Some (String c b, a)
      | None => if Ascii.eqb c "."%char then Some (EmptyString, r) else None
      end
  end.

(** [PurePath.suffix] (pathlib up to Python 3.13): [name[i:]] for the last
    dot [i] when [0 < i < len(name) - 1], else the empty string. *)
Definition suffix (p : path) : string :=
  match rsplit_dot (name p) with
  | Some (b, a) =>
      if bool_decide (b ≠ EmptyString ∧ a ≠ EmptyString)
      then String "."%char a else EmptyString
  | None => EmptyString
  end.

(** [s.startswith('.')]. *)
Definition startswith_dot (s : string) : bool :=
  match s with
  | String c _ => Ascii.eqb c "."%char
  | EmptyString => false
  end.

(** Truth value of a Python [str]. *)
Definition truthy (s : string) : bool := negb (String.eqb s EmptyString).

(** ** The file system *)

Inductive node :=
  | File (data : list byte) (mtime : Z) (readable removable : bool)
  | Dir (size : nat) (mtime : Z).

Definition is_file (n : node) : bool :=
  match n with File _ _ _ _ => true | Dir _ _ => false end.

Definition st_size (n : node) : nat :=
  match n with File d _ _ _ => length d | Dir s _ => s end.

Definition st_mtime (n : node) : Z :=
  match n with File _ m _ _ => m | Dir _ m => m end.

Abbreviation filesystem := (gmap path node).

(** [Path.exists]. *)
Definition exists_ (fs : filesystem) (p : path) : bool :=
  bool_decide (is_Some (fs !! p)).

(** [Path.unlink]: raises for a missing path, a directory, or a file that
    cannot be removed. *)
Definition unlink (fs : filesystem) (p : path) : option filesystem :=
  match fs !! p with
  | Some (File _ _ _ true) => Some (delete p fs)
  | _ => None
  end.

(** [shutil.move] of a regular file, taken as atomic: it either moves the
    file or raises and leaves everything in place.  A destination that is an
    existing directory receives the file under its own name, unless that
    name is taken; an existing regular file at the destination is replaced.
    Directories are never passed as [src]: only regular files are
    snapshotted. *)
Definition shutil_move (fs : filesystem) (src dst : path)
  : option filesystem :=
  match fs !! src with
  | Some (File d m r true) =>
      let real_dst :=
        match fs !! dst with
        | Some (Dir _ _) =>
            if exists_ fs (join dst (name src)) then None
            else Some (join dst (name src))
        | _ => Some dst
        end in
      match real_dst with
      | Some q =>
          match fs !! removelast q with
          | Some (Dir _ _) => Some (<[q := File d m r true]> (delete src fs))
          | _ => None
          end
      | None => None
      end
  | _ => None
  end.

(** ** What the platform decides *)

Record Stats := mkStats {
  processed : nat;
  moved : nat;
  renamed : nat;
  duplicates_found : nat;
  duplicates_removed : nat;
  errors : nat;
  skipped : nat
}.

Class Platform := {
  (** [hashlib.md5(data).hexdigest()] *)
  md5_hexdigest : list byte → string;
  (** [str.lower()]: the case mapping of the interpreter, which is the
      Unicode one and not only that of the letters A to Z *)
  lower : string → string;
  (** the order in which the operating system enumerates entries *)
  scandir : list (path * node) → list (path * node);
  scandir_perm : ∀ l, scandir l ≡ₚ l;
  (** [datetime.now().strftime("%Y%m%d_%H%M%S_%f")] at the n-th clock read *)
  strftime_now : nat → string;
  (** the modification time given to an entry created at that moment *)
  time_now : nat → Z;
  (** [st_size] of a new directory *)
  dir_size : nat;
  (** [json.dump] of the report built at that moment *)
  json_dump : nat → bool → Stats → list byte
}.

(** ** The organizer and its world *)

Inductive syscall :=
  | Hashed (p : path)            (* get_file_hash opened p *)
  | Unlinked (p : path)          (* p.unlink() was called *)
  | Moved (src dst : path)       (* shutil.move(src, dst) was called *)
  | MadeDir (p : path)           (* p.mkdir(...) was called *)
  | Wrote (p : path).            (* open(p, 'w') was called *)

Record world := mkWorld {
  fs : filesystem;
  stats : Stats;                 (* self.stats *)
  hash_cache : gmap path string; (* self.hash_cache *)
  trace : list syscall;
  clock : nat
}.

Record FileOrganizer := mkOrganizer {
  dry_run : bool;
  categories : list (string * list string)
}.

Inductive result (A : Type) :=
  | Ret (a : A)
  | Exc.
Arguments Ret {A} a.
Arguments Exc {A}.

Definition set_fs (f : filesystem) (w : world) : world :=
  mkWorld f (stats w) (hash_cache w) (trace w) (clock w).
Definition set_stats (s : Stats) (w : world) : world :=
  mkWorld (fs w) s (hash_cache w) (trace w) (clock w).
Definition set_cache (c : gmap path string) (w : world) : world :=
  mkWorld (fs w) (stats w) c (trace w) (clock w).
Definition emit (e : syscall) (w : world) : world :=
  mkWorld (fs w) (stats w) (hash_cache w) (e :: trace w) (clock w).
Definition tick (w : world) : world :=
  mkWorld (fs w) (stats w) (hash_cache w) (trace w) (S (clock w)).

Definition set_processed (n : nat) (s : Stats) : Stats :=
  mkStats n (moved s) (renamed s) (duplicates_found s)
    (duplicates_removed s) (errors s) (skipped s).
Definition incr_moved (s : Stats) : Stats :=
  mkStats (processed s) (S (moved s)) (renamed s) (duplicates_found s)
    (duplicates_removed s) (errors s) (skipped s).
Definition incr_renamed (s : Stats) : Stats :=
  mkStats (processed s) (moved s) (S (renamed s)) (duplicates_found s)
    (duplicates_removed s) (errors s) (skipped s).
Definition incr_duplicates_found (s : Stats) : Stats :=
  mkStats (processed s) (moved s) (renamed s) (S (duplicates_found s))
    (duplicates_removed s) (errors s) (skipped s).
Definition add_duplicates_removed (n : nat) (s : Stats) : Stats :=
  mkStats (processed s) (moved s) (renamed s) (duplicates_found s)
    (duplicates_removed s + n) (errors s) (skipped s).
Definition incr_errors (s : Stats) : Stats :=
  mkStats (processed s) (moved s) (renamed s) (duplicates_found s)
    (duplicates_removed s) (S (errors s)) (skipped s).
Definition incr_skipped (s : Stats) : Stats :=
  mkStats (processed s) (moved s) (renamed s) (duplicates_found s)
    (duplicates_removed s) (errors s) (S (skipped s)).

(** The initial [self.stats] of [FileOrganizer.__init__]. *)
Definition zero_stats : Stats := mkStats 0 0 0 0 0 0 0.

(** [get_category_mappings()], in insertion order. *)
Definition get_category_mappings : list (string * list string) :=
  [ ("Images", [".jpg"; ".jpeg"; ".png"; ".gif"; ".bmp"; ".svg"; ".webp"; ".tiff"]);
    ("Documents", [".pdf"; ".docx"; ".doc"; ".txt"; ".rtf"; ".xlsx"; ".xls";
                   ".pptx"; ".odt"; ".odp"; ".ods"]);
    ("Archives", [".zip"; ".rar"; ".7z"; ".tar"; ".gz"; ".bz2"; ".xz"]);
    ("Scripts", [".py"; ".js"; ".java"; ".cpp"; ".c"; ".h"; ".html"; ".css";
                 ".php"; ".sh"; ".bat"]);
    ("Videos", [".mp4"; ".avi"; ".mov"; ".mkv"; ".wmv"; ".flv"; ".webm"; ".m4v"]);
    ("Audio", [".mp3"; ".wav"; ".flac"; ".aac"; ".ogg"; ".m4a"; ".wma"]);
    ("Executables", [".exe"; ".msi"; ".dmg"; ".apk"; ".app"; ".deb"; ".rpm"]);
    ("Fonts", [".ttf"; ".otf"; ".woff"; ".woff2"; ".eot"]);
    ("Data", [".csv"; ".json"; ".xml"; ".sql"; ".db"; ".sqlite"; ".yaml"; ".yml"]);
    ("Presentations", [".ppt"; ".pptx"; ".key"]);
    ("Ebooks", [".epub"; ".mobi"; ".azw3"]);
    ("Torrents", [".torrent"]);
    ("Certificates", [".pem"; ".crt"; ".key"; ".cer"; ".pfx"]);
    ("Configs", [".ini"; ".cfg"; ".conf"; ".properties"]) ].

(** [FileOrganizer(source_folder, dry_run)]. *)
Definition new_organizer (dry : bool) : FileOrganizer :=
  mkOrganizer dry get_category_mappings.

Definition new_world (f : filesystem) : world :=
  mkWorld f zero_stats ∅ [] 0.

Section Organizer.
Context `{P : Platform}.

(** ** get_file_hash *)

(** The digest of the file's bytes, or the empty string when opening or
    reading raises [OSError] (missing, unreadable, a directory). *)
Definition get_file_hash (w : world) (file_path : path) : world * string :=
  let w := emit (Hashed file_path) w in
  match fs w !! file_path with
  | Some (File data _ true _) => (w, md5_hexdigest data)
  | _ => (w, EmptyString)
  end.

(** ** is_exact_duplicate *)

(** [self.hash_cache.get(f)], computing and storing the hash on a miss. *)
Definition cached_hash (w : world) (f : path) : world * string :=
  match hash_cache w !! f with
  | Some h => (w, h)
  | None =>
      let '(w1, h) := get_file_hash w f in
      (set_cache (<[f := h]> (hash_cache w1)) w1, h)
  end.

(** The Python value [hash1 and hash2 and hash1 == hash2] is returned as its
    truth value, which is all that the caller's [if] looks at. *)
Definition is_exact_duplicate (w : world) (file1 file2 : path)
  : world * bool :=
  match st_size <$> fs w !! file1, st_size <$> fs w !! file2 with
  | Some s1, Some s2 =>
      if bool_decide (s1 ≠ s2) then (w, false)
      else
        let '(w1, hash1) := cached_hash w file1 in
        let '(w2, hash2) := cached_hash w1 file2 in
        (w2, truthy hash1 && truthy hash2 && String.eqb hash1 hash2)
  | _, _ => (w, false)
  end.

(** ** get_unique_filename *)

(** [base_name] and [extension] of [original_name.rsplit('.', 1)]. *)
Definition split_name (original_name : string) : string * string :=
  match rsplit_dot original_name with
  | Some (b, a) => (b, String "."%char a)
  | None => (original_name, EmptyString)
  end.

(** What one call computed: the path returned ([None] for a duplicate), how
    often the loop body ran, the final value of [counter], and whether the
    timestamp name was forced. *)
Record naming := mkNaming {
  chosen : option path;
  iterations : nat;
  last_counter : nat;
  forced : bool
}.

(** The [while new_path.exists()] loop.  One unit of [fuel] is spent per run
    of the loop body; [None] means the fuel ran out. *)
Fixpoint unique_loop (fuel : nat) (org : FileOrganizer)
    (file_path target_folder : path) (base_name extension : string)
    (counter : nat) (new_path : path) (iters : nat) (w : world)
  : option (world * naming) :=
  if exists_ (fs w) new_path then
    match fuel with
    | O => None
    | S fuel' =>
        let '(w1, dup) := is_exact_duplicate w file_path new_path in
        if dup then
          let w2 := set_stats (incr_duplicates_found (stats w1)) w1 in
          let w3 :=
            if dry_run org then w2
            else
              let w2' := emit (Unlinked file_path) w2 in
              match unlink (fs w2') file_path with
              | Some f' =>
                  set_stats (add_duplicates_removed 1 (stats w2'))
                    (set_fs f' w2')
              | None => set_stats (incr_errors (stats w2')) w2'
              end in
          Some (w3, mkNaming None (S iters) counter false)
        else
          let new_name := base_name +:+ "_" +:+ pretty counter +:+ extension in
          let new_path := join target_folder new_name in
          let counter := S counter in
          if bool_decide (100 < counter) then
            let timestamp := strftime_now (clock w1) in
            let new_name := base_name +:+ "_" +:+ timestamp +:+ extension in
            Some (tick w1,
                  mkNaming (Some (join target_folder new_name)) (S iters)
                    counter true)
          else
            unique_loop fuel' org file_path target_folder base_name extension
              counter new_path (S iters) w1
    end
  else Some (w, mkNaming (Some new_path) iters counter false).

Definition get_unique_filename_fuel (fuel : nat) (org : FileOrganizer)
    (file_path target_folder : path) (w : world) : option (world * naming) :=
  let original_name := name file_path in
  let '(base_name, extension) := split_name original_name in
  unique_loop fuel org file_path target_folder base_name extension
    1 (join target_folder original_name) 0 w.

(** Fuel that always suffices ([unique_loop_fuel_enough] below). *)
Definition loop_bound : nat := 100.

(** The loop run with that fuel; it never runs out
    ([get_unique_filename_run] below), so the last branch is not taken. *)
Definition get_unique_filename (org : FileOrganizer)
    (file_path target_folder : path) (w : world) : world * option path :=
  match get_unique_filename_fuel loop_bound org file_path target_folder w with
  | Some (w', n) => (w', chosen n)
  | None => (w, None)
  end.

(** ** check_case_insensitive_duplicate *)

(** [Path.iterdir]: raises unless [dir] is a directory. *)
Definition iterdir (f : filesystem) (dir : path)
  : option (list (path * node)) :=
  match f !! dir with
  | Some (Dir _ _) =>
      Some (filter (λ e, Is_true (child_of dir e.1)) (scandir (map_to_list f)))
  | _ => None
  end.

Definition check_case_insensitive_duplicate (f : filesystem)
    (filename : string) (target_folder : path) : result bool :=
  match iterdir f target_folder with
  | Some entries =>
      Ret (existsb (λ e, is_file e.2
                         && String.eqb (lower (name e.1)) (lower filename))
             entries)
  | None => Exc
  end.

(** ** create_category_folders *)

Definition prefixes (p : path) : list path :=
  (λ n, take n p) <$> seq 0 (S (length p)).

(** [Path.mkdir(parents=True, exist_ok=True)]: every missing directory on
    the way is created; a regular file on the way raises. *)
Definition mkdir_step (now : Z) (acc : option filesystem) (q : path)
  : option filesystem :=
  match acc with
  | Some f =>
      match f !! q with
      | None => Some (<[q := Dir dir_size now]> f)
      | Some (Dir _ _) => Some f
      | Some (File _ _ _ _) => None
      end
  | None => None
  end.

Definition mkdir_parents (f : filesystem) (p : path) (now : Z)
  : option filesystem :=
  foldl (mkdir_step now) (Some f) (prefixes p).

Fixpoint create_folders (org : FileOrganizer) (cats : list string)
    (w : world) : world * result unit :=
  match cats with
  | [] => (w, Ret ())
  | category :: rest =>
      let category_path := [category] in
      if negb (exists_ (fs w) category_path) then
        if negb (dry_run org) then
          let w1 := emit (MadeDir category_path) w in
          match mkdir_parents (fs w1) category_path (time_now (clock w1)) with
          | Some f' => create_folders org rest (set_fs f' w1)
          | None => (w1, Exc)
          end
        else create_folders org rest w
      else create_folders org rest w
  end.

Definition create_category_folders (org : FileOrganizer) (w : world)
  : world * result unit :=
  create_folders org (fst <$> categories org) w.

(** ** process_file *)

(** The body run for the category that claims the extension. *)
Definition place (org : FileOrganizer) (category : string)
    (file_path : path) (w : world) : world * result unit :=
  let target_folder := [category] in
  let '(w1, unique_path) :=
    get_unique_filename org file_path target_folder w in
  match unique_path with
  | None => (w1, Ret ())
  | Some unique_path =>
      match check_case_insensitive_duplicate (fs w1) (name unique_path)
              target_folder with
      | Exc => (w1, Exc)
      | Ret _ =>
          if negb (dry_run org) then
            let w2 := emit (Moved file_path unique_path) w1 in
            match shutil_move (fs w2) file_path unique_path with
            | Some f' =>
                let w3 := set_stats (incr_moved (stats w2)) (set_fs f' w2) in
                if bool_decide (name file_path ≠ name unique_path)
                then (set_stats (incr_renamed (stats w3)) w3, Ret ())
                else (w3, Ret ())
            | None => (set_stats (incr_errors (stats w2)) w2, Ret ())
            end
          else (w1, Ret ())
      end
  end.

(** [for category, extensions in self.categories.items()], with its
    [break]; the boolean is the flag [moved]. *)
Fixpoint process_loop (org : FileOrganizer)
    (cats : list (string * list string)) (file_ext : string)
    (file_path : path) (w : world) : world * result bool :=
  match cats with
  | [] => (w, Ret false)
  | (category, extensions) :: rest =>
      if bool_decide (file_ext ∈ extensions) then
        match place org category file_path w with
        | (w', Ret _) => (w', Ret true)
        | (w', Exc) => (w', Exc)
        end
      else process_loop org rest file_ext file_path w
  end.

Definition process_file (org : FileOrganizer) (w : world) (file_path : path)
  : world * result unit :=
  let file_ext := lower (suffix file_path) in
  match process_loop org (categories org) file_ext file_path w with
  | (w', Ret true) => (w', Ret ())
  | (w', Ret false) => (set_stats (incr_skipped (stats w')) w', Ret ())
  | (w', Exc) => (w', Exc)
  end.

(** ** organize_files *)

Definition to_process (e : path * node) : bool :=
  is_file e.2 && negb (startswith_dot (name e.1))
  && negb (String.eqb (suffix e.1) ".log").

Definition files_to_process (f : filesystem) : option (list path) :=
  match iterdir f [] with
  | Some entries => Some (fst <$> filter (λ e, Is_true (to_process e)) entries)
  | None => None
  end.

Fixpoint process_files (org : FileOrganizer) (files : list path) (w : world)
  : world * result unit :=
  match files with
  | [] => (w, Ret ())
  | file_path :: rest =>
      match process_file org w file_path with
      | (w', Ret _) => process_files org rest w'
      | (w', Exc) => (w', Exc)
      end
  end.

Definition organize_files (org : FileOrganizer) (w : world)
  : world * result bool :=
  if negb (exists_ (fs w) []) then (w, Ret false)
  else
    match create_category_folders org w with
    | (w1, Exc) => (w1, Exc)
    | (w1, Ret _) =>
        match files_to_process (fs w1) with
        | None => (w1, Exc)
        | Some files =>
            let w2 :=
              set_stats (set_processed (length files) (stats w1)) w1 in
            match process_files org files w2 with
            | (w3, Ret _) => (w3, Ret true)
            | (w3, Exc) => (w3, Exc)
            end
        end
    end.

(** ** find_all_duplicates *)

(** [Path.rglob('*')]: everything below [dir]. *)
Definition rglob (f : filesystem) (dir : path) : list (path * node) :=
  filter (λ e, Is_true (below dir e.1)) (scandir (map_to_list f)).

(** [duplicates[file_hash].append(file_path)], creating the list when the
    hash is new; the dictionary keeps keys in insertion order. *)
Fixpoint group_add (file_hash : string) (file_path : path)
    (duplicates : list (string * list path)) : list (string * list path) :=
  match duplicates with
  | [] => [(file_hash, [file_path])]
  | (h, files) :: rest =>
      if String.eqb file_hash h then (h, files ++ [file_path]) :: rest
      else (h, files) :: group_add file_hash file_path rest
  end.

Fixpoint hash_files (all_files : list path)
    (duplicates : list (string * list path)) (w : world)
  : world * list (string * list path) :=
  match all_files with
  | [] => (w, duplicates)
  | file_path :: rest =>
      let '(w1, file_hash) := get_file_hash w file_path in
      if truthy file_hash
      then hash_files rest (group_add file_hash file_path duplicates) w1
      else hash_files rest duplicates w1
  end.

Definition visible_file (e : path * node) : bool :=
  is_file e.2 && negb (startswith_dot (name e.1)).

Definition find_all_duplicates (w : world) (recursive : bool)
  : world * result (list (string * list path)) :=
  let listing :=
    if recursive then Some (rglob (fs w) []) else iterdir (fs w) [] in
  match listing with
  | None => (w, Exc)
  | Some all_files =>
      let all_files := fst <$> filter (λ e, Is_true (visible_file e)) all_files in
      let '(w1, duplicates) := hash_files all_files [] w in
      (w1, Ret (filter (λ g, 1 < length g.2) duplicates))
  end.

(** ** remove_duplicates *)

(** [[(f, f.stat().st_mtime) for f in files]]; [stat] raises for a path
    that is gone. *)
Fixpoint with_mtime (f : filesystem) (files : list path)
  : option (list (path * Z)) :=
  match files with
  | [] => Some []
  | p :: rest =>
      match f !! p, with_mtime f rest with
      | Some n, Some l => Some ((p, st_mtime n) :: l)
      | _, _ => None
      end
  end.

(** [list.sort(key=lambda x: x[1])] is a stable sort; so is this insertion
    sort, and a stable sort has one result. *)
Fixpoint insert_by_mtime (x : path * Z) (l : list (path * Z))
  : list (path * Z) :=
  match l with
  | [] => [x]
  | y :: l' =>
      if bool_decide (x.2 ≤ y.2)%Z then x :: y :: l'
      else y :: insert_by_mtime x l'
  end.

Fixpoint sort_by_mtime (l : list (path * Z)) : list (path * Z) :=
  match l with
  | [] => []
  | x :: l' => insert_by_mtime x (sort_by_mtime l')
  end.

(** The order in which a group is handled: the head is kept. *)
Definition keep_order (keep_oldest : bool) (files_with_mtime : list (path * Z))
  : list (path * Z) :=
  let sorted := sort_by_mtime files_with_mtime in
  if negb keep_oldest then rev sorted else sorted.

(** [for file_path, _ in files_with_mtime[1:]]. *)
Fixpoint delete_rest (org : FileOrganizer) (rest : list (path * Z))
    (removed_count : nat) (w : world) : world * nat :=
  match rest with
  | [] => (w, removed_count)
  | (file_path, _) :: rest' =>
      if negb (dry_run org) then
        let w1 := emit (Unlinked file_path) w in
        match unlink (fs w1) file_path with
        | Some f' => delete_rest org rest' (S removed_count) (set_fs f' w1)
        | None => delete_rest org rest' removed_count w1
        end
      else delete_rest org rest' removed_count w
  end.

(** [for file_hash, files in duplicates.items()]. *)
Fixpoint remove_groups (org : FileOrganizer) (keep_oldest : bool)
    (duplicates : list (string * list path)) (removed_count : nat)
    (w : world) : world * result nat :=
  match duplicates with
  | [] => (w, Ret removed_count)
  | (_, files) :: rest =>
      match with_mtime (fs w) files with
      | None => (w, Exc)
      | Some files_with_mtime =>
          match keep_order keep_oldest files_with_mtime with
          | [] => (w, Exc)
          | _ :: others =>
              let '(w1, n) := delete_rest org others removed_count w in
              remove_groups org keep_oldest rest n w1
          end
      end
  end.

Definition remove_duplicates (org : FileOrganizer) (keep_oldest : bool)
    (w : world) : world * result unit :=
  match find_all_duplicates w true with
  | (w1, Exc) => (w1, Exc)
  | (w1, Ret []) => (w1, Ret ())
  | (w1, Ret duplicates) =>
      match remove_groups org keep_oldest duplicates 0 w1 with
      | (w2, Ret removed_count) =>
          (set_stats (add_duplicates_removed removed_count (stats w2)) w2,
           Ret ())
      | (w2, Exc) => (w2, Exc)
      end
  end.

(** What [remove_groups] does with one group, read off the code above: the
    file it keeps and the files it hands to [delete_rest]. *)
Definition group_plan (keep_oldest : bool) (f : filesystem)
    (files : list path) : option (path * list path) :=
  match with_mtime f files with
  | Some files_with_mtime =>
      match keep_order keep_oldest files_with_mtime with
      | keep :: others => Some (keep.1, others.*1)
      | [] => None
      end
  | None => None
  end.

Definition doomed (keep_oldest : bool) (f : filesystem) (files : list path)
  : list path :=
  match group_plan keep_oldest f files with
  | Some (_, others) => others
  | None => []
  end.

(** ** save_report *)

(** The default [report_path]. *)
Definition default_report : path := ["organization_report.json"].

(** [open(report_path, 'w')] followed by [json.dump]: raises when the path
    is a directory or its folder is missing. *)
Definition write_file (f : filesystem) (p : path) (data : list byte)
    (now : Z) : option filesystem :=
  match f !! removelast p, f !! p with
  | Some (Dir _ _), None => Some (<[p := File data now true true]> f)
  | Some (Dir _ _), Some (File _ _ r d) => Some (<[p := File data now r d]> f)
  | _, _ => None
  end.

Definition save_report (org : FileOrganizer) (report_path : option path)
    (w : world) : world * result unit :=
  let report_path := default default_report report_path in
  let report := json_dump (clock w) (dry_run org) (stats w) in
  let w1 := tick w in
  if negb (dry_run org) then
    let w2 := emit (Wrote report_path) w1 in
    match write_file (fs w2) report_path report (time_now (clock w2)) with
    | Some f' => (set_fs f' w2, Ret ())
    | None => (w2, Exc)
    end
  else (w1, Ret ()).

(** ** Predicates used in the statements *)

(** Every cached hash is the one that hashing the path now would give. *)
Definition cache_coherent (w : world) : Prop :=
  ∀ p h, hash_cache w !! p = Some h → (get_file_hash w p).2 = h.

(** Events that read a file for hashing and change nothing. *)
Definition hashing (e : syscall) : Prop := ∃ p, e = Hashed p.

(** [w'] comes after [w] and every I/O call in between satisfies [Q]. *)
Definition since (Q : syscall → Prop) (w w' : world) : Prop :=
  ∃ evs, trace w' = evs ++ trace w ∧ Forall Q evs.

(** Only hashing happened in between. *)
Definition only_hashed : world → world → Prop := since hashing.

(** What a dry run may change: nothing on disk, and none of the counters
    that record a completed action. *)
Definition preview (w w' : world) : Prop :=
  fs w' = fs w ∧ only_hashed w w'
  ∧ processed (stats w') = processed (stats w)
  ∧ moved (stats w') = moved (stats w)
  ∧ renamed (stats w') = renamed (stats w)
  ∧ duplicates_removed (stats w') = duplicates_removed (stats w)
  ∧ errors (stats w') = errors (stats w).

(** What every run keeps: the file count of the snapshot and the entries
    of the hash cache. *)
Definition grows (w w' : world) : Prop :=
  hash_cache w ⊆ hash_cache w'
  ∧ processed (stats w') = processed (stats w).

(** Sizes that are known and differ. *)
Definition size_differs (f : filesystem) (a b : path) : Prop :=
  ∃ s1 s2, st_size <$> f !! a = Some s1 ∧ st_size <$> f !! b = Some s2
           ∧ s1 ≠ s2.

(** Hashing [f] fails: [get_file_hash] returns the empty string for it,
    and the cache holds no other hash of it from earlier in the run. *)
Definition hash_fails (w : world) (f : path) : Prop :=
  (get_file_hash w f).2 = EmptyString
  ∧ ∀ h, hash_cache w !! f = Some h → h = EmptyString.

(** The I/O calls that handling [file_path] for [folder] may make. *)
Definition touches (file_path folder : path) (e : syscall) : Prop :=
  hashing e ∨ e = Unlinked file_path
  ∨ ∃ dst, e = Moved file_path dst ∧ removelast dst = folder.

(** The category that the loop of [process_file] stops at: the first one,
    in the order of the table, whose extension list has the extension. *)
Definition first_category (cats : list (string * list string))
    (file_ext : string) : option string :=
  fst <$> List.find (λ c, bool_decide (file_ext ∈ c.2)) cats.

(** [f'] is [f] with directories added. *)
Definition adds_dirs (f f' : filesystem) : Prop :=
  f ⊆ f' ∧ ∀ q n, f' !! q = Some n → f !! q = Some n ∨ is_file n = false.

Definition making_dirs (e : syscall) : Prop := ∃ p, e = MadeDir p.

(** The files that [organize_files] collects from [f]: the regular files
    directly in the source folder whose name does not start with a dot and
    whose suffix is not [.log]. *)
Definition collected (f : filesystem) (p : path) : Prop :=
  ∃ n, f !! p = Some n ∧ child_of [] p = true ∧ is_file n = true
       ∧ startswith_dot (name p) = false
       ∧ suffix p ≠ ".log".

Definition older (x y : path * Z) : Prop := (x.2 ≤ y.2)%Z.

(** The paths that [get_unique_filename] tries, in order: the natural
    destination, then [base_1.ext], [base_2.ext], ... *)
Definition candidate (target_folder file_path : path) (k : nat) : path :=
  match k with
  | O => join target_folder (name file_path)
  | S _ =>
      let '(base_name, extension) := split_name (name file_path) in
      join target_folder (base_name +:+ "_" +:+ pretty k +:+ extension)
  end.

(** What the loop of [get_unique_filename] does to the world once the
    occupant has been found to be a duplicate (its lines 97 to 109). *)
Definition drop_duplicate (org : FileOrganizer) (file_path : path)
    (w1 : world) : world :=
  let w2 := set_stats (incr_duplicates_found (stats w1)) w1 in
  if dry_run org then w2
  else
    let w2' := emit (Unlinked file_path) w2 in
    match unlink (fs w2') file_path with
    | Some f' =>
        set_stats (add_duplicates_removed 1 (stats w2')) (set_fs f' w2')
    | None => set_stats (incr_errors (stats w2')) w2'
    end.

(** No dot occurs in [s]. *)
Definition dotless (s : string) : Prop := rsplit_dot s = None.

(** The files whose handling ended in a counted result. *)
Definition outcomes (s : Stats) : nat :=
  moved s + errors s + duplicates_removed s + skipped s.

(** From [s] to [s'] no counter other than [processed] has gone down, no
    more files were renamed than moved, and no more duplicates removed than
    found. *)
Definition counted (s s' : Stats) : Prop :=
  moved s ≤ moved s' ∧ renamed s ≤ renamed s'
  ∧ duplicates_found s ≤ duplicates_found s'
  ∧ duplicates_removed s ≤ duplicates_removed s'
  ∧ errors s ≤ errors s' ∧ skipped s ≤ skipped s'
  ∧ renamed s' + moved s ≤ renamed s + moved s'
  ∧ duplicates_removed s' + duplicates_found s
    ≤ duplicates_removed s + duplicates_found s'.

(** [p] lies inside the folder of one of the categories. *)
Definition inside_category (org : FileOrganizer) (p : path) : Prop :=
  ∃ c, c ∈ (categories org).*1 ∧ below [c] p = true.

(** From [f] to [f'] every entry of [f] outside [S] is what it was. *)
Definition keeps (S : path → Prop) (f f' : filesystem) : Prop :=
  ∀ p, is_Some (f !! p) → ¬ S p → f' !! p = f !! p.

(** From [f] to [f'] every directory of [f] is what it was. *)
Definition keeps_dirs (f f' : filesystem) : Prop :=
  ∀ p s m, f !! p = Some (Dir s m) → f' !! p = Some (Dir s m).

(** The I/O calls that [organize_files] may make on the disk [f]: reading
    a file for hashing, creating the folder of a category, and unlinking a
    collected file or moving it into the folder of a category. *)
Definition organizing (org : FileOrganizer) (f : filesystem) (e : syscall)
  : Prop :=
  hashing e
  ∨ (∃ c, c ∈ (categories org).*1 ∧ e = MadeDir [c])
  ∨ ∃ file_path,
      collected f file_path
      ∧ (e = Unlinked file_path
         ∨ ∃ dst c, c ∈ (categories org).*1 ∧ e = Moved file_path dst
                    ∧ removelast dst = [c]).

(** The files that [find_all_duplicates] looks at: regular files below the
    source folder (directly in it when the search is not recursive) whose
    name does not start with a dot. *)
Definition searched (recursive : bool) (f : filesystem) (p : path) : Prop :=
  ∃ n, f !! p = Some n ∧ is_file n = true
       ∧ startswith_dot (name p) = false
       ∧ (if recursive then below [] p else child_of [] p) = true.

End Organizer.

(** ** A platform to run examples on *)

Definition hex_digit (n : nat) : ascii :=
  ascii_of_nat (if bool_decide (n < 10) then 48 + n else 87 + n).

Fixpoint hex_of_bytes (l : list byte) : string :=
  match l with
  | [] => EmptyString
  | b :: l' =>
      let n := Byte.to_nat b in
      String (hex_digit (n / 16)) (String (hex_digit (n mod 16)) (hex_of_bytes l'))
  end.

Fixpoint pad_right (n : nat) (s : string) : string :=
  match n with
  | O => EmptyString
  | S n' =>
      match s with
      | EmptyString => String "0"%char (pad_right n' EmptyString)
      | String c r => String c (pad_right n' r)
      end
  end.

(** The case mapping of the letters A to Z, which is what [str.lower]
    does to a name written in ASCII. *)
Definition lower_ascii (c : ascii) : ascii :=
  let n := Ascii.nat_of_ascii c in
  if bool_decide (65 ≤ n ≤ 90)%nat then Ascii.ascii_of_nat (n + 32) else c.

Fixpoint lower_ascii_string (s : string) : string :=
  match s with
  | EmptyString => EmptyString
  | String c r => String (lower_ascii c) (lower_ascii_string r)
  end.

(** A 32-character stand-in for MD5 that tells short contents apart, the
    case mapping of ASCII (the examples use ASCII names only), a
    directory enumerated in the order of the map, and a clock that starts
    at midnight. *)
#[export] Instance example_platform : Platform := {|
  md5_hexdigest := λ data, pad_right 32 (hex_of_bytes data);
  lower := lower_ascii_string;
  scandir := λ l, l;
  scandir_perm := λ l, reflexivity l;
  strftime_now := λ n, "20240101_000000_" +:+ pad_right 6 (pretty n);
  time_now := λ n, Z.of_nat n;
  dir_size := 4096;
  json_dump := λ _ _ _, []
|}.

(** ** File systems to run examples on *)

Definition bytes_of (s : string) : list byte := String.list_byte_of_string s.

(** A source folder with [Images/photo.jpg] already in place, a copy of it
    under the same name, another copy under a different name, and a file of
    an unknown type. *)
Definition photos_fs : filesystem :=
  list_to_map
    [ ([], Dir 4096 0);
      (["Images"], Dir 4096 0);
      (["Images"; "photo.jpg"], File (bytes_of "AAAAA") 1 true true);
      (["photo.jpg"], File (bytes_of "AAAAA") 2 true true);
      (["photo_copy.jpg"], File (bytes_of "AAAAA") 3 true true);
      (["notes.xyz"], File (bytes_of "hello") 4 true true) ].

(** Two files of one size that cannot be read. *)
Definition unreadable_fs : filesystem :=
  list_to_map
    [ ([], Dir 4096 0);
      (["Images"], Dir 4096 0);
      (["Images"; "a.jpg"], File (bytes_of "AAAAA") 1 false true);
      (["a.jpg"], File (bytes_of "BBBBB") 2 false true) ].

(** A collision storm: [a.jpg], [a_1.jpg] ... [a_99.jpg] and the name with
    the timestamp of the first clock read are all taken in [Images], by
    files of another size than the incoming [a.jpg]. *)
Definition storm_occupant : node := File (bytes_of "BB") 1 true true.

Definition storm_names : list path :=
  ["Images"; "a.jpg"]
  :: ["Images"; "a_20240101_000000_000000.jpg"]
  :: ((λ k, ["Images"; "a" +:+ "_" +:+ pretty k +:+ ".jpg"]) <$> seq 1 99).

Definition storm_fs : filesystem :=
  foldr (λ p f, <[p := storm_occupant]> f)
    (list_to_map
       [ ([], Dir 4096 0);
         (["Images"], Dir 4096 0);
         (["a.jpg"], File (bytes_of "A") 1 true true) ])
    storm_names.

(** [a.jpg] collides with a different [Images/a.jpg], and [a_1.jpg] has
    the bytes of [a.jpg]. *)
Definition chain_fs : filesystem :=
  list_to_map
    [ ([], Dir 4096 0);
      (["Images"], Dir 4096 0);
      (["Images"; "a.jpg"], File (bytes_of "BB") 1 true true);
      (["a.jpg"], File (bytes_of "A") 2 true true);
      (["a_1.jpg"], File (bytes_of "A") 3 true true) ].

(** A report left in the source folder by an earlier run. *)
Definition reported_fs : filesystem :=
  list_to_map
    [ ([], Dir 4096 0);
      (["organization_report.json"], File (bytes_of "{}") 1 true true);
      (["a.jpg"], File (bytes_of "A") 2 true true) ].

(** A presentation and a key file. *)
Definition slides_fs : filesystem :=
  list_to_map
    [ ([], Dir 4096 0);
      (["Documents"], Dir 4096 0);
      (["Presentations"], Dir 4096 0);
      (["Certificates"], Dir 4096 0);
      (["talk.PPTX"], File (bytes_of "slides") 1 true true);
      (["server.key"], File (bytes_of "secret") 2 true true) ].

(** A source folder with a subfolder that is no category, three files
    with the same bytes (one of them in the subfolder), a hidden file and
    a log; no category folder exists yet. *)
Definition nested_fs : filesystem :=
  list_to_map
    [ ([], Dir 4096 0);
      (["old"], Dir 4096 0);
      (["old"; "a.jpg"], File (bytes_of "A") 1 true true);
      (["a.jpg"], File (bytes_of "A") 2 true true);
      (["b.jpg"], File (bytes_of "A") 3 true true);
      ([".hidden"], File (bytes_of "A") 4 true true);
      (["run.log"], File (bytes_of "x") 5 true true) ].

(** * Properties *)

Section Properties.
Context `{P : Platform}.

(** ** Hashing and the cache *)

Lemma get_file_hash_world w p :
  (get_file_hash w p).1 = emit (Hashed p) w.
Proof.
  unfold get_file_hash; simpl.
  destruct (fs w !! p) as [[d m [] rm|]|]; reflexivity.
Qed.

Lemma get_file_hash_fs w w' p :
  fs w = fs w' → (get_file_hash w p).2 = (get_file_hash w' p).2.
Proof.
  unfold get_file_hash; simpl; intros ->.
  repeat case_match; simplify_eq; done.
Qed.

Lemma cache_coherent_new f : cache_coherent (new_world f).
Proof. intros p h; simpl; rewrite lookup_empty; done. Qed.

Lemma since_same Q w w' : trace w' = trace w → since Q w w'.
Proof. intros E. exists []; split; [done | constructor]. Qed.

Lemma since_refl Q w : since Q w w.
Proof. by apply since_same. Qed.

Lemma since_trans Q w1 w2 w3 : since Q w1 w2 → since Q w2 w3 → since Q w1 w3.
Proof.
  intros (e1 & T1 & F1) (e2 & T2 & F2). exists (e2 ++ e1).
  rewrite T2, T1, (assoc_L _). split; [done | by apply Forall_app].
Qed.

Lemma since_mono (Q Q' : syscall → Prop) w w' :
  (∀ e, Q e → Q' e) → since Q w w' → since Q' w w'.
Proof.
  intros HQ (evs & T & F). exists evs. split; [done|].
  eapply Forall_impl; eauto.
Qed.

Lemma since_emit (Q : syscall → Prop) e w w' :
  Q e → trace w' = e :: trace w → since Q w w'.
Proof. intros He T. exists [e]. split; [done | by repeat constructor]. Qed.

Lemma only_hashed_same w w' : trace w' = trace w → only_hashed w w'.
Proof. apply since_same. Qed.

Lemma only_hashed_refl w : only_hashed w w.
Proof. apply since_refl. Qed.

Lemma only_hashed_trans w1 w2 w3 :
  only_hashed w1 w2 → only_hashed w2 w3 → only_hashed w1 w3.
Proof. apply since_trans. Qed.

Lemma cached_hash_spec w f :
  let r := cached_hash w f in
  fs r.1 = fs w ∧ stats r.1 = stats w ∧ clock r.1 = clock w
  ∧ hash_cache w ⊆ hash_cache r.1
  ∧ hash_cache r.1 !! f = Some r.2
  ∧ only_hashed w r.1
  ∧ (cache_coherent w → r.2 = (get_file_hash w f).2 ∧ cache_coherent r.1).
Proof.
  unfold cached_hash.
  destruct (hash_cache w !! f) as [h|] eqn:E; simpl.
  - split_and!; auto using only_hashed_refl.
    intros Hc; split; [symmetry|]; auto.
  - destruct (get_file_hash w f) as [w1 h] eqn:G.
    pose proof (get_file_hash_world w f) as Hw; rewrite G in Hw;
      simpl in Hw; subst w1; simpl.
    split_and!; auto.
    + by apply insert_subseteq.
    + by rewrite lookup_insert_eq.
    + exists [Hashed f]; split; [done|]. repeat constructor. by exists f.
    + intros Hc; split; [done|]. intros q hq; simpl.
      rewrite lookup_insert; case_decide as Hq.
      * intros [= <-]; subst q.
        rewrite (get_file_hash_fs _ w) by done. by rewrite G.
      * intros Hq'. rewrite (get_file_hash_fs _ w) by done. by apply Hc.
Qed.

Lemma is_exact_duplicate_spec w file1 file2 :
  let r := is_exact_duplicate w file1 file2 in
  fs r.1 = fs w ∧ stats r.1 = stats w ∧ clock r.1 = clock w
  ∧ hash_cache w ⊆ hash_cache r.1
  ∧ only_hashed w r.1
  ∧ (cache_coherent w → cache_coherent r.1).
Proof.
  unfold is_exact_duplicate.
  assert (Hid : fs w = fs w ∧ stats w = stats w ∧ clock w = clock w
    ∧ hash_cache w ⊆ hash_cache w ∧ only_hashed w w
    ∧ (cache_coherent w → cache_coherent w)).
  { split_and!; auto using only_hashed_refl. }
  destruct (st_size <$> fs w !! file1) as [s1|]; [|exact Hid].
  destruct (st_size <$> fs w !! file2) as [s2|]; [|exact Hid].
  case_bool_decide; [exact Hid|].
  pose proof (cached_hash_spec w file1) as H1.
  destruct (cached_hash w file1) as [w1 h1]; simpl in H1.
  pose proof (cached_hash_spec w1 file2) as H2.
  destruct (cached_hash w1 file2) as [w2 h2]; simpl in *.
  destruct H1 as (F1 & S1 & C1 & M1 & _ & T1 & K1).
  destruct H2 as (F2 & S2 & C2 & M2 & _ & T2 & K2).
  split_and!; try congruence.
  - by etrans.
  - by eapply only_hashed_trans.
  - intros Hc. apply K2, K1, Hc.
Qed.

(** A hash that is compared is the hash of the file, as long as the cache
    is coherent. *)
Lemma is_exact_duplicate_value w file1 file2 :
  cache_coherent w →
  (is_exact_duplicate w file1 file2).2 = true ↔
    (∃ s, st_size <$> fs w !! file1 = Some s
          ∧ st_size <$> fs w !! file2 = Some s)
    ∧ (get_file_hash w file1).2 = (get_file_hash w file2).2
    ∧ (get_file_hash w file1).2 ≠ EmptyString.
Proof.
  intros Hc. unfold is_exact_duplicate.
  destruct (st_size <$> fs w !! file1) as [s1|];
    [|split; [done | by intros [(s & ? & _) _]]].
  destruct (st_size <$> fs w !! file2) as [s2|];
    [|split; [done | by intros [(s & _ & ?) _]]].
  case_bool_decide as Hs.
  { split; [done|]. intros [(s & ? & ?) _]; simplify_eq. }
  subst s2.
  pose proof (cached_hash_spec w file1) as H1.
  destruct (cached_hash w file1) as [w1 h1]; simpl in H1.
  pose proof (cached_hash_spec w1 file2) as H2.
  destruct (cached_hash w1 file2) as [w2 h2]; simpl in *.
  destruct H1 as (F1 & _ & _ & _ & _ & _ & K1).
  destruct H2 as (_ & _ & _ & _ & _ & _ & K2).
  destruct (K1 Hc) as [-> Hc1]. destruct (K2 Hc1) as [-> _].
  rewrite (get_file_hash_fs w1 w file2) by done.
  unfold truthy.
  rewrite !andb_true_iff, !negb_true_iff, !String.eqb_neq, String.eqb_eq.
  split.
  - intros [[H _] E]. split; [by exists s1|]. done.
  - intros (_ & E & H). split_and!; try done. by rewrite <-E.
Qed.

(** ** The naming loop *)

Lemma preview_refl w : preview w w.
Proof. unfold preview; split_and!; auto using only_hashed_refl. Qed.

Lemma preview_trans w1 w2 w3 : preview w1 w2 → preview w2 w3 → preview w1 w3.
Proof.
  unfold preview; intros (?&?&?&?&?&?&?) (?&?&?&?&?&?&?).
  split_and!; try congruence. by eapply only_hashed_trans.
Qed.

Lemma grows_refl w : grows w w.
Proof. by split. Qed.

Lemma grows_trans w1 w2 w3 : grows w1 w2 → grows w2 w3 → grows w1 w3.
Proof. intros [? ?] [? ?]; split; [by etrans | congruence]. Qed.

Lemma is_exact_duplicate_preview w file1 file2 :
  preview w (is_exact_duplicate w file1 file2).1.
Proof.
  destruct (is_exact_duplicate_spec w file1 file2) as (F & S & _ & _ & T & _).
  unfold preview. rewrite S. by split_and!.
Qed.

Lemma is_exact_duplicate_grows w file1 file2 :
  grows w (is_exact_duplicate w file1 file2).1.
Proof.
  destruct (is_exact_duplicate_spec w file1 file2) as (_ & S & _ & M & _).
  split; [done | by rewrite S].
Qed.

Lemma unique_loop_grows fuel org file_path target_folder base_name extension :
  ∀ counter new_path iters w w' n,
    unique_loop fuel org file_path target_folder base_name extension
      counter new_path iters w = Some (w', n) →
    grows w w'.
Proof.
  induction fuel as [|fuel IH]; intros counter new_path iters w w' n H.
  - simpl in H. destruct (exists_ _ _); simplify_eq. apply grows_refl.
  - simpl in H. destruct (exists_ _ _); [|simplify_eq; apply grows_refl].
    pose proof (is_exact_duplicate_grows w file_path new_path) as G.
    destruct (is_exact_duplicate w file_path new_path) as [w1 dup]; simpl in G.
    destruct dup.
    + simplify_eq. eapply grows_trans; [exact G|].
      destruct (dry_run org); [by split|]. simpl.
      destruct (unlink _ _); by split.
    + case_bool_decide.
      * simplify_eq. eapply grows_trans; [exact G|]. by split.
      * eapply grows_trans; [exact G|]. eapply IH, H.
Qed.

Lemma unique_loop_preview fuel org file_path target_folder base_name extension :
  dry_run org = true →
  ∀ counter new_path iters w w' n,
    unique_loop fuel org file_path target_folder base_name extension
      counter new_path iters w = Some (w', n) →
    preview w w'.
Proof.
  intros Hdry.
  induction fuel as [|fuel IH]; intros counter new_path iters w w' n H.
  - simpl in H. destruct (exists_ _ _); simplify_eq. apply preview_refl.
  - simpl in H. destruct (exists_ _ _); [|simplify_eq; apply preview_refl].
    pose proof (is_exact_duplicate_preview w file_path new_path) as G.
    destruct (is_exact_duplicate w file_path new_path) as [w1 dup]; simpl in G.
    destruct dup.
    + rewrite Hdry in H. simplify_eq.
      eapply preview_trans; [exact G|].
      unfold preview; simpl; split_and!; auto using only_hashed_same.
    + case_bool_decide.
      * simplify_eq. eapply preview_trans; [exact G|].
        unfold preview; simpl; split_and!; auto using only_hashed_same.
      * eapply preview_trans; [exact G|]. eapply IH, H.
Qed.

(** A path that is returned lies in the target folder, nothing on disk has
    changed, and unless the timestamp name was forced the path is free. *)
Lemma unique_loop_chosen fuel org file_path target_folder base_name extension :
  ∀ counter new_path iters w w' n p,
    unique_loop fuel org file_path target_folder base_name extension
      counter new_path iters w = Some (w', n) →
    removelast new_path = target_folder →
    chosen n = Some p →
    fs w' = fs w ∧ removelast p = target_folder
    ∧ (forced n = false → fs w' !! p = None).
Proof.
  induction fuel as [|fuel IH]; intros counter new_path iters w w' n p H Hp Hn.
  - simpl in H. destruct (exists_ _ _) eqn:E; simplify_eq; simpl in *.
    simplify_eq. split_and!; auto. intros _.
    apply bool_decide_eq_false in E. by apply eq_None_not_Some.
  - simpl in H. destruct (exists_ _ _) eqn:E.
    2:{ simplify_eq; simpl in *; simplify_eq. split_and!; auto. intros _.
        apply bool_decide_eq_false in E. by apply eq_None_not_Some. }
    pose proof (is_exact_duplicate_spec w file_path new_path) as (F & _).
    destruct (is_exact_duplicate w file_path new_path) as [w1 dup]; simpl in F.
    destruct dup; [simplify_eq; done|].
    case_bool_decide.
    + simplify_eq; simpl in *; simplify_eq. split_and!; [done| |done].
      unfold join. by rewrite removelast_last.
    + eapply IH in H as (F' & ? & ?); [|unfold join; by rewrite removelast_last|done].
      split_and!; auto. congruence.
Qed.

(** From [counter], the body runs at most [101 - counter] times. *)
Lemma unique_loop_fuel_enough fuel org file_path target_folder base_name
    extension :
  ∀ (counter : nat) new_path (iters : nat) w,
    (1 ≤ counter ≤ 100)%nat → (101 - counter ≤ fuel)%nat →
    ∃ w' n,
      unique_loop fuel org file_path target_folder base_name extension
        counter new_path iters w = Some (w', n)
      ∧ (iters ≤ iterations n)%nat
      ∧ (iterations n + counter ≤ iters + 101)%nat
      ∧ (counter ≤ last_counter n ≤ 101)%nat
      ∧ (forced n = true → last_counter n = 101%nat).
Proof.
  induction fuel as [|fuel IH]; intros counter new_path iters w Hc Hf;
    [lia|].
  simpl. destruct (exists_ _ _).
  - destruct (is_exact_duplicate w file_path new_path) as [w1 dup].
    destruct dup.
    + eexists _, _; split; [done|]; simpl. split_and!; (lia || done).
    + case_bool_decide.
      * eexists _, _; split; [done|]; simpl. split_and!; (lia || done).
      * destruct (IH (S counter)
                    (join target_folder
                       (base_name +:+ "_" +:+ pretty counter +:+ extension))
                    (S iters) w1) as (w' & n & E & ? & ? & ? & ?); [lia..|].
        exists w', n. split; [exact E|]. split_and!; (lia || done).
  - eexists _, _; split; [done|]; simpl. split_and!; (lia || done).
Qed.

(** More fuel than needed changes nothing. *)
Lemma unique_loop_fuel_mono fuel org file_path target_folder base_name
    extension :
  ∀ fuel' counter new_path iters w r,
    unique_loop fuel org file_path target_folder base_name extension
      counter new_path iters w = Some r →
    fuel ≤ fuel' →
    unique_loop fuel' org file_path target_folder base_name extension
      counter new_path iters w = Some r.
Proof.
  induction fuel as [|fuel IH]; intros fuel' counter new_path iters w r H Hf.
  - simpl in H. destruct (exists_ _ _) eqn:E; [done|].
    destruct fuel'; simpl; by rewrite E.
  - destruct fuel' as [|fuel']; [lia|]. simpl in *.
    destruct (exists_ _ _); [|done].
    destruct (is_exact_duplicate w file_path new_path) as [w1 dup].
    destruct dup; [done|]. case_bool_decide; [done|].
    apply IH; [done | lia].
Qed.

Lemma get_unique_filename_run org file_path target_folder w :
  ∃ w' n,
    get_unique_filename_fuel loop_bound org file_path target_folder w
      = Some (w', n)
    ∧ get_unique_filename org file_path target_folder w = (w', chosen n).
Proof.
  unfold get_unique_filename, get_unique_filename_fuel, loop_bound.
  destruct (split_name (name file_path)) as [base_name extension].
  destruct (unique_loop_fuel_enough 100 org file_path target_folder
              base_name extension 1
              (join target_folder (name file_path)) 0 w)
    as (w' & n & E & _); [lia..|].
  exists w', n. by rewrite E.
Qed.

Lemma is_exact_duplicate_size_differs w file1 file2 :
  size_differs (fs w) file1 file2 →
  is_exact_duplicate w file1 file2 = (w, false).
Proof.
  intros (s1 & s2 & E1 & E2 & Hne). unfold is_exact_duplicate.
  rewrite E1, E2. by rewrite bool_decide_eq_true_2.
Qed.

Lemma size_differs_exists f a b : size_differs f a b → exists_ f b = true.
Proof.
  intros (s1 & s2 & _ & E & _). apply bool_decide_eq_true.
  destruct (f !! b); [eauto | done].
Qed.

(** With every numeric name up to [base_99] taken by a file of another
    size, the loop runs its body until [counter] is 101 and returns the
    timestamp name, whatever lies at that name. *)
Lemma unique_loop_storm org file_path target_folder base_name extension w :
  (∀ k, 1 ≤ k ≤ 99 →
     size_differs (fs w) file_path
       (join target_folder (base_name +:+ "_" +:+ pretty k +:+ extension))) →
  ∀ fuel counter new_path iters,
    1 ≤ counter ≤ 100 → 101 - counter ≤ fuel →
    size_differs (fs w) file_path new_path →
    unique_loop fuel org file_path target_folder base_name extension
      counter new_path iters w
    = Some (tick w,
            mkNaming
              (Some (join target_folder
                       (base_name +:+ "_" +:+ strftime_now (clock w)
                        +:+ extension)))
              (iters + 101 - counter) 101 true).
Proof.
  intros Hall.
  induction fuel as [|fuel IH]; intros counter new_path iters Hc Hf Hd; [lia|].
  simpl. rewrite (size_differs_exists _ _ _ Hd).
  rewrite (is_exact_duplicate_size_differs _ _ _ Hd).
  case_bool_decide.
  - assert (counter = 100) as -> by lia.
    repeat f_equal; lia.
  - rewrite IH; [|lia..|apply Hall; lia]. repeat f_equal; lia.
Qed.

(** ** Claims about naming and comparison *)

(** C2: for every source file, target folder and occupancy of that folder,
    the loop of [get_unique_filename] returns, given fuel for 100 runs of
    its body; the body runs at most 101 times, [counter] ends at 101 at
    most, so at most 100 numeric names [base_1] .. [base_100] are built,
    and the timestamp name is used only when [counter] has reached 101. *)
Theorem get_unique_filename_terminates org file_path target_folder w fuel :
  100 ≤ fuel →
  ∃ w' n,
    get_unique_filename_fuel fuel org file_path target_folder w = Some (w', n)
    ∧ get_unique_filename org file_path target_folder w = (w', chosen n)
    ∧ iterations n ≤ 101
    ∧ last_counter n - 1 ≤ 100
    ∧ (forced n = true → last_counter n = 101).
Proof.
  intros Hf.
  destruct (get_unique_filename_run org file_path target_folder w)
    as (w' & n & E & R).
  exists w', n. rewrite R. split_and!; [|done|..].
  - revert E. unfold get_unique_filename_fuel.
    destruct (split_name _) as [b e]. intros E.
    by apply (unique_loop_fuel_mono loop_bound).
  - revert E. unfold get_unique_filename_fuel, loop_bound.
    destruct (split_name _) as [b e]. intros E.
    destruct (unique_loop_fuel_enough 100 org file_path target_folder b e 1
                (join target_folder (name file_path)) 0 w)
      as (w2 & n2 & E2 & ? & ? & ? & ?); [lia..|].
    rewrite E in E2; simplify_eq. lia.
  - revert E. unfold get_unique_filename_fuel, loop_bound.
    destruct (split_name _) as [b e]. intros E.
    destruct (unique_loop_fuel_enough 100 org file_path target_folder b e 1
                (join target_folder (name file_path)) 0 w)
      as (w2 & n2 & E2 & ? & ? & ? & ?); [lia..|].
    rewrite E in E2; simplify_eq. lia.
  - revert E. unfold get_unique_filename_fuel, loop_bound.
    destruct (split_name _) as [b e]. intros E.
    destruct (unique_loop_fuel_enough 100 org file_path target_folder b e 1
                (join target_folder (name file_path)) 0 w)
      as (w2 & n2 & E2 & ? & ? & ? & ?); [lia..|].
    rewrite E in E2; simplify_eq. done.
Qed.

(** The loop body runs 100 times at most: the hundredth run builds
    [base_100], finds [counter] at 101 and replaces the name. *)
Lemma get_unique_filename_iterations org file_path target_folder w w' n :
  get_unique_filename_fuel loop_bound org file_path target_folder w
    = Some (w', n) →
  iterations n ≤ 100.
Proof.
  unfold get_unique_filename_fuel, loop_bound.
  destruct (split_name _) as [b e]. intros E.
  destruct (unique_loop_fuel_enough 100 org file_path target_folder b e 1
              (join target_folder (name file_path)) 0 w)
    as (w2 & n2 & E2 & ? & ? & ? & ?); [lia..|].
  rewrite E in E2; simplify_eq. lia.
Qed.

(** C4, as amended: a path that [get_unique_filename] returns without
    forcing the timestamp name lies in the target folder and is not
    occupied, and the call has left the disk as it was. *)
Theorem unforced_path_is_free org file_path target_folder w w' n p :
  get_unique_filename_fuel loop_bound org file_path target_folder w
    = Some (w', n) →
  chosen n = Some p →
  forced n = false →
  get_unique_filename org file_path target_folder w = (w', Some p)
  ∧ removelast p = target_folder
  ∧ fs w' !! p = None
  ∧ fs w' = fs w.
Proof.
  intros E Hp Hf.
  destruct (get_unique_filename_run org file_path target_folder w)
    as (w2 & n2 & E2 & R).
  rewrite E in E2; simplify_eq. rewrite R, Hp.
  revert E. unfold get_unique_filename_fuel.
  destruct (split_name _) as [b e]. intros E.
  eapply unique_loop_chosen in E as (F & D & N);
    [|unfold join; by rewrite removelast_last|exact Hp].
  split_and!; auto.
Qed.

Lemma hash_fails_coherent w f :
  cache_coherent w → (get_file_hash w f).2 = EmptyString → hash_fails w f.
Proof. intros Hc H. split; [done|]. intros h Hh. by rewrite <-(Hc f h Hh). Qed.

Lemma cached_hash_lookup w f q h :
  hash_cache (cached_hash w f).1 !! q = Some h →
  hash_cache w !! q = Some h ∨ (q = f ∧ h = (get_file_hash w f).2).
Proof.
  unfold cached_hash. destruct (hash_cache w !! f) as [h'|]; simpl; [auto|].
  pose proof (get_file_hash_world w f) as Hw.
  destruct (get_file_hash w f) as [w1 h1]; simpl in Hw; subst w1; simpl.
  rewrite lookup_insert. case_decide; [|auto]. intros [= <-]. by right.
Qed.

Lemma cached_hash_fails w f :
  hash_fails w f → (cached_hash w f).2 = EmptyString.
Proof.
  intros [Hh Hc]. unfold cached_hash.
  destruct (hash_cache w !! f) as [h|] eqn:E; simpl; [by apply Hc|].
  by destruct (get_file_hash w f).
Qed.

(** C5: if hashing either file fails, [is_exact_duplicate] does not
    declare the two files duplicates; two unreadable files are a case of
    it.  With a coherent cache, such as the empty cache of a new run, a
    file fails to hash as soon as [get_file_hash] returns the empty string
    for it ([hash_fails_coherent]). *)
Theorem failed_hash_never_duplicate w file1 file2 :
  hash_fails w file1 ∨ hash_fails w file2 →
  (is_exact_duplicate w file1 file2).2 = false.
Proof.
  intros Hh. unfold is_exact_duplicate.
  destruct (st_size <$> fs w !! file1) as [s1|]; [|done].
  destruct (st_size <$> fs w !! file2) as [s2|]; [|done].
  case_bool_decide; [done|].
  pose proof (cached_hash_spec w file1) as (F1 & _).
  pose proof (cached_hash_fails w file1) as H1.
  pose proof (cached_hash_lookup w file1 file2) as L1.
  destruct (cached_hash w file1) as [w1 h1]; simpl in *.
  pose proof (cached_hash_fails w1 file2) as H2.
  destruct (cached_hash w1 file2) as [w2 h2]; simpl in *.
  destruct Hh as [Hh|Hh].
  - by rewrite (H1 Hh).
  - rewrite H2; [by rewrite andb_false_r|].
    destruct Hh as [Hg Hc]. split.
    + by rewrite (get_file_hash_fs w1 w).
    + intros h [Hw|[-> ->]]%L1; [by apply Hc | done].
Qed.

(** C6: [is_exact_duplicate] looks at the sizes first and, unless both are
    known and equal, answers no and leaves the world as it was: no file is
    opened, nothing is cached.  It answers yes only for equal sizes and
    equal, non-empty hashes; the two hashes it compared are then both in
    the cache. *)
Theorem sizes_first_then_hashes w file1 file2 :
  (¬ (∃ s, st_size <$> fs w !! file1 = Some s
           ∧ st_size <$> fs w !! file2 = Some s) →
   is_exact_duplicate w file1 file2 = (w, false))
  ∧ (cache_coherent w →
     (is_exact_duplicate w file1 file2).2 = true ↔
       (∃ s, st_size <$> fs w !! file1 = Some s
             ∧ st_size <$> fs w !! file2 = Some s)
       ∧ (get_file_hash w file1).2 = (get_file_hash w file2).2
       ∧ (get_file_hash w file1).2 ≠ EmptyString)
  ∧ (∀ w', is_exact_duplicate w file1 file2 = (w', true) →
       ∃ h, h ≠ EmptyString
            ∧ hash_cache w' !! file1 = Some h
            ∧ hash_cache w' !! file2 = Some h).
Proof.
  split_and!.
  - intros Hs. unfold is_exact_duplicate.
    destruct (st_size <$> fs w !! file1) as [s1|]; [|done].
    destruct (st_size <$> fs w !! file2) as [s2|]; [|done].
    case_bool_decide as Hne; [done|]. subst s2. destruct Hs; eauto.
  - apply is_exact_duplicate_value.
  - intros w'. unfold is_exact_duplicate.
    destruct (st_size <$> fs w !! file1) as [s1|]; [|done].
    destruct (st_size <$> fs w !! file2) as [s2|]; [|done].
    case_bool_decide as Hne; [done|].
    pose proof (cached_hash_spec w file1) as H1.
    destruct (cached_hash w file1) as [w1 h1]; simpl in H1.
    pose proof (cached_hash_spec w1 file2) as H2.
    destruct (cached_hash w1 file2) as [w2 h2]; simpl in *.
    destruct H1 as (_ & _ & _ & _ & L1 & _).
    destruct H2 as (_ & _ & _ & M2 & L2 & _).
    intros [= <- E].
    apply andb_true_iff in E as [E Eq]. apply andb_true_iff in E as [T1 _].
    apply String.eqb_eq in Eq; subst h2.
    exists h1. split_and!; [|by eapply lookup_weaken|done].
    unfold truthy in T1. by apply negb_true_iff, String.eqb_neq in T1.
Qed.

(** ** Claims about organize_files *)

Lemma organize_files_absent org w :
  fs w !! [] = None → organize_files org w = (w, Ret false).
Proof.
  intros H. unfold organize_files, exists_.
  rewrite bool_decide_eq_false_2; [done|]. rewrite H. by intros [? ?].
Qed.

(** C9: when the source folder does not exist [organize_files] returns
    [False] at once: the disk, the counters, the cache and the trace of
    I/O calls are what they were. *)
Theorem organize_files_missing_source org w :
  fs w !! [] = None →
  organize_files org w = (w, Ret false).
Proof. apply organize_files_absent. Qed.

(** ** The per-file workflow *)

Lemma unique_loop_events fuel org file_path target_folder base_name extension :
  ∀ counter new_path iters w w' n,
    unique_loop fuel org file_path target_folder base_name extension
      counter new_path iters w = Some (w', n) →
    since (touches file_path target_folder) w w'.
Proof.
  induction fuel as [|fuel IH]; intros counter new_path iters w w' n H.
  - simpl in H. destruct (exists_ _ _); simplify_eq. apply since_refl.
  - simpl in H. destruct (exists_ _ _); [|simplify_eq; apply since_refl].
    pose proof (is_exact_duplicate_spec w file_path new_path)
      as (_ & _ & _ & _ & G & _).
    apply (since_mono _ (touches file_path target_folder)) in G;
      [|by left].
    destruct (is_exact_duplicate w file_path new_path) as [w1 dup]; simpl in G.
    destruct dup.
    + simplify_eq. eapply since_trans; [exact G|].
      destruct (dry_run org); [by apply since_same|]. simpl.
      apply (since_emit _ (Unlinked file_path)); [right; by left|].
      by destruct (unlink _ _).
    + case_bool_decide.
      * simplify_eq. eapply since_trans; [exact G|]. by apply since_same.
      * eapply since_trans; [exact G|]. eapply IH, H.
Qed.

Lemma get_unique_filename_grows org file_path target_folder w :
  grows w (get_unique_filename org file_path target_folder w).1.
Proof.
  destruct (get_unique_filename_run org file_path target_folder w)
    as (w' & n & E & ->). simpl.
  revert E. unfold get_unique_filename_fuel.
  destruct (split_name _). apply unique_loop_grows.
Qed.

Lemma get_unique_filename_preview org file_path target_folder w :
  dry_run org = true →
  preview w (get_unique_filename org file_path target_folder w).1.
Proof.
  intros Hdry.
  destruct (get_unique_filename_run org file_path target_folder w)
    as (w' & n & E & ->). simpl.
  revert E. unfold get_unique_filename_fuel.
  destruct (split_name _). by apply unique_loop_preview.
Qed.

Lemma get_unique_filename_events org file_path target_folder w :
  since (touches file_path target_folder) w
    (get_unique_filename org file_path target_folder w).1.
Proof.
  destruct (get_unique_filename_run org file_path target_folder w)
    as (w' & n & E & ->). simpl.
  revert E. unfold get_unique_filename_fuel.
  destruct (split_name _). apply unique_loop_events.
Qed.

Lemma get_unique_filename_chosen org file_path target_folder w p :
  (get_unique_filename org file_path target_folder w).2 = Some p →
  fs (get_unique_filename org file_path target_folder w).1 = fs w
  ∧ removelast p = target_folder.
Proof.
  destruct (get_unique_filename_run org file_path target_folder w)
    as (w' & n & E & ->). simpl. intros Hp.
  revert E. unfold get_unique_filename_fuel.
  destruct (split_name _). intros E.
  eapply unique_loop_chosen in E as (? & ? & _); eauto.
  unfold join. by rewrite removelast_last.
Qed.

Lemma place_grows org category file_path w :
  grows w (place org category file_path w).1.
Proof.
  unfold place.
  pose proof (get_unique_filename_grows org file_path [category] w) as G.
  destruct (get_unique_filename org file_path [category] w) as [w1 [up|]];
    simpl in G; [|done].
  destruct (check_case_insensitive_duplicate _ _ _); [|done].
  destruct (dry_run org); simpl; [done|].
  eapply grows_trans; [exact G|].
  destruct (shutil_move _ _ _); [case_bool_decide|]; by split.
Qed.

Lemma place_preview org category file_path w :
  dry_run org = true → preview w (place org category file_path w).1.
Proof.
  intros Hdry. unfold place.
  pose proof (get_unique_filename_preview org file_path [category] w Hdry)
    as G.
  destruct (get_unique_filename org file_path [category] w) as [w1 [up|]];
    simpl in G; [|done].
  destruct (check_case_insensitive_duplicate _ _ _); [|done].
  by rewrite Hdry.
Qed.

Lemma place_events org category file_path w :
  since (touches file_path [category]) w (place org category file_path w).1.
Proof.
  unfold place.
  pose proof (get_unique_filename_events org file_path [category] w) as G.
  pose proof (get_unique_filename_chosen org file_path [category] w) as C.
  destruct (get_unique_filename org file_path [category] w) as [w1 [up|]];
    simpl in G, C; [|done].
  destruct (check_case_insensitive_duplicate _ _ _); [|done].
  destruct (dry_run org); simpl; [done|].
  eapply since_trans; [exact G|].
  apply (since_emit _ (Moved file_path up)).
  - right; right. exists up. split; [done|]. by apply C.
  - destruct (shutil_move _ _ _); [case_bool_decide|]; done.
Qed.

Lemma first_category_spec cats file_ext c :
  first_category cats file_ext = Some c ↔
  ∃ pre extensions post,
    cats = pre ++ (c, extensions) :: post
    ∧ file_ext ∈ extensions
    ∧ Forall (λ c', file_ext ∉ c'.2) pre.
Proof.
  unfold first_category. induction cats as [|[c0 e0] cats IH]; simpl.
  - split; [done|]. intros (pre & ? & ? & E & _). by destruct pre.
  - case_bool_decide as Hin; simpl.
    + split.
      * intros [= <-]. exists [], e0, cats. by split_and!.
      * intros (pre & e & post & E & He & Hpre).
        destruct pre as [|[c1 e1] pre]; simplify_eq/=; [done|].
        by apply Forall_cons in Hpre as [? _].
    + rewrite IH. split.
      * intros (pre & e & post & -> & He & Hpre).
        exists ((c0, e0) :: pre), e, post. split_and!; [done..|].
        by constructor.
      * intros (pre & e & post & E & He & Hpre).
        destruct pre as [|[c1 e1] pre]; simplify_eq/=; [done|].
        apply Forall_cons in Hpre as [_ ?]. by exists pre, e, post.
Qed.

Lemma process_loop_first org cats file_ext file_path w :
  process_loop org cats file_ext file_path w
  = match first_category cats file_ext with
    | Some category =>
        match place org category file_path w with
        | (w', Ret _) => (w', Ret true)
        | (w', Exc) => (w', Exc)
        end
    | None => (w, Ret false)
    end.
Proof.
  unfold first_category. induction cats as [|[c0 e0] cats IH]; simpl; [done|].
  case_bool_decide; simpl; [done | exact IH].
Qed.

Lemma process_file_first org w file_path :
  process_file org w file_path
  = match first_category (categories org) (lower (suffix file_path)) with
    | Some category => place org category file_path w
    | None => (set_stats (incr_skipped (stats w)) w, Ret ())
    end.
Proof.
  unfold process_file. rewrite process_loop_first.
  destruct (first_category _ _) as [c|]; [|done].
  by destruct (place org c file_path w) as [w' [[]|]].
Qed.

Lemma process_file_grows org w file_path :
  grows w (process_file org w file_path).1.
Proof.
  rewrite process_file_first. destruct (first_category _ _).
  - apply place_grows.
  - by split.
Qed.

Lemma process_file_preview org w file_path :
  dry_run org = true → preview w (process_file org w file_path).1.
Proof.
  intros Hdry. rewrite process_file_first. destruct (first_category _ _).
  - by apply place_preview.
  - unfold preview; simpl. split_and!; auto using only_hashed_same.
Qed.

Lemma process_files_grows org files :
  ∀ w, grows w (process_files org files w).1.
Proof.
  induction files as [|f files IH]; intros w; simpl; [apply grows_refl|].
  pose proof (process_file_grows org w f) as G.
  destruct (process_file org w f) as [w' [[]|]]; simpl in G; [|done].
  eapply grows_trans; [exact G | apply IH].
Qed.

Lemma process_files_preview org files :
  dry_run org = true → ∀ w, preview w (process_files org files w).1.
Proof.
  intros Hdry.
  induction files as [|f files IH]; intros w; simpl; [apply preview_refl|].
  pose proof (process_file_preview org w f Hdry) as G.
  destruct (process_file org w f) as [w' [[]|]]; simpl in G; [|done].
  eapply preview_trans; [exact G | apply IH].
Qed.

(** ** Category folders and the snapshot *)

Lemma adds_dirs_refl f : adds_dirs f f.
Proof. split; [done | auto]. Qed.

Lemma adds_dirs_trans f1 f2 f3 :
  adds_dirs f1 f2 → adds_dirs f2 f3 → adds_dirs f1 f3.
Proof.
  intros [S1 B1] [S2 B2]. split; [by etrans|].
  intros q n H. destruct (B2 q n H) as [H2|?]; auto.
Qed.

Lemma adds_dirs_insert f q s m :
  f !! q = None → adds_dirs f (<[q := Dir s m]> f).
Proof.
  intros Hq. split; [by apply insert_subseteq|].
  intros q' n. rewrite lookup_insert. case_decide; [|auto].
  intros [= <-]. by right.
Qed.

Lemma foldl_mkdir_step_None now l : foldl (mkdir_step now) None l = None.
Proof. by induction l. Qed.

Lemma mkdir_parents_adds f p now f' :
  mkdir_parents f p now = Some f' → adds_dirs f f'.
Proof.
  unfold mkdir_parents. generalize (prefixes p). intros l. revert f.
  induction l as [|q l IH]; intros f; simpl.
  - intros [= <-]. apply adds_dirs_refl.
  - destruct (f !! q) as [[| ]|] eqn:E.
    + by rewrite foldl_mkdir_step_None.
    + apply IH.
    + intros H%IH. eapply adds_dirs_trans; [|exact H].
      by apply adds_dirs_insert.
Qed.

Lemma mkdir_parents_category f category now s m :
  f !! [] = Some (Dir s m) → f !! [category] = None →
  mkdir_parents f [category] now = Some (<[[category] := Dir dir_size now]> f).
Proof.
  intros H0 H1. unfold mkdir_parents, prefixes. simpl.
  rewrite H0. simpl. by rewrite H1.
Qed.

Lemma create_folders_spec org cats :
  ∀ w,
    let r := create_folders org cats w in
    stats r.1 = stats w ∧ hash_cache r.1 = hash_cache w
    ∧ adds_dirs (fs w) (fs r.1)
    ∧ since making_dirs w r.1
    ∧ (dry_run org = true → r = (w, Ret ()))
    ∧ ((∃ s m, fs w !! [] = Some (Dir s m)) → r.2 = Ret ()).
Proof.
  induction cats as [|c cats IH]; intros w; simpl.
  { split_and!; auto using adds_dirs_refl, since_refl. }
  destruct (exists_ (fs w) [c]) eqn:Ex; simpl; [apply IH|].
  destruct (dry_run org) eqn:Hdry; simpl; [apply IH|].
  destruct (mkdir_parents (fs w) [c] (time_now (clock w))) as [f'|] eqn:M.
  - pose proof (mkdir_parents_adds _ _ _ _ M) as A.
    specialize (IH (set_fs f' (emit (MadeDir [c]) w))).
    destruct IH as (S & C & A' & T & _ & R); simpl in *.
    split_and!; auto.
    + by eapply adds_dirs_trans.
    + eapply since_trans; [|exact T].
      apply (since_emit _ (MadeDir [c])); [by exists [c] | done].
    + done.
    + intros (s & m & H0). apply R. exists s, m.
      destruct A as [Sub _]. by eapply lookup_weaken.
  - simpl. split_and!; auto using adds_dirs_refl.
    + apply (since_emit _ (MadeDir [c])); [by exists [c] | done].
    + done.
    + intros (s & m & H0). apply bool_decide_eq_false in Ex.
      rewrite (mkdir_parents_category _ _ _ s m) in M; [done..|].
      by apply eq_None_not_Some.
Qed.

Lemma to_process_spec p n :
  to_process (p, n) = true ↔
  is_file n = true ∧ startswith_dot (name p) = false ∧ suffix p ≠ ".log".
Proof.
  unfold to_process; simpl.
  rewrite !andb_true_iff, !negb_true_iff, String.eqb_neq. tauto.
Qed.

Lemma iterdir_NoDup f dir entries :
  iterdir f dir = Some entries → NoDup entries.*1.
Proof.
  unfold iterdir. destruct (f !! dir) as [[|]|]; try done. intros [= <-].
  apply (sublist_NoDup _ (scandir (map_to_list f)).*1).
  - rewrite scandir_perm. apply NoDup_fst_map_to_list.
  - apply fmap_sublist, sublist_filter.
Qed.

Lemma iterdir_elem f dir entries p n :
  iterdir f dir = Some entries →
  (p, n) ∈ entries ↔ f !! p = Some n ∧ child_of dir p = true.
Proof.
  unfold iterdir. destruct (f !! dir) as [[|]|]; try done. intros [= <-].
  rewrite list_elem_of_filter, scandir_perm, elem_of_map_to_list. simpl.
  rewrite Is_true_true. tauto.
Qed.

Lemma files_to_process_spec f s m :
  f !! [] = Some (Dir s m) →
  ∃ files,
    files_to_process f = Some files ∧ NoDup files
    ∧ ∀ p, p ∈ files ↔ collected f p.
Proof.
  intros H0. unfold files_to_process.
  destruct (iterdir f []) as [entries|] eqn:E;
    [|unfold iterdir in E; by rewrite H0 in E].
  eexists; split; [done|]. split.
  - eapply sublist_NoDup; [by eapply iterdir_NoDup|].
    apply fmap_sublist, sublist_filter.
  - intros p. rewrite list_elem_of_fmap. split.
    + intros ([p' n] & -> & [Hq Hin]%list_elem_of_filter). simpl.
      apply Is_true_true, to_process_spec in Hq.
      apply (iterdir_elem _ _ _ _ _ E) in Hin as [? ?].
      exists n. tauto.
    + intros (n & Hn & Hc & Hq). exists (p, n). split; [done|].
      apply list_elem_of_filter. split.
      * by apply Is_true_true, to_process_spec.
      * by apply (iterdir_elem _ _ _ _ _ E).
Qed.

Lemma collected_adds_dirs f f' p :
  adds_dirs f f' → collected f p ↔ collected f' p.
Proof.
  intros [Sub Back]. split; intros (n & Hn & Hrest).
  - exists n. split; [by eapply lookup_weaken | done].
  - exists n. split; [|done].
    destruct (Back p n Hn) as [?|Hd]; [done|].
    destruct Hrest as (_ & Hf & _). congruence.
Qed.

Lemma organize_files_cache org w :
  hash_cache w ⊆ hash_cache (organize_files org w).1.
Proof.
  unfold organize_files. destruct (exists_ (fs w) []); simpl; [|done].
  unfold create_category_folders.
  pose proof (create_folders_spec org (categories org).*1 w)
    as (_ & C & _).
  destruct (create_folders org _ w) as [w1 [[]|]]; simpl in *;
    [|by rewrite C].
  destruct (files_to_process (fs w1)) as [files|]; simpl; [|by rewrite C].
  pose proof (process_files_grows org files
                (set_stats (set_processed (length files) (stats w1)) w1))
    as [G _].
  destruct (process_files _ _ _) as [w3 [[]|]]; simpl in *;
    by rewrite C in G.
Qed.

(** What [organize_files] does once the source folder is known to be a
    directory. *)
Lemma organize_files_dir org w s m :
  fs w !! [] = Some (Dir s m) →
  ∃ w1 files,
    create_category_folders org w = (w1, Ret ())
    ∧ stats w1 = stats w
    ∧ adds_dirs (fs w) (fs w1)
    ∧ (dry_run org = true → w1 = w)
    ∧ files_to_process (fs w1) = Some files
    ∧ NoDup files
    ∧ (∀ p, p ∈ files ↔ collected (fs w) p)
    ∧ organize_files org w
      = match process_files org files
                (set_stats (set_processed (length files) (stats w1)) w1) with
        | (w3, Ret _) => (w3, Ret true)
        | (w3, Exc) => (w3, Exc)
        end.
Proof.
  intros H0. unfold organize_files, create_category_folders.
  pose proof (create_folders_spec org (categories org).*1 w)
    as (S & _ & A & _ & D & R).
  destruct (create_folders org _ w) as [w1 r]; simpl in *.
  rewrite R by eauto.
  destruct (files_to_process_spec (fs w1) s m) as (files & E & N & M).
  { destruct A as [Sub _]. by eapply lookup_weaken. }
  exists w1, files. split_and!; auto.
  - intros Hd. by injection (D Hd).
  - intros p. rewrite M. symmetry. by apply collected_adds_dirs.
  - unfold exists_. rewrite bool_decide_eq_true_2 by (rewrite H0; eauto).
    simpl. by rewrite E.
Qed.

(** ** Claims about the run as a whole *)

(** A dry run of [organize_files] changes nothing on disk and completes no
    action. *)
Lemma organize_files_dry org w :
  dry_run org = true →
  let wd := (organize_files org w).1 in
  fs wd = fs w ∧ only_hashed w wd
  ∧ moved (stats wd) = moved (stats w)
  ∧ renamed (stats wd) = renamed (stats w)
  ∧ duplicates_removed (stats wd) = duplicates_removed (stats w)
  ∧ errors (stats wd) = errors (stats w).
Proof.
  intros Hdry. unfold organize_files.
  destruct (exists_ (fs w) []); simpl;
    [|split_and!; auto using only_hashed_refl].
  unfold create_category_folders.
  pose proof (create_folders_spec org (categories org).*1 w)
    as (_ & _ & _ & _ & D & _).
  rewrite (D Hdry).
  destruct (files_to_process (fs w)) as [files|]; simpl;
    [|split_and!; auto using only_hashed_refl].
  pose proof (process_files_preview org files Hdry
                (set_stats (set_processed (length files) (stats w)) w))
    as (F & T & _ & ? & ? & ? & ?).
  destruct (process_files _ _ _) as [w3 [[]|]]; simpl in *;
    split_and!; auto;
    (eapply only_hashed_trans; [|exact T]; by apply only_hashed_same).
Qed.

(** ** The files that no category claims *)

Lemma unique_loop_skipped fuel org file_path target_folder base_name
    extension :
  ∀ counter new_path iters w w' n,
    unique_loop fuel org file_path target_folder base_name extension
      counter new_path iters w = Some (w', n) →
    skipped (stats w') = skipped (stats w).
Proof.
  induction fuel as [|fuel IH]; intros counter new_path iters w w' n H.
  - simpl in H. destruct (exists_ _ _); by simplify_eq.
  - simpl in H. destruct (exists_ _ _); [|by simplify_eq].
    pose proof (is_exact_duplicate_spec w file_path new_path)
      as (_ & S & _).
    destruct (is_exact_duplicate w file_path new_path) as [w1 dup];
      simpl in S.
    destruct dup.
    + simplify_eq. destruct (dry_run org); simpl; [by rewrite S|].
      destruct (unlink _ _); simpl; by rewrite S.
    + case_bool_decide.
      * simplify_eq. simpl. by rewrite S.
      * rewrite <-S. eapply IH, H.
Qed.

Lemma place_skipped org category file_path w :
  skipped (stats (place org category file_path w).1) = skipped (stats w).
Proof.
  unfold place.
  destruct (get_unique_filename_run org file_path [category] w)
    as (w1 & n & E & ->).
  assert (skipped (stats w1) = skipped (stats w)) as S.
  { revert E. unfold get_unique_filename_fuel.
    destruct (split_name _). apply unique_loop_skipped. }
  destruct (chosen n) as [up|]; [|done].
  destruct (check_case_insensitive_duplicate _ _ _); [|done].
  destruct (dry_run org); simpl; [done|].
  destruct (shutil_move _ _ _); [case_bool_decide|]; simpl; done.
Qed.

(** A run of [process_files] that returns has counted as skipped the
    files of its list that no category claims, and no other. *)
Lemma process_files_skipped org files :
  ∀ w w',
    process_files org files w = (w', Ret ()) →
    skipped (stats w')
    = skipped (stats w)
      + length (filter (λ p, first_category (categories org)
                               (lower (suffix p)) = None) files).
Proof.
  induction files as [|p files IH]; intros w w' H; simpl in H.
  { injection H as <-. simpl. lia. }
  rewrite process_file_first in H. rewrite filter_cons.
  destruct (first_category (categories org) (lower (suffix p)))
    as [c|] eqn:Ec.
  - pose proof (place_skipped org c p w) as S.
    destruct (place org c p w) as [w1 [[]|]]; [|done].
    rewrite decide_False by done. rewrite (IH _ _ H). simpl in S. lia.
  - rewrite decide_True by done. rewrite (IH _ _ H). simpl. lia.
Qed.

(** When [organize_files] returns [True], the files it has counted as
    skipped are the collected files that no category claims. *)
Lemma organize_files_skipped org w w' :
  organize_files org w = (w', Ret true) →
  ∃ files,
    NoDup files
    ∧ (∀ p, p ∈ files ↔ collected (fs w) p)
    ∧ skipped (stats w')
      = skipped (stats w)
        + length (filter (λ p, first_category (categories org)
                                 (lower (suffix p)) = None) files).
Proof.
  intros H. destruct (fs w !! []) as [[|s m]|] eqn:H0.
  - exfalso. revert H. unfold organize_files.
    destruct (exists_ (fs w) []); simpl; [|done].
    unfold create_category_folders.
    pose proof (create_folders_spec org (categories org).*1 w)
      as (_ & _ & [Sub _] & _).
    destruct (create_folders org _ w) as [w1 [[]|]]; simpl in *; [|done].
    unfold files_to_process, iterdir.
    by rewrite (lookup_weaken _ _ _ _ H0 Sub).
  - destruct (organize_files_dir org w s m H0)
      as (w1 & files & _ & S1 & _ & _ & _ & Nd & Md & E).
    rewrite E in H. exists files. split_and!; [done..|].
    destruct (process_files org files _) as [w3 [[]|]] eqn:R; [|done].
    injection H as <-. rewrite (process_files_skipped _ _ _ _ R). simpl.
    by rewrite S1.
  - by rewrite organize_files_absent in H.
Qed.

(** C1, as amended: a dry run of [organize_files] leaves the disk as it
    was, makes no I/O call other than reading files for hashing, writes no
    report, and counts the same number of processed files as the real run
    from the same world; when both runs return [True] they have also
    counted the same number of skipped files; [moved], [renamed],
    [duplicates_removed] and [errors] stay what they were before the
    run. *)
Theorem dry_run_preview cats w :
  let dry := mkOrganizer true cats in
  let real := mkOrganizer false cats in
  let wd := (organize_files dry w).1 in
  let wr := (organize_files real w).1 in
  fs wd = fs w
  ∧ only_hashed w wd
  ∧ fs (save_report dry None wd).1 = fs w
  ∧ processed (stats wd) = processed (stats wr)
  ∧ ((organize_files dry w).2 = Ret true →
     (organize_files real w).2 = Ret true →
     skipped (stats wd) = skipped (stats wr))
  ∧ moved (stats wd) = moved (stats w)
  ∧ renamed (stats wd) = renamed (stats w)
  ∧ duplicates_removed (stats wd) = duplicates_removed (stats w)
  ∧ errors (stats wd) = errors (stats w).
Proof.
  intros dry real wd wr.
  pose proof (organize_files_dry dry w eq_refl) as Hfs.
  fold wd in Hfs. simpl in Hfs.
  destruct Hfs as (F & T & M & R & D & E).
  split_and!; [done|done|done| | |done..].
  - subst wd wr. destruct (fs w !! []) as [[|s m]|] eqn:H0.
    + (* the source folder is a regular file: both runs raise *)
      assert (∀ org, processed (stats (organize_files org w).1)
                     = processed (stats w)) as Hp.
      { intros org. unfold organize_files.
        destruct (exists_ (fs w) []); simpl; [|done].
        unfold create_category_folders.
        pose proof (create_folders_spec org (categories org).*1 w)
          as (S & _ & [Sub _] & _).
        destruct (create_folders org _ w) as [w1 [[]|]]; simpl in *;
          [|by rewrite S].
        unfold files_to_process, iterdir.
        rewrite (lookup_weaken _ _ _ _ H0 Sub). simpl. by rewrite S. }
      by rewrite !Hp.
    + destruct (organize_files_dir dry w s m H0)
        as (w1 & fd & _ & _ & _ & W1 & _ & Nd & Md & ->).
      destruct (organize_files_dir real w s m H0)
        as (w2 & fr & _ & _ & _ & _ & _ & Nr & Mr & ->).
      pose proof (process_files_grows dry fd
        (set_stats (set_processed (length fd) (stats w1)) w1)) as [_ Pd].
      pose proof (process_files_grows real fr
        (set_stats (set_processed (length fr) (stats w2)) w2)) as [_ Pr].
      destruct (process_files dry _ _) as [wd [[]|]];
        destruct (process_files real _ _) as [wr [[]|]]; simpl in *;
        rewrite Pd, Pr; apply Permutation_length, NoDup_Permutation; auto;
        intros p; by rewrite Md, Mr.
    + by rewrite !organize_files_absent.
  - subst wd wr. intros Hd Hr.
    destruct (organize_files dry w) as [wd rd] eqn:Ed.
    destruct (organize_files real w) as [wr rr] eqn:Er.
    cbn [fst snd] in *. subst rd rr.
    destruct (organize_files_skipped _ _ _ Ed) as (fd & Nd & Md & ->).
    destruct (organize_files_skipped _ _ _ Er) as (fr & Nr & Mr & ->).
    cbn [categories]. f_equal. apply Permutation_length.
    assert (fd ≡ₚ fr) as ->; [|done].
    apply NoDup_Permutation; [done..|]. intros p. by rewrite Md, Mr.
Qed.

(** C8, as amended: once the category folders are there,
    [organize_files] lists the source folder once; the list holds each
    regular file that lay directly in the source folder before the run,
    whose name does not start with a dot and whose suffix is not [.log],
    and nothing else; the report of an earlier run is such a file.
    [process_file] is then run on the members of this list, one after the
    other, and the folder is not listed again. *)
Theorem snapshot_before_processing org w s m :
  fs w !! [] = Some (Dir s m) →
  ∃ w1 files,
    create_category_folders org w = (w1, Ret ())
    ∧ files_to_process (fs w1) = Some files
    ∧ NoDup files
    ∧ (∀ p, p ∈ files ↔ collected (fs w) p)
    ∧ organize_files org w
      = match process_files org files
                (set_stats (set_processed (length files) (stats w1)) w1) with
        | (w3, Ret _) => (w3, Ret true)
        | (w3, Exc) => (w3, Exc)
        end.
Proof.
  intros H0.
  destruct (organize_files_dir org w s m H0)
    as (w1 & files & ? & _ & _ & _ & ? & ? & ? & ?).
  by exists w1, files.
Qed.

(** ** Sorting a group by modification time *)

Lemma insert_by_mtime_perm x l : insert_by_mtime x l ≡ₚ x :: l.
Proof.
  induction l as [|y l IH]; simpl; [done|].
  case_bool_decide; [done|]. rewrite IH. apply perm_swap.
Qed.

Lemma sort_by_mtime_perm l : sort_by_mtime l ≡ₚ l.
Proof.
  induction l as [|x l IH]; simpl; [done|].
  by rewrite insert_by_mtime_perm, IH.
Qed.

Lemma insert_by_mtime_sorted x l :
  StronglySorted older l → StronglySorted older (insert_by_mtime x l).
Proof.
  induction 1 as [|y l Hs IH Hy]; simpl.
  - repeat constructor.
  - case_bool_decide as Hxy.
    + constructor; [by constructor|]. constructor; [done|].
      eapply Forall_impl; [exact Hy|]. unfold older in *. intros z ?. lia.
    + constructor; [exact IH|]. rewrite insert_by_mtime_perm.
      constructor; [unfold older; lia | done].
Qed.

Lemma sort_by_mtime_sorted l : StronglySorted older (sort_by_mtime l).
Proof.
  induction l as [|x l IH]; simpl; [constructor|].
  by apply insert_by_mtime_sorted.
Qed.

Lemma keep_order_perm keep_oldest l : keep_order keep_oldest l ≡ₚ l.
Proof.
  unfold keep_order. destruct keep_oldest; simpl.
  - apply sort_by_mtime_perm.
  - rewrite <-Permutation_rev. apply sort_by_mtime_perm.
Qed.

(** The head of the order is the oldest entry, or the newest when the
    order was reversed. *)
Lemma keep_order_head keep_oldest l keep others x :
  keep_order keep_oldest l = keep :: others → x ∈ l →
  if keep_oldest then older keep x else older x keep.
Proof.
  intros E Hx. pose proof (sort_by_mtime_sorted l) as Hs.
  rewrite <-(sort_by_mtime_perm l) in Hx.
  unfold keep_order in E. destruct keep_oldest; simpl in E.
  - rewrite E in Hs, Hx. apply StronglySorted_inv in Hs as [_ Hall].
    apply elem_of_cons in Hx as [->|Hx]; [unfold older; lia|].
    by eapply Forall_forall in Hall.
  - apply (f_equal (@rev _)) in E. rewrite rev_involutive in E. simpl in E.
    rewrite E in Hs, Hx.
    apply elem_of_app in Hx as [Hx|Hx%list_elem_of_singleton].
    + eapply StronglySorted_app_1_elem_of; [exact Hs|exact Hx|].
      apply list_elem_of_here.
    + subst x. unfold older; lia.
Qed.

Lemma with_mtime_fst f files l : with_mtime f files = Some l → l.*1 = files.
Proof.
  revert l. induction files as [|p files IH]; intros l; simpl.
  - by intros [= <-].
  - destruct (f !! p) as [n|]; [|done].
    destruct (with_mtime f files) as [l'|]; [|done].
    intros [= <-]. simpl. f_equal. by apply IH.
Qed.

Lemma with_mtime_elem f files l x :
  with_mtime f files = Some l → x ∈ l →
  ∃ n, f !! x.1 = Some n ∧ x.2 = st_mtime n.
Proof.
  revert l. induction files as [|p files IH]; intros l; simpl.
  - intros [= <-] ?%elem_of_nil. done.
  - destruct (f !! p) as [n|] eqn:E; [|done].
    destruct (with_mtime f files) as [l'|]; [|done].
    intros [= <-] [->|Hx]%elem_of_cons; eauto.
Qed.

Lemma with_mtime_is_Some f files :
  (∀ p, p ∈ files → is_Some (f !! p)) → is_Some (with_mtime f files).
Proof.
  induction files as [|p files IH]; intros H; simpl; [eauto|].
  destruct (H p) as [n ->]; [apply list_elem_of_here|].
  destruct IH as [l ->]; [|eauto].
  intros q Hq. by apply H, list_elem_of_further.
Qed.

Lemma with_mtime_ext f1 f2 files :
  (∀ p, p ∈ files → f1 !! p = f2 !! p) →
  with_mtime f1 files = with_mtime f2 files.
Proof.
  induction files as [|p files IH]; intros H; simpl; [done|].
  rewrite (H p) by apply list_elem_of_here.
  rewrite IH; [done|]. intros q Hq. by apply H, list_elem_of_further.
Qed.

Lemma group_plan_ext keep_oldest f1 f2 files :
  (∀ p, p ∈ files → f1 !! p = f2 !! p) →
  group_plan keep_oldest f1 files = group_plan keep_oldest f2 files.
Proof. intros H. unfold group_plan. by rewrite (with_mtime_ext f1 f2). Qed.

Lemma group_plan_perm keep_oldest f files keep others :
  group_plan keep_oldest f files = Some (keep, others) →
  keep :: others ≡ₚ files.
Proof.
  unfold group_plan. destruct (with_mtime f files) as [l|] eqn:E; [|done].
  destruct (keep_order keep_oldest l) as [|k os] eqn:K; [done|].
  intros [= <- <-]. rewrite <-(with_mtime_fst _ _ _ E).
  rewrite <-(keep_order_perm keep_oldest l), K. done.
Qed.

Lemma group_plan_is_Some keep_oldest f files :
  files ≠ [] → (∀ p, p ∈ files → is_Some (f !! p)) →
  is_Some (group_plan keep_oldest f files).
Proof.
  intros Hne H. unfold group_plan.
  destruct (with_mtime_is_Some f files H) as [l E]. rewrite E.
  destruct (keep_order keep_oldest l) as [|k os] eqn:K; [|eauto].
  apply with_mtime_fst in E.
  pose proof (keep_order_perm keep_oldest l) as Hp. rewrite K in Hp.
  apply Permutation_nil in Hp. subst l. done.
Qed.

(** The kept file has the least modification time of its group, or the
    greatest when the newest copy is kept. *)
Lemma group_plan_extreme keep_oldest f files keep others q :
  group_plan keep_oldest f files = Some (keep, others) → q ∈ files →
  ∃ nk nq,
    f !! keep = Some nk ∧ f !! q = Some nq
    ∧ if keep_oldest then (st_mtime nk ≤ st_mtime nq)%Z
      else (st_mtime nq ≤ st_mtime nk)%Z.
Proof.
  unfold group_plan. destruct (with_mtime f files) as [l|] eqn:E; [|done].
  destruct (keep_order keep_oldest l) as [|k os] eqn:K; [done|].
  intros [= <- <-] Hq.
  rewrite <-(with_mtime_fst _ _ _ E) in Hq.
  apply list_elem_of_fmap in Hq as (x & -> & Hx).
  assert (k ∈ l) as Hk.
  { rewrite <-(keep_order_perm keep_oldest l), K. apply list_elem_of_here. }
  destruct (with_mtime_elem _ _ _ _ E Hk) as (nk & Lk & Mk).
  destruct (with_mtime_elem _ _ _ _ E Hx) as (nq & Lq & Mq).
  exists nk, nq. split_and!; [done..|].
  pose proof (keep_order_head keep_oldest l k os x K Hx) as H.
  unfold older in H. rewrite Mk, Mq in H. exact H.
Qed.

(** ** Removing the members of a group *)

Lemma bind_ext_elem {A B : Type} (f g : A → list B) (l : list A) :
  (∀ x, x ∈ l → f x = g x) → l ≫= f = l ≫= g.
Proof.
  induction l as [|x l IH]; intros H; [done|].
  rewrite !bind_cons, (H x) by apply list_elem_of_here.
  rewrite IH; [done|]. intros y Hy. by apply H, list_elem_of_further.
Qed.

Lemma delete_rest_spec org others :
  ∀ n w,
    let r := delete_rest org others n w in
    stats r.1 = stats w ∧ hash_cache r.1 = hash_cache w
    ∧ (∀ q, q ∉ others.*1 → fs r.1 !! q = fs w !! q)
    ∧ (dry_run org = true → fs r.1 = fs w)
    ∧ ∃ evs, trace r.1 = evs ++ trace w
             ∧ ∀ e, e ∈ evs ↔
                    dry_run org = false
                    ∧ ∃ p, e = Unlinked p ∧ p ∈ others.*1.
Proof.
  induction others as [|[p m] others IH]; intros n w; simpl.
  { split_and!; auto. exists []. split; [done|]. intros e. split.
    - by intros ?%elem_of_nil.
    - by intros (_ & q & _ & ?%elem_of_nil). }
  destruct (dry_run org) eqn:Hdry; simpl.
  - destruct (IH n w) as (S & C & F & D & evs & T & M).
    split_and!; auto.
    + intros q Hq. apply F. intros ?. apply Hq. by apply list_elem_of_further.
    + exists evs. split; [done|]. intros e. rewrite M. split.
      * by intros [? _].
      * by intros [? _].
  - assert (∀ n2 w2,
        stats w2 = stats w → hash_cache w2 = hash_cache w →
        trace w2 = Unlinked p :: trace w →
        (∀ q, q ≠ p → fs w2 !! q = fs w !! q) →
        let r := delete_rest org others n2 w2 in
        stats r.1 = stats w ∧ hash_cache r.1 = hash_cache w
        ∧ (∀ q, q ∉ p :: others.*1 → fs r.1 !! q = fs w !! q)
        ∧ (false = true → fs r.1 = fs w)
        ∧ ∃ evs, trace r.1 = evs ++ trace w
                 ∧ ∀ e, e ∈ evs ↔
                        false = false
                        ∧ ∃ q, e = Unlinked q ∧ q ∈ p :: others.*1) as Hstep.
    { intros n2 w2 S2 C2 T2 F2.
      destruct (IH n2 w2) as (S & C & F & _ & evs & T & M).
      split_and!; [congruence|congruence| |done|].
      - intros q Hq. apply not_elem_of_cons in Hq as [Hqp Hq].
        rewrite F by done. by apply F2.
      - exists (evs ++ [Unlinked p]). split.
        + rewrite T, T2, <-(assoc_L _). done.
        + intros e. rewrite elem_of_app, M, list_elem_of_singleton. split.
          * intros [(_ & q & -> & Hq)| ->]; (split; [done|]); eexists;
              (split; [done|]);
              [by apply list_elem_of_further | apply list_elem_of_here].
          * intros (_ & q & -> & [->|Hq]%elem_of_cons); [by right|].
            left. split; [done|]. by exists q. }
    unfold unlink. destruct (fs w !! p) as [[d mt rd []|]|] eqn:E;
      apply Hstep; simpl; auto.
    intros q Hq. by rewrite lookup_delete_ne.
Qed.

(** All groups are handled, none of them raises, and the calls made are
    the unlinks of the files that the plans doom. *)
Lemma remove_groups_spec org keep_oldest groups :
  ∀ n w,
    NoDup (groups ≫= snd) →
    (∀ g p, g ∈ groups → p ∈ g.2 → is_Some (fs w !! p)) →
    (∀ g, g ∈ groups → g.2 ≠ []) →
    ∃ w' n',
      remove_groups org keep_oldest groups n w = (w', Ret n')
      ∧ stats w' = stats w ∧ hash_cache w' = hash_cache w
      ∧ (∀ q, q ∉ groups ≫= (λ g, doomed keep_oldest (fs w) g.2) →
              fs w' !! q = fs w !! q)
      ∧ (dry_run org = true → fs w' = fs w)
      ∧ ∃ evs, trace w' = evs ++ trace w
               ∧ ∀ e, e ∈ evs ↔
                      dry_run org = false
                      ∧ ∃ p, e = Unlinked p
                             ∧ p ∈ groups ≫=
                                   (λ g, doomed keep_oldest (fs w) g.2).
Proof.
  induction groups as [|[h files] groups IH]; intros n w Hnd Hex Hne;
    cbn [remove_groups].
  { exists w, n. simpl. split_and!; auto. exists []. split; [done|].
    intros e. split.
    - by intros ?%elem_of_nil.
    - by intros (_ & q & _ & ?%elem_of_nil). }
  rewrite bind_cons in Hnd. simpl in Hnd.
  apply NoDup_app in Hnd as (Hnf & Hdisj & Hnd).
  destruct (group_plan_is_Some keep_oldest (fs w) files) as [[k os] Hplan].
  { apply (Hne (h, files)), list_elem_of_here. }
  { intros p Hp. apply (Hex (h, files)); [apply list_elem_of_here | done]. }
  pose proof (group_plan_perm _ _ _ _ _ Hplan) as Hperm.
  assert (doomed keep_oldest (fs w) files = os) as Hdoomed
    by (unfold doomed; by rewrite Hplan).
  unfold group_plan in Hplan.
  destruct (with_mtime (fs w) files) as [l|]; [|done].
  destruct (keep_order keep_oldest l) as [|k' others]; [done|].
  injection Hplan as <- <-.
  pose proof (delete_rest_spec org others n w) as (S1 & C1 & F1 & D1 & ev1 & T1 & M1).
  destruct (delete_rest org others n w) as [w1 n1]; cbn [fst snd] in *.
  assert (∀ p, p ∈ groups ≫= snd → fs w1 !! p = fs w !! p) as Hsame.
  { intros p Hp. apply F1. intros Hin. apply (Hdisj p); [|done].
    rewrite <-Hperm. by apply list_elem_of_further. }
  assert (∀ g, g ∈ groups → ∀ p, p ∈ g.2 → fs w1 !! p = fs w !! p) as Hsame'.
  { intros g Hg p Hp. apply Hsame, list_elem_of_bind. eauto. }
  destruct (IH n1 w1 Hnd) as (w' & n' & E & S & C & F & D & ev2 & T2 & M2).
  { intros g p Hg Hp. rewrite (Hsame' g Hg p Hp). by eapply Hex;
      [apply list_elem_of_further|]. }
  { intros g Hg. by apply Hne, list_elem_of_further. }
  assert (groups ≫= (λ g, doomed keep_oldest (fs w1) g.2)
          = groups ≫= (λ g, doomed keep_oldest (fs w) g.2)) as Hd.
  { apply bind_ext_elem. intros g Hg. unfold doomed.
    by rewrite (group_plan_ext _ (fs w1) (fs w)) by by apply Hsame'. }
  rewrite Hd in F, M2.
  exists w', n'. rewrite bind_cons. cbn [snd]. rewrite Hdoomed.
  split_and!; [done|congruence|congruence| | |].
  - intros q Hq. apply not_elem_of_app in Hq as [Hq1 Hq2].
    rewrite F by done. by apply F1.
  - intros Hdry. rewrite D, D1; done.
  - exists (ev2 ++ ev1). split; [by rewrite T2, T1, (assoc_L _)|].
    intros e. rewrite elem_of_app, M1, M2. split.
    + intros [(? & p & -> & Hp)|(? & p & -> & Hp)]; (split; [done|]);
        exists p; (split; [done|]); apply elem_of_app; auto.
    + intros (? & p & -> & [Hp|Hp]%elem_of_app); [right|left];
        (split; [done|]); by exists p.
Qed.

(** A kept file is in no plan's list of doomed files. *)
Lemma keeper_not_doomed keep_oldest f (groups : list (string * list path)) :
  NoDup (groups ≫= snd) →
  ∀ g keep others,
    g ∈ groups → group_plan keep_oldest f g.2 = Some (keep, others) →
    keep ∉ groups ≫= (λ g, doomed keep_oldest f g.2).
Proof.
  assert (∀ files p, p ∈ doomed keep_oldest f files → p ∈ files) as Hsub.
  { intros files p. unfold doomed.
    destruct (group_plan keep_oldest f files) as [[k os]|] eqn:E;
      [|by intros ?%elem_of_nil].
    intros Hp. rewrite <-(group_plan_perm _ _ _ _ _ E).
    by apply list_elem_of_further. }
  induction groups as [|g0 groups IH]; intros Hnd g keep others Hg Hplan.
  { by apply elem_of_nil in Hg. }
  rewrite bind_cons in Hnd. apply NoDup_app in Hnd as (Hnf & Hdisj & Hnd).
  rewrite bind_cons. apply not_elem_of_app.
  pose proof (group_plan_perm _ _ _ _ _ Hplan) as Hperm.
  apply elem_of_cons in Hg as [->|Hg].
  - split.
    + unfold doomed. rewrite Hplan. rewrite <-Hperm in Hnf.
      by apply NoDup_cons in Hnf as [? _].
    + intros (g' & Hk & Hg')%list_elem_of_bind.
      apply (Hdisj keep).
      * rewrite <-Hperm. apply list_elem_of_here.
      * apply list_elem_of_bind. exists g'. split; [by apply Hsub|done].
  - split; [|by eapply IH].
    intros Hk%Hsub. apply (Hdisj keep Hk).
    apply list_elem_of_bind. exists g. split; [|done].
    rewrite <-Hperm. apply list_elem_of_here.
Qed.

(** ** Grouping by hash *)

Lemma group_add_members h p (d : list (string * list path)) :
  group_add h p d ≫= snd ≡ₚ (d ≫= snd) ++ [p].
Proof.
  induction d as [|[h' files] d IH]; cbn [group_add]; [done|].
  destruct (String.eqb h h').
  - rewrite !bind_cons. cbn [snd]. rewrite <-!(assoc_L _).
    apply Permutation_app_head, Permutation_app_comm.
  - rewrite !bind_cons, IH. by rewrite (assoc_L _).
Qed.

Lemma group_add_nonempty h p (d : list (string * list path)) :
  (∀ g, g ∈ d → g.2 ≠ []) → ∀ g, g ∈ group_add h p d → g.2 ≠ [].
Proof.
  induction d as [|[h' files] d IH]; cbn [group_add]; intros Hd g.
  - by intros ->%list_elem_of_singleton.
  - destruct (String.eqb h h').
    + intros [->|Hg]%elem_of_cons; simpl.
      * by destruct files.
      * by apply Hd, list_elem_of_further.
    + intros [->|Hg]%elem_of_cons.
      * apply Hd, list_elem_of_here.
      * apply IH; [|done]. intros g' Hg'. by apply Hd, list_elem_of_further.
Qed.

Lemma hash_files_spec all_files :
  ∀ duplicates w,
    let r := hash_files all_files duplicates w in
    fs r.1 = fs w ∧ stats r.1 = stats w ∧ hash_cache r.1 = hash_cache w
    ∧ only_hashed w r.1
    ∧ (∃ l, l `sublist_of` all_files
            ∧ r.2 ≫= snd ≡ₚ (duplicates ≫= snd) ++ l)
    ∧ ((∀ g, g ∈ duplicates → g.2 ≠ []) → ∀ g, g ∈ r.2 → g.2 ≠ []).
Proof.
  induction all_files as [|p files IH]; intros d w; cbn [hash_files].
  { cbn [fst snd]. split_and!; auto using only_hashed_refl.
    exists []. by rewrite (right_id_L [] _). }
  pose proof (get_file_hash_world w p) as Hw.
  destruct (get_file_hash w p) as [w1 h]; simpl in Hw; subst w1.
  assert (only_hashed w (emit (Hashed p) w)) as T0.
  { apply (since_emit _ (Hashed p)); [by exists p | done]. }
  destruct (truthy h).
  - destruct (IH (group_add h p d) (emit (Hashed p) w))
      as (F & S & C & T & (l & Hl & Hp) & N).
    split_and!; auto.
    + by eapply only_hashed_trans.
    + exists (p :: l). split; [by constructor|].
      rewrite Hp, group_add_members, <-(assoc_L _). done.
    + intros Hd. apply N. by apply group_add_nonempty.
  - destruct (IH d (emit (Hashed p) w))
      as (F & S & C & T & (l & Hl & Hp) & N).
    split_and!; auto.
    + by eapply only_hashed_trans.
    + exists l. split; [by constructor|done].
Qed.

(** The recursive search never raises; it leaves the disk, the counters
    and the cache alone; its groups are disjoint lists of two or more
    existing regular files. *)
Lemma find_all_duplicates_spec w :
  ∃ w1 duplicates,
    find_all_duplicates w true = (w1, Ret duplicates)
    ∧ fs w1 = fs w ∧ stats w1 = stats w ∧ hash_cache w1 = hash_cache w
    ∧ only_hashed w w1
    ∧ NoDup (duplicates ≫= snd)
    ∧ (∀ g p, g ∈ duplicates → p ∈ g.2 →
              ∃ n, fs w !! p = Some n ∧ is_file n = true)
    ∧ (∀ g, g ∈ duplicates → 1 < length g.2).
Proof.
  unfold find_all_duplicates.
  set (all_files := (filter _ (rglob (fs w) [])).*1).
  assert (NoDup all_files) as Hnd.
  { apply (sublist_NoDup _ (scandir (map_to_list (fs w))).*1).
    - rewrite scandir_perm. apply NoDup_fst_map_to_list.
    - apply fmap_sublist. etrans; apply sublist_filter. }
  assert (∀ p, p ∈ all_files → ∃ n, fs w !! p = Some n ∧ is_file n = true)
    as Hfile.
  { intros p ([p' n] & -> & [Hv Hin]%list_elem_of_filter)%list_elem_of_fmap.
    apply list_elem_of_filter in Hin as [_ Hin].
    rewrite scandir_perm in Hin. apply elem_of_map_to_list in Hin.
    exists n. split; [done|].
    apply Is_true_true in Hv. unfold visible_file in Hv.
    by apply andb_true_iff in Hv as [? _]. }
  pose proof (hash_files_spec all_files [] w)
    as (F & S & C & T & (l & Hl & Hp) & _).
  destruct (hash_files all_files [] w) as [w1 groups]; cbn [fst snd] in *.
  eexists _, _. split; [done|].
  assert (filter (λ g : string * list path, 1 < length g.2) groups ≫= snd
          `sublist_of` groups ≫= snd) as Hsub
    by apply bind_sublist, sublist_filter.
  assert (NoDup (groups ≫= snd)) as Hg.
  { rewrite Hp. simpl. by eapply sublist_NoDup. }
  split_and!; auto.
  - by eapply sublist_NoDup.
  - intros g p [_ Hgin]%list_elem_of_filter Hpg. apply Hfile.
    assert (p ∈ groups ≫= snd) as Hin
      by (apply list_elem_of_bind; eauto).
    rewrite Hp in Hin. simpl in Hin. by eapply elem_of_sublist.
  - by intros g [? _]%list_elem_of_filter.
Qed.

Lemma remove_duplicates_cache org keep_oldest w :
  hash_cache (remove_duplicates org keep_oldest w).1 = hash_cache w.
Proof.
  unfold remove_duplicates.
  destruct (find_all_duplicates_spec w)
    as (w1 & d & -> & F & _ & C & _ & Hnd & Hex & Hlen).
  destruct d as [|g d]; [done|].
  destruct (remove_groups_spec org keep_oldest (g :: d) 0 w1 Hnd)
    as (w' & n' & -> & _ & C' & _).
  - intros g' p Hg Hp. rewrite F. destruct (Hex g' p Hg Hp) as (? & -> & _).
    eauto.
  - intros g' Hg E. specialize (Hlen g' Hg). rewrite E in Hlen.
    simpl in Hlen. lia.
  - simpl. congruence.
Qed.

(** ** Claims about the bulk pass and the cache *)

(** C7: [remove_duplicates] never raises.  For every group that the search
    returns, the members are paired with their modification times and
    sorted ascending ([sort_by_mtime] yields a sorted permutation), the
    order is reversed when the newest copy is wanted, and the head is kept:
    it is a member with the least (or greatest) modification time; no
    unlink is called on it by any group, and it is on disk afterwards as
    it was before.  The unlink calls made are those on the other members
    of the groups, each of which is tried unless this is a dry run. *)
Theorem remove_duplicates_keeps_one org keep_oldest w :
  ∃ w1 duplicates w' evs,
    find_all_duplicates w true = (w1, Ret duplicates)
    ∧ remove_duplicates org keep_oldest w = (w', Ret ())
    ∧ trace w' = evs ++ trace w1
    ∧ (∀ e, e ∈ evs ↔
            dry_run org = false
            ∧ ∃ p, e = Unlinked p
                   ∧ p ∈ (duplicates ≫=
                            (λ g, doomed keep_oldest (fs w) g.2)))
    ∧ ∀ g, g ∈ duplicates →
        ∃ files_with_mtime keep others,
          with_mtime (fs w) g.2 = Some files_with_mtime
          ∧ StronglySorted older (sort_by_mtime files_with_mtime)
          ∧ sort_by_mtime files_with_mtime ≡ₚ files_with_mtime
          ∧ group_plan keep_oldest (fs w) g.2 = Some (keep, others)
          ∧ keep :: others ≡ₚ g.2
          ∧ (∀ q, q ∈ g.2 →
               ∃ nk nq,
                 fs w !! keep = Some nk ∧ fs w !! q = Some nq
                 ∧ if keep_oldest then (st_mtime nk ≤ st_mtime nq)%Z
                   else (st_mtime nq ≤ st_mtime nk)%Z)
          ∧ (Unlinked keep ∉ evs)
          ∧ (dry_run org = false → ∀ p, p ∈ others → Unlinked p ∈ evs)
          ∧ fs w' !! keep = fs w !! keep
          ∧ is_Some (fs w !! keep).
Proof.
  destruct (find_all_duplicates_spec w)
    as (w1 & d & E & F & _ & _ & _ & Hnd & Hex & Hlen).
  assert (∀ g p, g ∈ d → p ∈ g.2 → is_Some (fs w1 !! p)) as Hex1.
  { intros g p Hg Hp. rewrite F. destruct (Hex g p Hg Hp) as (? & -> & _).
    eauto. }
  assert (∀ g, g ∈ d → g.2 ≠ []) as Hne.
  { intros g Hg Eg. specialize (Hlen g Hg). rewrite Eg in Hlen.
    simpl in Hlen. lia. }
  destruct (remove_groups_spec org keep_oldest d 0 w1 Hnd Hex1 Hne)
    as (w2 & n' & R & _ & _ & F2 & _ & evs & T2 & M2).
  rewrite F in F2, M2.
  assert (∃ w', remove_duplicates org keep_oldest w = (w', Ret ())
                ∧ trace w' = trace w2 ∧ fs w' = fs w2)
    as (w' & Hrun & T' & F').
  { unfold remove_duplicates. rewrite E. destruct d as [|g d].
    - simpl in R. injection R as <- _. by exists w1.
    - rewrite R. eexists. split; [done|]. done. }
  exists w1, d, w', evs. split_and!; [done|done|congruence|done|].
  intros g Hg.
  destruct (group_plan_is_Some keep_oldest (fs w) g.2) as [[keep others] Hplan].
  { by apply Hne. }
  { intros p Hp. rewrite <-F. by eapply Hex1. }
  assert (∃ l, with_mtime (fs w) g.2 = Some l) as [l Hl].
  { unfold group_plan in Hplan. destruct (with_mtime (fs w) g.2); [eauto|done]. }
  pose proof (keeper_not_doomed keep_oldest (fs w) d Hnd g keep others Hg Hplan)
    as Hkeep.
  exists l, keep, others. split_and!.
  - done.
  - apply sort_by_mtime_sorted.
  - apply sort_by_mtime_perm.
  - done.
  - by eapply group_plan_perm.
  - intros q Hq. by eapply group_plan_extreme.
  - intros (_ & p & [= <-] & Hp)%M2. done.
  - intros Hdry p Hp. apply M2. split; [done|]. exists p. split; [done|].
    apply list_elem_of_bind. exists g. split; [|done].
    unfold doomed. by rewrite Hplan.
  - rewrite F', F2 by done. done.
  - destruct (group_plan_extreme keep_oldest (fs w) g.2 keep others keep Hplan)
      as (nk & _ & -> & _); [|eauto].
    rewrite <-(group_plan_perm _ _ _ _ _ Hplan). apply list_elem_of_here.
Qed.

(** C3, as amended: the hash cache is never invalidated.  What
    [process_file] and [organize_files] find in the cache is still there
    afterwards with the same hash, also under the path of a file that has
    been unlinked or moved away, and [remove_duplicates] leaves the cache
    as it is. *)
Theorem hash_cache_only_grows org keep_oldest w :
  (∀ file_path, hash_cache w ⊆ hash_cache (process_file org w file_path).1)
  ∧ hash_cache w ⊆ hash_cache (organize_files org w).1
  ∧ hash_cache (remove_duplicates org keep_oldest w).1 = hash_cache w.
Proof.
  split_and!.
  - intros file_path. apply process_file_grows.
  - apply organize_files_cache.
  - apply remove_duplicates_cache.
Qed.

(** ** The whole program in preview mode *)

Lemma remove_duplicates_dry org keep_oldest w :
  dry_run org = true → fs (remove_duplicates org keep_oldest w).1 = fs w.
Proof.
  intros Hdry. unfold remove_duplicates.
  destruct (find_all_duplicates_spec w)
    as (w1 & d & -> & F & _ & _ & _ & Hnd & Hex & Hlen).
  destruct d as [|g d]; [done|].
  destruct (remove_groups_spec org keep_oldest (g :: d) 0 w1 Hnd)
    as (w' & n' & -> & _ & _ & _ & D & _).
  - intros g' p Hg Hp. rewrite F. destruct (Hex g' p Hg Hp) as (? & -> & _).
    eauto.
  - intros g' Hg E. specialize (Hlen g' Hg). rewrite E in Hlen.
    simpl in Hlen. lia.
  - simpl. rewrite D by done. done.
Qed.

(** * Further properties *)

(** ** Names *)

Lemma append_assoc (a b c : string) : (a +:+ b) +:+ c = a +:+ (b +:+ c).
Proof.
  induction a as [|x a IH]; [done|].
  change (String x ((a +:+ b) +:+ c) = String x (a +:+ (b +:+ c))).
  by f_equal.
Qed.

Lemma rsplit_dot_split s b a :
  rsplit_dot s = Some (b, a) → s = b +:+ String "."%char a ∧ dotless a.
Proof.
  unfold dotless. revert b a. induction s as [|c s IH]; intros b a; simpl.
  - done.
  - destruct (rsplit_dot s) as [[b' a']|] eqn:E.
    + intros [= <- <-]. destruct (IH b' a' eq_refl) as [-> ?]. done.
    + destruct (Ascii.eqb c ".") eqn:Ec; [|done].
      apply Ascii.eqb_eq in Ec as ->. intros [= <- <-]. done.
Qed.

Lemma rsplit_dot_append x a :
  dotless a → rsplit_dot (x +:+ String "."%char a) = Some (x, a).
Proof.
  unfold dotless. intros Ha. induction x as [|c x IH]; simpl.
  - by rewrite Ha.
  - by rewrite IH.
Qed.

Lemma name_join folder n : name (join folder n) = n.
Proof. unfold name, join. by rewrite last_snoc. Qed.

Lemma removelast_join folder n : removelast (join folder n) = folder.
Proof. unfold join. apply removelast_last. Qed.

(** A name built from the parts of a dotted name, with anything put
    between the base and the extension, has the suffix of that name when
    that suffix is not empty. *)
Lemma suffix_rebuilt folder original base_name extension middle :
  split_name original = (base_name, extension) →
  suffix (join folder original) ≠ EmptyString →
  suffix (join folder (base_name +:+ "_" +:+ middle +:+ extension))
  = suffix (join folder original).
Proof.
  unfold split_name, suffix. rewrite !name_join.
  destruct (rsplit_dot original) as [[b a]|] eqn:E; [|done].
  intros [= <- <-]. case_bool_decide as Hba; [|done]. intros _.
  destruct (rsplit_dot_split _ _ _ E) as [_ Ha].
  replace (b +:+ "_" +:+ middle +:+ String "."%char a)
    with ((b +:+ "_" +:+ middle) +:+ String "."%char a)
    by by rewrite !append_assoc.
  rewrite (rsplit_dot_append _ _ Ha).
  rewrite bool_decide_eq_true_2; [done|]. split; [|tauto].
  by destruct b.
Qed.

(** ** What one call of get_unique_filename does *)

Lemma candidate_numeric target_folder file_path base_name extension k :
  split_name (name file_path) = (base_name, extension) → 1 ≤ k →
  candidate target_folder file_path k
  = join target_folder (base_name +:+ "_" +:+ pretty k +:+ extension).
Proof. intros E Hk. destruct k; [lia|]. unfold candidate. by rewrite E. Qed.

(** The loop, step by step: the candidates it passes are all occupied; it
    ends at a free candidate, at a duplicate, or, after candidate 99, at
    the timestamp name.  [wm] is the world just before the last step. *)
Lemma unique_loop_outcome org file_path target_folder base_name extension :
  split_name (name file_path) = (base_name, extension) →
  ∀ fuel counter new_path iters w w' n,
    1 ≤ counter ≤ 100 →
    new_path = candidate target_folder file_path (counter - 1) →
    unique_loop fuel org file_path target_folder base_name extension
      counter new_path iters w = Some (w', n) →
    ∃ wm,
      fs wm = fs w ∧ stats wm = stats w ∧ clock wm = clock w
      ∧ (cache_coherent w → cache_coherent wm)
      ∧ counter ≤ last_counter n
      ∧ (∀ i, counter - 1 ≤ i < last_counter n - 1 →
              exists_ (fs w) (candidate target_folder file_path i) = true)
      ∧ match chosen n with
        | Some p =>
            if forced n then
              w' = tick wm
              ∧ p = join target_folder
                      (base_name +:+ "_" +:+ strftime_now (clock w)
                       +:+ extension)
              ∧ last_counter n = 101
              ∧ iterations n = iters + (101 - counter)
            else
              w' = wm
              ∧ p = candidate target_folder file_path (last_counter n - 1)
              ∧ exists_ (fs w) p = false
              ∧ iterations n = iters + (last_counter n - counter)
        | None =>
            w' = drop_duplicate org file_path wm
            ∧ exists_ (fs w)
                (candidate target_folder file_path (last_counter n - 1))
              = true
            ∧ ∃ w0, fs w0 = fs w
                    ∧ (cache_coherent w → cache_coherent w0)
                    ∧ is_exact_duplicate w0 file_path
                        (candidate target_folder file_path
                           (last_counter n - 1)) = (wm, true)
        end.
Proof.
  intros Hsplit.
  induction fuel as [|fuel IH]; intros counter new_path iters w w' n Hc Hp H.
  - simpl in H. destruct (exists_ (fs w) new_path) eqn:E; [done|].
    injection H as <- <-. exists w. simpl.
    split_and!; auto; try lia; try (intros i Hi; lia); by rewrite <-Hp.
  - simpl in H. destruct (exists_ (fs w) new_path) eqn:E.
    2:{ injection H as <- <-. exists w. simpl.
        split_and!; auto; try lia; try (intros i Hi; lia); by rewrite <-Hp. }
    pose proof (is_exact_duplicate_spec w file_path new_path)
      as (F1 & S1 & C1 & _ & _ & K1).
    destruct (is_exact_duplicate w file_path new_path) as [w1 dup] eqn:D;
      simpl in *.
    destruct dup.
    + injection H as <- <-. exists w1. simpl.
      split_and!; auto; try (intros i Hi; lia); try (by rewrite <-Hp).
      exists w. rewrite <-Hp. by split_and!.
    + case_bool_decide as Hbig.
      * injection H as <- <-. exists w1. simpl.
        assert (counter = 100) as -> by lia.
        split_and!; auto; try lia; try (by rewrite C1).
        intros i Hi. assert (i = 99) as -> by lia. subst new_path. exact E.
      * eapply IH in H as (wm & Fm & Sm & Cm & Km & Hle & Hocc & Hend);
          [|lia|].
        2:{ replace (S counter - 1) with counter by lia.
            rewrite (candidate_numeric _ _ _ _ _ Hsplit); [done | lia]. }
        exists wm. split_and!; try congruence.
        -- intros Hw. by apply Km, K1.
        -- lia.
        -- intros i Hi. destruct (decide (i = counter - 1)) as [->|Hne].
           ++ by rewrite <-Hp.
           ++ rewrite <-F1. apply Hocc. lia.
        -- destruct (chosen n) as [p|].
           ++ destruct (forced n).
              ** destruct Hend as (? & ? & ? & ?).
                 split_and!; try done; [congruence | lia].
              ** destruct Hend as (? & ? & ? & ?).
                 split_and!; try done; [congruence | lia].
           ++ destruct Hend as (? & ? & w0 & ? & K0 & ?).
              split_and!; [done|congruence|].
              exists w0. split_and!; [congruence| |done].
              intros Hw. by apply K0, K1.
Qed.

Lemma get_unique_filename_outcome org file_path target_folder w :
  ∃ w' n wm,
    get_unique_filename_fuel loop_bound org file_path target_folder w
      = Some (w', n)
    ∧ get_unique_filename org file_path target_folder w = (w', chosen n)
    ∧ fs wm = fs w ∧ stats wm = stats w ∧ clock wm = clock w
    ∧ (cache_coherent w → cache_coherent wm)
    ∧ 1 ≤ last_counter n
    ∧ (∀ i, i < last_counter n - 1 →
            exists_ (fs w) (candidate target_folder file_path i) = true)
    ∧ match chosen n with
      | Some p =>
          if forced n then
            w' = tick wm
            ∧ (∃ timestamp,
                 p = join target_folder
                       ((split_name (name file_path)).1 +:+ "_" +:+ timestamp
                        +:+ (split_name (name file_path)).2))
            ∧ last_counter n = 101
            ∧ iterations n = 100
          else
            w' = wm
            ∧ p = candidate target_folder file_path (last_counter n - 1)
            ∧ exists_ (fs w) p = false
            ∧ iterations n = last_counter n - 1
      | None =>
          w' = drop_duplicate org file_path wm
          ∧ exists_ (fs w)
              (candidate target_folder file_path (last_counter n - 1))
            = true
          ∧ ∃ w0, fs w0 = fs w
                  ∧ (cache_coherent w → cache_coherent w0)
                  ∧ is_exact_duplicate w0 file_path
                      (candidate target_folder file_path
                         (last_counter n - 1)) = (wm, true)
      end.
Proof.
  destruct (get_unique_filename_run org file_path target_folder w)
    as (w' & n & E & R).
  pose proof E as E'. unfold get_unique_filename_fuel in E'.
  destruct (split_name (name file_path)) as [b e] eqn:Hsplit.
  eapply (unique_loop_outcome _ _ _ _ _ Hsplit) in E'
    as (wm & F & S & C & K & Hle & Hocc & Hend); [|lia|done].
  exists w', n, wm. split_and!; auto.
  - intros i Hi. apply Hocc. lia.
  - destruct (chosen n) as [p|]; [|done]. destruct (forced n).
    + destruct Hend as (? & ? & ? & ?). split_and!; eauto; lia.
    + destruct Hend as (? & ? & ? & ?). split_and!; auto; lia.
Qed.

Lemma suffix_name p q : name p = name q → suffix p = suffix q.
Proof. unfold suffix. by intros ->. Qed.

Lemma drop_duplicate_spec org file_path w :
  let w' := drop_duplicate org file_path w in
  duplicates_found (stats w') = S (duplicates_found (stats w))
  ∧ processed (stats w') = processed (stats w)
  ∧ moved (stats w') = moved (stats w)
  ∧ renamed (stats w') = renamed (stats w)
  ∧ skipped (stats w') = skipped (stats w)
  ∧ hash_cache w' = hash_cache w ∧ clock w' = clock w
  ∧ (dry_run org = true →
     fs w' = fs w ∧ trace w' = trace w
     ∧ duplicates_removed (stats w') = duplicates_removed (stats w)
     ∧ errors (stats w') = errors (stats w))
  ∧ (dry_run org = false →
     trace w' = Unlinked file_path :: trace w
     ∧ ((unlink (fs w) file_path = Some (fs w')
         ∧ duplicates_removed (stats w') = duplicates_removed (stats w) + 1
         ∧ errors (stats w') = errors (stats w))
        ∨ (unlink (fs w) file_path = None ∧ fs w' = fs w
           ∧ duplicates_removed (stats w') = duplicates_removed (stats w)
           ∧ errors (stats w') = S (errors (stats w))))).
Proof.
  unfold drop_duplicate. destruct (dry_run org); simpl.
  - split_and!; auto. done.
  - destruct (unlink (fs w) file_path) as [f'|] eqn:U; simpl;
      split_and!; auto; try done; intros _; (split; [done|]); auto.
Qed.

Lemma get_unique_filename_terminates_bounds org file_path target_folder
    w w' n :
  get_unique_filename_fuel loop_bound org file_path target_folder w
    = Some (w', n) →
  iterations n ≤ 100 ∧ (forced n = false → last_counter n ≤ 100).
Proof.
  unfold get_unique_filename_fuel, loop_bound.
  destruct (split_name _) as [b e]. intros E.
  assert (∀ fuel counter new_path iters w0 w1 n1,
    unique_loop fuel org file_path target_folder b e counter new_path iters w0
      = Some (w1, n1) → counter ≤ 100 → forced n1 = false →
    last_counter n1 ≤ 100) as Hgen.
  { induction fuel as [|fuel IH]; intros counter new_path iters w0 w1 n1 H Hc.
    - simpl in H. destruct (exists_ _ _); [done|]. by injection H as <- <-.
    - simpl in H. destruct (exists_ _ _); [|by injection H as <- <-].
      destruct (is_exact_duplicate w0 file_path new_path) as [w2 dup].
      destruct dup; [by injection H as <- <-|].
      case_bool_decide; [by injection H as <- <-|].
      eapply IH; [exact H | lia]. }
  split.
  - destruct (unique_loop_fuel_enough 100 org file_path target_folder b e 1
                (join target_folder (name file_path)) 0 w)
      as (w2 & n2 & E2 & ? & ? & ? & ?); [lia..|].
    rewrite E in E2; simplify_eq. lia.
  - eapply Hgen; [exact E | lia].
Qed.

(** ** Properties of is_exact_duplicate and get_unique_filename *)

(** X1: a comparison repeated right after the first one opens no file and
    changes nothing: the hashes it needs are in the cache, and the answer
    is the same. *)
Theorem second_comparison_is_cached w file1 file2 :
  is_exact_duplicate (is_exact_duplicate w file1 file2).1 file1 file2
  = is_exact_duplicate w file1 file2.
Proof.
  unfold is_exact_duplicate at 2 3.
  destruct (st_size <$> fs w !! file1) as [s1|] eqn:E1;
    [|cbn [fst]; unfold is_exact_duplicate; by rewrite E1].
  destruct (st_size <$> fs w !! file2) as [s2|] eqn:E2;
    [|cbn [fst]; unfold is_exact_duplicate; by rewrite E1, E2].
  case_bool_decide as Hs.
  { cbn [fst]. unfold is_exact_duplicate. rewrite E1, E2.
    by rewrite bool_decide_eq_true_2. }
  pose proof (cached_hash_spec w file1) as (F1 & _ & _ & _ & L1 & _).
  destruct (cached_hash w file1) as [w1 h1]; simpl in *.
  pose proof (cached_hash_spec w1 file2) as (F2 & _ & _ & M2 & L2 & _).
  destruct (cached_hash w1 file2) as [w2 h2]; simpl in *.
  unfold is_exact_duplicate. rewrite F2, F1, E1, E2.
  rewrite bool_decide_eq_false_2 by (intros ?; done).
  unfold cached_hash. rewrite (lookup_weaken _ _ _ _ L1 M2), L2. done.
Qed.

(** X2: with a coherent cache the answer does not depend on the order of
    the two files. *)
Theorem comparison_is_symmetric w file1 file2 :
  cache_coherent w →
  (is_exact_duplicate w file1 file2).2 = (is_exact_duplicate w file2 file1).2.
Proof.
  intros Hc. apply eq_true_iff_eq.
  rewrite !is_exact_duplicate_value by done.
  split; intros ((s & ? & ?) & E & N); (split; [by exists s|]);
    (split; [done|]); congruence.
Qed.

(** X3: the two parts that [get_unique_filename] splits a name into give
    the name back when joined, and the extension part is empty or a dot
    followed by text without a dot. *)
Theorem split_name_rejoins original_name :
  (split_name original_name).1 +:+ (split_name original_name).2
  = original_name
  ∧ ((split_name original_name).2 = EmptyString
     ∨ ∃ a, (split_name original_name).2 = String "."%char a ∧ dotless a).
Proof.
  unfold split_name.
  destruct (rsplit_dot original_name) as [[b a]|] eqn:E; simpl.
  - destruct (rsplit_dot_split _ _ _ E) as [-> Ha]. eauto.
  - split; [|by left].
    induction original_name as [|c s IH]; [done|].
    change (String c (s +:+ EmptyString) = String c s). f_equal. apply IH.
    simpl in E. destruct (rsplit_dot s) as [[? ?]|]; [done|].
    by destruct (Ascii.eqb c ".").
Qed.


Lemma unique_loop_duplicate_unforced org file_path target_folder base_name
    extension :
  ∀ fuel counter new_path iters w w' n,
    unique_loop fuel org file_path target_folder base_name extension
      counter new_path iters w = Some (w', n) →
    chosen n = None → forced n = false.
Proof.
  induction fuel as [|fuel IH]; intros counter new_path iters w w' n H.
  - simpl in H. destruct (exists_ _ _); [done|]. by injection H as <- <-.
  - simpl in H. destruct (exists_ _ _); [|by injection H as <- <-].
    destruct (is_exact_duplicate w file_path new_path) as [w1 dup].
    destruct dup; [by injection H as <- <-|].
    case_bool_decide; [by injection H as <- <-|].
    eapply IH, H.
Qed.

Lemma get_unique_filename_duplicate org file_path target_folder w w' :
  cache_coherent w →
  get_unique_filename org file_path target_folder w = (w', None) →
  ∃ k nf nq,
    k < 100
    ∧ fs w !! file_path = Some nf
    ∧ fs w !! candidate target_folder file_path k = Some nq
    ∧ st_size nf = st_size nq
    ∧ (get_file_hash w file_path).2
      = (get_file_hash w (candidate target_folder file_path k)).2
    ∧ (get_file_hash w file_path).2 ≠ EmptyString
    ∧ (∀ i, i < k →
            exists_ (fs w) (candidate target_folder file_path i) = true)
    ∧ duplicates_found (stats w') = S (duplicates_found (stats w))
    ∧ (dry_run org = true →
       fs w' = fs w
       ∧ duplicates_removed (stats w') = duplicates_removed (stats w)
       ∧ errors (stats w') = errors (stats w))
    ∧ (dry_run org = false →
       (unlink (fs w) file_path = Some (fs w')
        ∧ duplicates_removed (stats w') = duplicates_removed (stats w) + 1
        ∧ errors (stats w') = errors (stats w))
       ∨ (unlink (fs w) file_path = None ∧ fs w' = fs w
          ∧ duplicates_removed (stats w') = duplicates_removed (stats w)
          ∧ errors (stats w') = S (errors (stats w)))).
Proof.
  intros Hc.
  destruct (get_unique_filename_outcome org file_path target_folder w)
    as (w2 & n & wm & E & -> & F & S & C & _ & Hle & Hocc & Hend).
  intros [= -> Hn]. rewrite Hn in Hend.
  destruct Hend as (-> & _ & w0 & F0 & K0 & D).
  assert (last_counter n ≤ 100) as Hl.
  { apply (get_unique_filename_terminates_bounds _ _ _ _ _ _ E).
    revert E. unfold get_unique_filename_fuel.
    destruct (split_name _). intros E.
    by eapply unique_loop_duplicate_unforced. }
  assert ((is_exact_duplicate w0 file_path
             (candidate target_folder file_path (last_counter n - 1))).2
          = true) as Hd by by rewrite D.
  apply is_exact_duplicate_value in Hd as ((s & S1 & S2) & Eh & Nh);
    [|by apply K0].
  rewrite F0 in S1, S2.
  rewrite !(get_file_hash_fs w0 w) in Eh, Nh by done.
  destruct (fs w !! file_path) as [nf|] eqn:Lf; [|done].
  destruct (fs w !! candidate target_folder file_path (last_counter n - 1))
    as [nq|] eqn:Lq; [|done].
  simpl in S1, S2.
  pose proof (drop_duplicate_spec org file_path wm)
    as (Df & _ & _ & _ & _ & _ & _ & Ddry & Dreal).
  rewrite F, S in Ddry, Dreal. rewrite S in Df.
  exists (last_counter n - 1), nf, nq.
  split_and!; try done; try congruence; try lia.
  - rewrite Eh. by apply get_file_hash_fs.
  - intros Hdry. destruct (Ddry Hdry) as (? & _ & ? & ?). done.
  - intros Hreal. destruct (Dreal Hreal) as (_ & H). exact H.
Qed.

(** X5: [get_unique_filename] reports a duplicate only when, with a
    coherent cache, one of the candidates [k < 100] is occupied by an entry
    of the same size as the source file and with the same non-empty hash,
    all candidates before it being occupied too.  It then counts one
    duplicate found.  In a dry run nothing else changes; otherwise the
    source file is unlinked and counted as removed, or, when the unlink
    raises, it stays and one error is counted. *)
Theorem duplicate_has_matching_occupant org file_path target_folder w w' :
  cache_coherent w →
  get_unique_filename org file_path target_folder w = (w', None) →
  ∃ k nf nq,
    k < 100
    ∧ fs w !! file_path = Some nf
    ∧ fs w !! candidate target_folder file_path k = Some nq
    ∧ st_size nf = st_size nq
    ∧ (get_file_hash w file_path).2
      = (get_file_hash w (candidate target_folder file_path k)).2
    ∧ (get_file_hash w file_path).2 ≠ EmptyString
    ∧ (∀ i, i < k →
            exists_ (fs w) (candidate target_folder file_path i) = true)
    ∧ duplicates_found (stats w') = S (duplicates_found (stats w))
    ∧ (dry_run org = true →
       fs w' = fs w
       ∧ duplicates_removed (stats w') = duplicates_removed (stats w)
       ∧ errors (stats w') = errors (stats w))
    ∧ (dry_run org = false →
       (unlink (fs w) file_path = Some (fs w')
        ∧ duplicates_removed (stats w') = duplicates_removed (stats w) + 1
        ∧ errors (stats w') = errors (stats w))
       ∨ (unlink (fs w) file_path = None ∧ fs w' = fs w
          ∧ duplicates_removed (stats w') = duplicates_removed (stats w)
          ∧ errors (stats w') = S (errors (stats w)))).
Proof. apply get_unique_filename_duplicate. Qed.

(** X6: renaming keeps the extension.  If the source file has a suffix,
    the path returned by [get_unique_filename] has the same suffix,
    whether it is the natural destination, a numbered name or the
    timestamp name. *)
Theorem returned_path_keeps_suffix org file_path target_folder w w' p :
  suffix file_path ≠ EmptyString →
  get_unique_filename org file_path target_folder w = (w', Some p) →
  suffix p = suffix file_path.
Proof.
  intros Hs.
  destruct (get_unique_filename_outcome org file_path target_folder w)
    as (w2 & n & wm & E & -> & _ & _ & _ & _ & Hle & _ & Hend).
  intros [= -> Hn]. rewrite Hn in Hend.
  assert (suffix (join target_folder (name file_path)) = suffix file_path)
    as Hnat by (apply suffix_name, name_join).
  destruct (split_name (name file_path)) as [b e] eqn:Hsplit.
  destruct (forced n).
  - destruct Hend as (_ & (ts & ->) & _). simpl.
    rewrite <-Hnat. apply suffix_rebuilt; [done | by rewrite Hnat].
  - destruct Hend as (_ & -> & _).
    destruct (last_counter n - 1) as [|k] eqn:Hk; [done|].
    rewrite (candidate_numeric _ _ b e) by (done || lia).
    rewrite <-Hnat. apply suffix_rebuilt; [done | by rewrite Hnat].
Qed.

(** ** Properties of check_case_insensitive_duplicate and
       create_category_folders *)

(** X7: [check_case_insensitive_duplicate] raises exactly when the target
    folder is not a directory.  Otherwise it answers yes exactly when,
    for some regular file directly in the folder, [str.lower] maps its
    name and the given name to the same string, in whatever order the
    folder is enumerated.  [lower] is the case mapping of the interpreter
    and is not fixed here, so this holds for the Unicode mapping. *)
Theorem case_insensitive_check_spec f filename target_folder :
  match check_case_insensitive_duplicate f filename target_folder with
  | Exc => ∀ s m, f !! target_folder ≠ Some (Dir s m)
  | Ret b =>
      (∃ s m, f !! target_folder = Some (Dir s m))
      ∧ (b = true ↔
         ∃ p n, f !! p = Some n ∧ child_of target_folder p = true
                ∧ is_file n = true ∧ lower (name p) = lower filename)
  end.
Proof.
  unfold check_case_insensitive_duplicate.
  destruct (iterdir f target_folder) as [entries|] eqn:E.
  - split.
    + unfold iterdir in E. destruct (f !! target_folder) as [[|s m]|]; eauto;
        done.
    + rewrite existsb_exists. split.
      * intros ([p n] & Hin & Hb). simpl in Hb.
        apply andb_true_iff in Hb as [Hf Hn]. apply String.eqb_eq in Hn.
        apply list_elem_of_In, (iterdir_elem _ _ _ _ _ E) in Hin as [? ?].
        by exists p, n.
      * intros (p & n & Hl & Hc & Hf & Hn). exists (p, n). split.
        -- by apply list_elem_of_In, (iterdir_elem _ _ _ _ _ E).
        -- simpl. rewrite Hf, Hn. simpl. apply String.eqb_refl.
  - intros s m Hd. unfold iterdir in E. by rewrite Hd in E.
Qed.

Lemma create_folders_made org cats :
  dry_run org = false →
  ∀ w s m,
    fs w !! [] = Some (Dir s m) →
    let r := create_folders org cats w in
    r.2 = Ret ()
    ∧ (∀ c, c ∈ cats → exists_ (fs r.1) [c] = true)
    ∧ (∀ p n, fs r.1 !! p = Some n →
              fs w !! p = Some n
              ∨ ∃ c s' m', c ∈ cats ∧ p = [c] ∧ n = Dir s' m').
Proof.
  intros Hreal.
  induction cats as [|c cats IH]; intros w s m H0; simpl.
  { split_and!; auto. by intros c ?%elem_of_nil. }
  assert (∀ w1 : world,
    fs w ⊆ fs w1 → exists_ (fs w1) [c] = true →
    (∀ p n, fs w1 !! p = Some n →
            fs w !! p = Some n ∨ ∃ s' m', p = [c] ∧ n = Dir s' m') →
    let r := create_folders org cats w1 in
    r.2 = Ret ()
    ∧ (∀ c0, c0 ∈ c :: cats → exists_ (fs r.1) [c0] = true)
    ∧ (∀ p n, fs r.1 !! p = Some n →
              fs w !! p = Some n
              ∨ ∃ c0 s' m', c0 ∈ c :: cats ∧ p = [c0] ∧ n = Dir s' m'))
    as Hstep.
  { intros w1 Sub Hc Hnew.
    destruct (IH w1 s m) as (R & Ex & New); [by eapply lookup_weaken|].
    pose proof (create_folders_spec org cats w1) as (_ & _ & [Sub1 _] & _).
    split_and!; [done| |].
    - intros c0 [->|Hc0]%elem_of_cons; [|by apply Ex].
      apply bool_decide_eq_true. apply bool_decide_eq_true in Hc as [n Hn].
      exists n. by eapply lookup_weaken.
    - intros p n Hp. destruct (New p n Hp) as [H1|(c0 & s' & m' & ? & ? & ?)].
      + destruct (Hnew p n H1) as [?|(s' & m' & ? & ?)]; [by left|].
        right. exists c, s', m'. split_and!; [apply list_elem_of_here|done..].
      + right. exists c0, s', m'.
        split_and!; [by apply list_elem_of_further|done..]. }
  destruct (exists_ (fs w) [c]) eqn:Ex; simpl.
  - apply Hstep; auto.
  - rewrite Hreal. simpl. apply bool_decide_eq_false in Ex.
    rewrite (mkdir_parents_category _ _ _ s m) by
      (done || by apply eq_None_not_Some).
    apply Hstep; simpl.
    + apply insert_subseteq. by apply eq_None_not_Some.
    + apply bool_decide_eq_true. rewrite lookup_insert_eq. eauto.
    + intros p n. rewrite lookup_insert. case_decide; [|auto].
      intros [= <-]. right. eauto.
Qed.

Lemma create_folders_nothing_to_do org cats w :
  (∀ c, c ∈ cats → exists_ (fs w) [c] = true) →
  create_folders org cats w = (w, Ret ()).
Proof.
  induction cats as [|c cats IH]; intros H; simpl; [done|].
  rewrite (H c) by apply list_elem_of_here. simpl.
  apply IH. intros c' Hc'. by apply H, list_elem_of_further.
Qed.

(** X8: when the source folder is a directory and this is not a dry run,
    [create_category_folders] returns normally and every category path
    exists afterwards.  What was on disk is untouched, what is new is a
    directory at a category path, and the counters and the cache are not
    changed. *)
Theorem category_folders_exist org w s m :
  dry_run org = false →
  fs w !! [] = Some (Dir s m) →
  ∃ w',
    create_category_folders org w = (w', Ret ())
    ∧ (∀ c, c ∈ (categories org).*1 → exists_ (fs w') [c] = true)
    ∧ fs w ⊆ fs w'
    ∧ (∀ p n, fs w' !! p = Some n →
              fs w !! p = Some n
              ∨ ∃ c s' m', c ∈ (categories org).*1 ∧ p = [c] ∧ n = Dir s' m')
    ∧ stats w' = stats w ∧ hash_cache w' = hash_cache w.
Proof.
  intros Hreal H0. unfold create_category_folders.
  pose proof (create_folders_made org (categories org).*1 Hreal w s m H0)
    as (R & Ex & New).
  pose proof (create_folders_spec org (categories org).*1 w)
    as (S & C & [Sub _] & _).
  destruct (create_folders org _ w) as [w' r]; simpl in *. subst r.
  exists w'. by split_and!.
Qed.

(** X9: [create_category_folders] is idempotent: a second call right
    after the first makes no call to [mkdir] and changes nothing. *)
Theorem category_folders_idempotent org w s m :
  dry_run org = false →
  fs w !! [] = Some (Dir s m) →
  create_category_folders org (create_category_folders org w).1
  = ((create_category_folders org w).1, Ret ()).
Proof.
  intros Hreal H0. unfold create_category_folders.
  pose proof (create_folders_made org (categories org).*1 Hreal w s m H0)
    as (_ & Ex & _).
  by apply create_folders_nothing_to_do.
Qed.

(** ** The counters *)

Lemma counted_refl s : counted s s.
Proof. unfold counted. lia. Qed.

Lemma counted_trans s1 s2 s3 : counted s1 s2 → counted s2 s3 → counted s1 s3.
Proof. unfold counted. lia. Qed.

Lemma get_unique_filename_effect org file_path target_folder w :
  let r := get_unique_filename org file_path target_folder w in
  match r.2 with
  | Some p => fs r.1 = fs w ∧ stats r.1 = stats w
              ∧ removelast p = target_folder
  | None => ∃ wm, fs wm = fs w ∧ stats wm = stats w
                  ∧ r.1 = drop_duplicate org file_path wm
  end.
Proof.
  destruct (get_unique_filename_outcome org file_path target_folder w)
    as (w' & n & wm & _ & -> & F & S & _ & _ & _ & _ & Hend). simpl.
  destruct (chosen n) as [p|].
  - destruct (forced n).
    + destruct Hend as (-> & (ts & ->) & _). simpl.
      split_and!; [done..|]. apply removelast_join.
    + destruct Hend as (-> & -> & _). split_and!; [done..|].
      unfold candidate. destruct (last_counter n - 1).
      * apply removelast_join.
      * destruct (split_name _). apply removelast_join.
  - destruct Hend as (-> & _). by exists wm.
Qed.

(** What the counters record of one file handled for a category. *)
Lemma place_stats org category file_path w :
  let r := place org category file_path w in
  counted (stats w) (stats r.1)
  ∧ processed (stats r.1) = processed (stats w)
  ∧ skipped (stats r.1) = skipped (stats w)
  ∧ duplicates_found (stats r.1) ≤ S (duplicates_found (stats w))
  ∧ (dry_run org = false → r.2 = Ret () →
     outcomes (stats r.1) = S (outcomes (stats w))).
Proof.
  unfold place.
  pose proof (get_unique_filename_effect org file_path [category] w) as G.
  destruct (get_unique_filename org file_path [category] w) as [w1 [up|]];
    simpl in G.
  - destruct G as (_ & S & _).
    destruct (check_case_insensitive_duplicate _ _ _); simpl;
      [|rewrite S; split_and!; auto using counted_refl; done].
    destruct (dry_run org); simpl;
      [rewrite S; split_and!; auto using counted_refl; done|].
    destruct (shutil_move _ _ _); [case_bool_decide|]; simpl; rewrite S;
      unfold counted, outcomes; simpl; split_and!; lia.
  - destruct G as (wm & _ & S & ->).
    pose proof (drop_duplicate_spec org file_path wm)
      as (Df & Dp & Dm & Dr & Ds & _ & _ & Ddry & Dreal).
    rewrite S in *. simpl.
    destruct (dry_run org).
    + destruct (Ddry eq_refl) as (_ & _ & ? & ?).
      unfold counted, outcomes. split_and!; (lia || done).
    + destruct (Dreal eq_refl) as (_ & [(_ & ? & ?)|(_ & _ & ? & ?)]);
        unfold counted, outcomes; split_and!; lia.
Qed.

Lemma process_file_stats org w file_path :
  let r := process_file org w file_path in
  counted (stats w) (stats r.1)
  ∧ processed (stats r.1) = processed (stats w)
  ∧ duplicates_found (stats r.1) + skipped (stats r.1)
    ≤ S (duplicates_found (stats w) + skipped (stats w))
  ∧ (dry_run org = false → r.2 = Ret () →
     outcomes (stats r.1) = S (outcomes (stats w))).
Proof.
  rewrite process_file_first. destruct (first_category _ _) as [c|].
  - pose proof (place_stats org c file_path w) as (? & ? & ? & ? & ?).
    split_and!; auto. lia.
  - simpl. unfold counted, outcomes. simpl. split_and!; lia.
Qed.

Lemma process_files_stats org files :
  ∀ w,
    let r := process_files org files w in
    counted (stats w) (stats r.1)
    ∧ processed (stats r.1) = processed (stats w)
    ∧ duplicates_found (stats r.1) + skipped (stats r.1)
      ≤ duplicates_found (stats w) + skipped (stats w) + length files
    ∧ (dry_run org = false → r.2 = Ret () →
       outcomes (stats r.1) = outcomes (stats w) + length files).
Proof.
  induction files as [|f files IH]; intros w; simpl.
  { split_and!; auto using counted_refl; lia. }
  pose proof (process_file_stats org w f) as (C1 & P1 & D1 & O1).
  destruct (process_file org w f) as [w1 [[]|]]; simpl in *.
  - destruct (IH w1) as (C2 & P2 & D2 & O2). split_and!.
    + by eapply counted_trans.
    + congruence.
    + lia.
    + intros Hreal Hr. rewrite O2, O1 by done. lia.
  - split_and!; [done..|lia|done].
Qed.

(** X10: while [organize_files] runs, no counter other than [processed]
    ever decreases; the files renamed are among the files moved and the
    duplicates removed among the duplicates found, so that neither count
    grows by more than the other. *)
Theorem counters_only_grow org w :
  counted (stats w) (stats (organize_files org w).1).
Proof.
  unfold organize_files. destruct (exists_ (fs w) []); simpl;
    [|apply counted_refl].
  unfold create_category_folders.
  pose proof (create_folders_spec org (categories org).*1 w) as (S & _).
  destruct (create_folders org _ w) as [w1 [[]|]]; simpl in *;
    [|rewrite S; apply counted_refl].
  destruct (files_to_process (fs w1)) as [files|]; simpl;
    [|rewrite S; apply counted_refl].
  pose proof (process_files_stats org files
                (set_stats (set_processed (length files) (stats w1)) w1))
    as (C & _).
  destruct (process_files _ _ _) as [w3 [[]|]]; simpl in *;
    rewrite S in C; revert C; unfold counted; simpl; lia.
Qed.

(** X11: every file of the snapshot is counted.  When the real run of
    [organize_files] returns [True], the files moved, removed as
    duplicates, skipped or failed since the start add up to [processed];
    in any run the duplicates found and the files skipped since the start
    are at most [processed]. *)
Theorem every_file_is_counted org w w' :
  organize_files org w = (w', Ret true) →
  duplicates_found (stats w') + skipped (stats w')
  ≤ duplicates_found (stats w) + skipped (stats w) + processed (stats w')
  ∧ (dry_run org = false →
     outcomes (stats w') = outcomes (stats w) + processed (stats w')).
Proof.
  unfold organize_files. destruct (exists_ (fs w) []); simpl; [|done].
  unfold create_category_folders.
  pose proof (create_folders_spec org (categories org).*1 w) as (S & _).
  destruct (create_folders org _ w) as [w1 [[]|]]; simpl in *; [|done].
  destruct (files_to_process (fs w1)) as [files|]; simpl; [|done].
  pose proof (process_files_stats org files
                (set_stats (set_processed (length files) (stats w1)) w1))
    as (_ & Pr & D & O).
  destruct (process_files _ _ _) as [w3 [[]|]]; simpl in *; [|done].
  intros [= <-]. rewrite S in D, O. rewrite Pr. split.
  - revert D. simpl. lia.
  - intros Hreal. rewrite (O Hreal eq_refl). unfold outcomes. simpl. lia.
Qed.

(** ** What organize_files leaves alone *)

Lemma keeps_refl S f : keeps S f f.
Proof. by intros p _ _. Qed.

Lemma keeps_trans S f1 f2 f3 : keeps S f1 f2 → keeps S f2 f3 → keeps S f1 f3.
Proof.
  intros H1 H2 p Hp Hs. rewrite <-(H1 p Hp Hs). apply H2; [|done].
  by rewrite (H1 p Hp Hs).
Qed.

Lemma keeps_mono (S S' : path → Prop) f f' :
  (∀ p, S p → S' p) → keeps S f f' → keeps S' f f'.
Proof. intros HS H p Hp Hn. apply H; [done|]. intros ?. by apply Hn, HS. Qed.

Lemma keeps_dirs_refl f : keeps_dirs f f.
Proof. by intros p s m. Qed.

Lemma keeps_dirs_trans f1 f2 f3 :
  keeps_dirs f1 f2 → keeps_dirs f2 f3 → keeps_dirs f1 f3.
Proof. intros H1 H2 p s m Hp. by apply H2, H1. Qed.

Lemma unlink_keeps f p f' :
  unlink f p = Some f' → keeps (λ q, q = p) f f' ∧ keeps_dirs f f'.
Proof.
  unfold unlink. destruct (f !! p) as [[d m r []|]|] eqn:E; try done.
  intros [= <-]. split.
  - intros q _ Hq. by rewrite lookup_delete_ne.
  - intros q s m' Hq. rewrite lookup_delete_ne; [done|]. congruence.
Qed.

Lemma below_category (c x : string) (rest : path) :
  below [c] (c :: x :: rest) = true.
Proof. apply bool_decide_eq_true. by split. Qed.

Lemma removelast_category (dst : path) (c : string) :
  removelast dst = [c] → ∃ x, dst = [c; x].
Proof.
  intros H. destruct dst as [|a [|b [|d dst]]]; simpl in H; try done.
  injection H as ->. by exists b.
Qed.

(** A move into the folder of [c] changes the source path and an entry
    inside that folder, overwrites no directory, and puts the node of the
    source, as it was, at a path other than the source. *)
Lemma shutil_move_keeps f src dst c f' :
  shutil_move f src dst = Some f' → removelast dst = [c] →
  keeps (λ q, q = src ∨ below [c] q = true) f f'
  ∧ keeps_dirs f f'
  ∧ ∃ q n, f !! src = Some n ∧ below [c] q = true ∧ f' !! q = Some n.
Proof.
  intros H Hdst. destruct (removelast_category _ _ Hdst) as [x ->].
  unfold shutil_move in H.
  destruct (f !! src) as [[d m r []|]|] eqn:Es; try done.
  set (q := match f !! [c; x] with
            | Some (Dir _ _) => join [c; x] (name src)
            | _ => [c; x]
            end).
  assert (below [c] q = true) as Hq.
  { unfold q. destruct (f !! [c; x]) as [[|]|]; apply below_category. }
  assert (f' = <[q := File d m r true]> (delete src f)
          ∧ ∀ s' m', f !! q ≠ Some (Dir s' m')) as [-> Hnd].
  { unfold q. destruct (f !! [c; x]) as [[|s' m']|] eqn:Ed.
    - destruct (f !! removelast [c; x]) as [[|]|]; simplify_eq.
      split; [done|]. intros ? ?. by rewrite Ed.
    - destruct (exists_ f (join [c; x] (name src))) eqn:Ex; [done|].
      destruct (f !! removelast (join [c; x] (name src))) as [[|]|];
        simplify_eq.
      split; [done|]. intros ? ? Hl.
      apply bool_decide_eq_false in Ex. apply Ex. eauto.
    - destruct (f !! removelast [c; x]) as [[|]|]; simplify_eq.
      split; [done|]. intros ? ?. by rewrite Ed. }
  split_and!.
  - intros p _ Hp. rewrite lookup_insert_ne, lookup_delete_ne; [done|..].
    + intros ->. apply Hp. by left.
    + intros ->. apply Hp. by right.
  - intros p s' m' Hp. rewrite lookup_insert_ne, lookup_delete_ne; [done|..].
    + intros ->. congruence.
    + intros ->. by eapply Hnd.
  - exists q, (File d m r true). split_and!; [done..|].
    by rewrite lookup_insert_eq.
Qed.

Lemma drop_duplicate_keeps org file_path w :
  keeps (λ q, q = file_path) (fs w) (fs (drop_duplicate org file_path w))
  ∧ keeps_dirs (fs w) (fs (drop_duplicate org file_path w)).
Proof.
  unfold drop_duplicate. destruct (dry_run org); simpl;
    [split; [apply keeps_refl | apply keeps_dirs_refl]|].
  destruct (unlink (fs w) file_path) as [f'|] eqn:U; simpl.
  - by apply unlink_keeps.
  - split; [apply keeps_refl | apply keeps_dirs_refl].
Qed.

Lemma place_keeps org category file_path w :
  keeps (λ q, q = file_path ∨ below [category] q = true)
    (fs w) (fs (place org category file_path w).1)
  ∧ keeps_dirs (fs w) (fs (place org category file_path w).1).
Proof.
  unfold place.
  pose proof (get_unique_filename_effect org file_path [category] w) as G.
  destruct (get_unique_filename org file_path [category] w) as [w1 [up|]];
    simpl in G.
  - destruct G as (F & _ & Hup).
    assert (keeps (λ q, q = file_path ∨ below [category] q = true)
              (fs w) (fs w1) ∧ keeps_dirs (fs w) (fs w1)) as Hid.
    { rewrite F. split; [apply keeps_refl | apply keeps_dirs_refl]. }
    destruct (check_case_insensitive_duplicate _ _ _); [|done].
    destruct (dry_run org); simpl; [done|].
    destruct (shutil_move (fs w1) file_path up) as [f'|] eqn:M;
      [|by simpl].
    apply (shutil_move_keeps _ _ _ category) in M as (K & D & _); [|done].
    rewrite F in K, D. by case_bool_decide.
  - destruct G as (wm & F & _ & ->).
    pose proof (drop_duplicate_keeps org file_path wm) as [K D].
    rewrite F in K, D. split; [|done].
    eapply keeps_mono; [|exact K]. intros q ->. by left.
Qed.

Lemma first_category_elem cats file_ext c :
  first_category cats file_ext = Some c → c ∈ cats.*1.
Proof.
  intros (pre & e & post & -> & _)%first_category_spec.
  rewrite fmap_app, fmap_cons. apply elem_of_app. right. apply list_elem_of_here.
Qed.

Lemma process_file_keeps org w file_path :
  keeps (λ q, q = file_path ∨ inside_category org q)
    (fs w) (fs (process_file org w file_path).1)
  ∧ keeps_dirs (fs w) (fs (process_file org w file_path).1).
Proof.
  rewrite process_file_first.
  destruct (first_category _ _) as [c|] eqn:E.
  - destruct (place_keeps org c file_path w) as [K D]. split; [|done].
    eapply keeps_mono; [|exact K]. intros q [->|Hq]; [by left|].
    right. exists c. split; [by eapply first_category_elem | done].
  - split; [apply keeps_refl | apply keeps_dirs_refl].
Qed.

Lemma process_files_keeps org files :
  ∀ w,
    keeps (λ q, q ∈ files ∨ inside_category org q)
      (fs w) (fs (process_files org files w).1)
    ∧ keeps_dirs (fs w) (fs (process_files org files w).1).
Proof.
  induction files as [|f files IH]; intros w; simpl.
  { split; [apply keeps_refl | apply keeps_dirs_refl]. }
  destruct (process_file_keeps org w f) as [K1 D1].
  destruct (process_file org w f) as [w1 [[]|]]; simpl in *.
  - destruct (IH w1) as [K2 D2]. split; [|by eapply keeps_dirs_trans].
    eapply keeps_trans.
    + eapply keeps_mono; [|exact K1]. intros q [->|?]; [left|by right].
      apply list_elem_of_here.
    + eapply keeps_mono; [|exact K2]. intros q [?|?]; [left|by right].
      by apply list_elem_of_further.
  - split; [|done]. eapply keeps_mono; [|exact K1].
    intros q [->|?]; [left|by right]. apply list_elem_of_here.
Qed.

(** X12: [organize_files] leaves alone everything that it did not
    collect and that lies outside the category folders.  Hidden files,
    [.log] files, directories (the category folders among them) and the
    files in other subfolders are, after the run, what they were before
    it, whether the run returns or raises. *)
Theorem organize_files_leaves_the_rest org w p :
  is_Some (fs w !! p) →
  ¬ collected (fs w) p →
  ¬ inside_category org p →
  fs (organize_files org w).1 !! p = fs w !! p.
Proof.
  intros Hp Hnc Hni.
  destruct (fs w !! []) as [[|s m]|] eqn:H0.
  - (* the source folder is a regular file *)
    unfold organize_files. destruct (exists_ (fs w) []); simpl; [|done].
    unfold create_category_folders.
    pose proof (create_folders_spec org (categories org).*1 w)
      as (_ & _ & [Sub _] & _).
    destruct Hp as [n Hn].
    destruct (create_folders org _ w) as [w1 [[]|]]; simpl in *;
      [|rewrite Hn; by eapply lookup_weaken].
    unfold files_to_process, iterdir.
    rewrite (lookup_weaken _ _ _ _ H0 Sub). simpl.
    rewrite Hn. by eapply lookup_weaken.
  - destruct (organize_files_dir org w s m H0)
      as (w1 & files & _ & _ & [Sub _] & _ & _ & _ & Hmem & ->).
    destruct (process_files_keeps org files
                (set_stats (set_processed (length files) (stats w1)) w1))
      as [K _].
    destruct Hp as [n Hn].
    assert (fs w1 !! p = Some n) as Hn1 by by eapply lookup_weaken.
    destruct (process_files _ _ _) as [w3 [[]|]]; simpl in *;
      rewrite Hn, <-Hn1; apply K; eauto;
      intros [Hin|?]; [by apply Hnc, Hmem|done|by apply Hnc, Hmem|done].
  - by rewrite organize_files_absent.
Qed.

(** ** The I/O calls of organize_files *)

Lemma create_folders_events org cats :
  ∀ w, since (λ e, ∃ c, c ∈ cats ∧ e = MadeDir [c]) w
         (create_folders org cats w).1.
Proof.
  induction cats as [|c cats IH]; intros w; simpl; [apply since_refl|].
  assert (∀ w1, since (λ e, ∃ c0, c0 ∈ cats ∧ e = MadeDir [c0]) w1
                  (create_folders org cats w1).1 →
                since (λ e, ∃ c0, c0 ∈ c :: cats ∧ e = MadeDir [c0]) w1
                  (create_folders org cats w1).1) as Hweak.
  { intros w1. apply since_mono. intros e (c0 & ? & ->).
    exists c0. split; [by apply list_elem_of_further | done]. }
  destruct (exists_ (fs w) [c]); simpl; [by apply Hweak|].
  destruct (dry_run org); simpl; [by apply Hweak|].
  assert (since (λ e, ∃ c0, c0 ∈ c :: cats ∧ e = MadeDir [c0]) w
            (emit (MadeDir [c]) w)) as Hemit.
  { apply (since_emit _ (MadeDir [c])); [|done].
    exists c. split; [apply list_elem_of_here | done]. }
  destruct (mkdir_parents _ _ _) as [f'|]; simpl; [|done].
  eapply since_trans; [|apply Hweak, IH].
  destruct Hemit as (evs & T & Hall). by exists evs.
Qed.

Lemma process_files_events org files :
  ∀ w,
    since (λ e, hashing e
                ∨ ∃ file_path,
                    file_path ∈ files
                    ∧ (e = Unlinked file_path
                       ∨ ∃ dst c, c ∈ (categories org).*1
                                  ∧ e = Moved file_path dst
                                  ∧ removelast dst = [c]))
      w (process_files org files w).1.
Proof.
  induction files as [|f files IH]; intros w; simpl; [apply since_refl|].
  assert (since (λ e, hashing e
                      ∨ ∃ file_path,
                          file_path ∈ f :: files
                          ∧ (e = Unlinked file_path
                             ∨ ∃ dst c, c ∈ (categories org).*1
                                        ∧ e = Moved file_path dst
                                        ∧ removelast dst = [c]))
            w (process_file org w f).1) as H1.
  { rewrite process_file_first.
    destruct (first_category _ _) as [c|] eqn:E; [|by apply since_same].
    eapply since_mono; [|apply place_events].
    intros e [?|[->|(dst & -> & ?)]]; [by left|right..];
      exists f; (split; [apply list_elem_of_here|]); [by left|].
    right. exists dst, c. split_and!; [|done..].
    by eapply first_category_elem. }
  destruct (process_file org w f) as [w1 [[]|]]; simpl in *; [|done].
  eapply since_trans; [exact H1|].
  eapply since_mono; [|apply IH].
  intros e [?|(fp & ? & ?)]; [by left|right].
  exists fp. split; [by apply list_elem_of_further | done].
Qed.

(** X13: the I/O calls that [organize_files] makes, whether it returns
    or raises, are of three kinds only: a file is read for hashing, the
    folder of a category is created, or a file collected from the disk as
    it was at the start is unlinked or moved to a path directly inside the
    folder of a category.  Nothing is written, and nothing else is
    unlinked or moved. *)
Theorem organize_files_calls org w :
  since (organizing org (fs w)) w (organize_files org w).1.
Proof.
  assert (∀ w1, since (λ e, ∃ c, c ∈ (categories org).*1 ∧ e = MadeDir [c])
                  w w1 → since (organizing org (fs w)) w w1) as Hmk.
  { intros w1. apply since_mono. intros e ?. right. by left. }
  destruct (fs w !! []) as [[|s m]|] eqn:H0.
  - unfold organize_files. destruct (exists_ (fs w) []); simpl;
      [|apply since_refl].
    unfold create_category_folders.
    pose proof (create_folders_events org (categories org).*1 w) as T.
    pose proof (create_folders_spec org (categories org).*1 w)
      as (_ & _ & [Sub _] & _).
    destruct (create_folders org _ w) as [w1 [[]|]]; simpl in *;
      [|by apply Hmk].
    unfold files_to_process, iterdir.
    rewrite (lookup_weaken _ _ _ _ H0 Sub). simpl. by apply Hmk.
  - destruct (organize_files_dir org w s m H0)
      as (w1 & files & Hc & _ & _ & _ & _ & _ & Hmem & ->).
    pose proof (create_folders_events org (categories org).*1 w) as T.
    unfold create_category_folders in Hc. rewrite Hc in T. simpl in T.
    pose proof (process_files_events org files
                  (set_stats (set_processed (length files) (stats w1)) w1))
      as T2.
    assert (since (organizing org (fs w)) w
              (process_files org files
                 (set_stats (set_processed (length files) (stats w1)) w1)).1)
      as Hall.
    { eapply since_trans; [apply Hmk, T|].
      eapply since_trans; [by apply since_same|].
      eapply since_mono; [|exact T2].
      intros e [?|(fp & Hin & He)]; [by left|]. right; right.
      exists fp. split; [by apply Hmem | done]. }
    by destruct (process_files _ _ _) as [w3 [[]|]].
  - rewrite organize_files_absent by done. apply since_refl.
Qed.

(** ** No file is lost *)

Lemma get_file_hash_lookup w w' p q :
  fs w !! p = fs w' !! q → (get_file_hash w p).2 = (get_file_hash w' q).2.
Proof.
  unfold get_file_hash; simpl. intros ->.
  repeat case_match; simplify_eq; done.
Qed.

Lemma removelast_candidate target_folder file_path k :
  removelast (candidate target_folder file_path k) = target_folder.
Proof.
  unfold candidate. destruct k; [apply removelast_join|].
  destruct (split_name _). apply removelast_join.
Qed.

(** X14: [process_file] removes a file of the source folder only when an
    entry that compares equal stays behind.  With a coherent cache, after
    the call the file is still at its path as it was, or the very same
    node is at another path (it was moved), or it was unlinked as a
    duplicate and another path holds an entry of the same size whose hash
    is the non-empty hash of the file. *)
Theorem source_file_is_never_lost org w file_path nf :
  cache_coherent w →
  child_of [] file_path = true →
  fs w !! file_path = Some nf →
  let w' := (process_file org w file_path).1 in
  fs w' !! file_path = Some nf
  ∨ (∃ q, q ≠ file_path ∧ fs w' !! q = Some nf)
  ∨ (∃ q nq,
       q ≠ file_path ∧ fs w' !! q = Some nq
       ∧ st_size nq = st_size nf
       ∧ (get_file_hash w' q).2 = (get_file_hash w file_path).2
       ∧ (get_file_hash w file_path).2 ≠ EmptyString).
Proof.
  intros Hc Hchild Hf. simpl.
  apply bool_decide_eq_true in Hchild as [Hne Hroot].
  rewrite process_file_first.
  destruct (first_category _ _) as [c|]; [|by left].
  unfold place.
  pose proof (get_unique_filename_effect org file_path [c] w) as G.
  pose proof (get_unique_filename_duplicate org file_path [c] w) as Hdup.
  destruct (get_unique_filename org file_path [c] w) as [w1 [up|]];
    simpl in G.
  - destruct G as (F & _ & Hup).
    destruct (check_case_insensitive_duplicate _ _ _); simpl;
      [|left; by rewrite F].
    destruct (dry_run org); simpl; [left; by rewrite F|].
    destruct (shutil_move (fs w1) file_path up) as [f'|] eqn:M;
      [|left; simpl; by rewrite F].
    apply (shutil_move_keeps _ _ _ c) in M as (_ & _ & q & n & Hs & Hq & Hl);
      [|done].
    rewrite F, Hf in Hs. injection Hs as <-.
    right; left. exists q. split.
    + intros ->. apply bool_decide_eq_true in Hq as [Hq1 Hq2].
      destruct file_path as [|x1 [|x2 rest]]; simpl in *; simplify_eq.
    + by case_bool_decide.
  - destruct (Hdup w1 Hc eq_refl)
      as (k & nf' & nq & _ & Lf & Lq & Hsz & Eh & Nh & _ & _ & Hdry & Hreal).
    rewrite Hf in Lf. injection Lf as <-.
    assert (candidate [c] file_path k ≠ file_path) as Hqf.
    { intros Heq. pose proof (removelast_candidate [c] file_path k) as Hr.
      rewrite Heq, Hroot in Hr. done. }
    cbn [fst]. destruct (dry_run org) eqn:Ed.
    + destruct (Hdry eq_refl) as (F & _). left. by rewrite F.
    + destruct (Hreal eq_refl) as [(U & _)|(_ & F & _)];
        [|left; by rewrite F].
      right; right. exists (candidate [c] file_path k), nq.
      apply unlink_keeps in U as [K _].
      assert (fs w1 !! candidate [c] file_path k = Some nq) as Lq'.
      { rewrite K; [done|eauto|done]. }
      split_and!; [done..|congruence| |done].
      rewrite Eh. apply get_file_hash_lookup. congruence.
Qed.

(** ** When organize_files raises *)

Lemma check_returns f filename target_folder s m :
  f !! target_folder = Some (Dir s m) →
  ∃ b, check_case_insensitive_duplicate f filename target_folder = Ret b.
Proof.
  intros H. unfold check_case_insensitive_duplicate, iterdir. rewrite H. eauto.
Qed.

Lemma unique_loop_free fuel org file_path target_folder base_name extension
    counter new_path iters w :
  exists_ (fs w) new_path = false →
  unique_loop fuel org file_path target_folder base_name extension
    counter new_path iters w
  = Some (w, mkNaming (Some new_path) iters counter false).
Proof. intros H. destruct fuel; simpl; by rewrite H. Qed.

(** A file whose category folder is missing makes [process_file] raise,
    in any mode: the natural destination is free, and listing the folder
    fails. *)
Lemma process_file_raises org w file_path c :
  first_category (categories org) (lower (suffix file_path)) = Some c →
  fs w !! [c] = None →
  fs w !! join [c] (name file_path) = None →
  process_file org w file_path = (w, Exc).
Proof.
  intros Hc Hd Hfree. rewrite process_file_first, Hc.
  unfold place, get_unique_filename, get_unique_filename_fuel.
  destruct (split_name (name file_path)) as [b e].
  rewrite unique_loop_free.
  - simpl. unfold check_case_insensitive_duplicate, iterdir. by rewrite Hd.
  - apply bool_decide_eq_false. rewrite Hfree. by intros [? ?].
Qed.

Lemma process_files_raises org file_path c :
  dry_run org = true →
  first_category (categories org) (lower (suffix file_path)) = Some c →
  ∀ files w,
    file_path ∈ files →
    fs w !! [c] = None →
    fs w !! join [c] (name file_path) = None →
    (process_files org files w).2 = Exc.
Proof.
  intros Hdry Hc. induction files as [|f files IH]; intros w Hin Hd Hfree.
  { by apply elem_of_nil in Hin. }
  simpl. pose proof (process_file_preview org w f Hdry) as (F & _).
  destruct (decide (f = file_path)) as [->|Hne].
  - by rewrite (process_file_raises org w file_path c).
  - destruct (process_file org w f) as [w1 [[]|]]; simpl in *; [|done].
    apply IH; [|by rewrite F..].
    apply elem_of_cons in Hin as [?|?]; [congruence | done].
Qed.

(** X16: a dry run raises when it meets a file whose category folder is
    missing.  If the source folder is a directory, a collected file
    belongs to a category, and neither the folder of that category nor the
    file's natural destination in it exists, [organize_files] in dry-run
    mode ends with an exception: the folder is not created in a dry run,
    and listing it for the case-insensitive check fails outside any
    [try]. *)
Theorem dry_run_raises_without_folder org w s m file_path c :
  dry_run org = true →
  fs w !! [] = Some (Dir s m) →
  collected (fs w) file_path →
  first_category (categories org) (lower (suffix file_path)) = Some c →
  fs w !! [c] = None →
  fs w !! join [c] (name file_path) = None →
  (organize_files org w).2 = Exc.
Proof.
  intros Hdry H0 Hcol Hc Hd Hfree.
  destruct (organize_files_dir org w s m H0)
    as (w1 & files & _ & _ & _ & Hw & _ & _ & Hmem & ->).
  rewrite (Hw Hdry).
  pose proof (process_files_raises org file_path c Hdry Hc files
                (set_stats (set_processed (length files) (stats w)) w))
    as Hr.
  destruct (process_files _ _ _) as [w3 r]; simpl in *.
  rewrite Hr; [done|by apply Hmem|done..].
Qed.

(** ** The groups of find_all_duplicates *)

Lemma group_add_keys h p (d : list (string * list path)) k :
  k ∈ (group_add h p d).*1 ↔ k ∈ d.*1 ∨ k = h.
Proof.
  induction d as [|[h' files] d IH]; cbn [group_add].
  - rewrite fmap_cons. simpl. rewrite list_elem_of_singleton.
    split; [auto|]. intros [?%elem_of_nil|?]; done.
  - destruct (String.eqb h h') eqn:E.
    + apply String.eqb_eq in E as ->. rewrite !fmap_cons. simpl.
      rewrite !elem_of_cons. tauto.
    + rewrite !fmap_cons. simpl. rewrite !elem_of_cons, IH. tauto.
Qed.

Lemma group_add_NoDup h p (d : list (string * list path)) :
  NoDup d.*1 → NoDup (group_add h p d).*1.
Proof.
  induction d as [|[h' files] d IH]; cbn [group_add]; intros Hnd.
  - rewrite fmap_cons. simpl. apply NoDup_singleton.
  - rewrite fmap_cons in Hnd. simpl in Hnd.
    apply NoDup_cons in Hnd as [Hnin Hnd].
    destruct (String.eqb h h') eqn:E.
    + rewrite fmap_cons. simpl. by apply NoDup_cons.
    + rewrite fmap_cons. simpl. apply NoDup_cons. split; [|by apply IH].
      rewrite group_add_keys. intros [? | ->]; [done|].
      by rewrite String.eqb_refl in E.
Qed.

(** Adding [p] under [h] keeps every member where it was and puts [p] in
    the group of [h]. *)
Lemma group_add_members_kept h p (d : list (string * list path)) h' q :
  ((∃ files, (h', files) ∈ d ∧ q ∈ files) ∨ (h' = h ∧ q = p)) →
  ∃ files, (h', files) ∈ group_add h p d ∧ q ∈ files.
Proof.
  induction d as [|[h0 files0] d IH]; cbn [group_add].
  - intros [(files & ?%elem_of_nil & _)|[-> ->]]; [done|].
    exists [p]. split; apply list_elem_of_here.
  - destruct (String.eqb h h0) eqn:E.
    + apply String.eqb_eq in E as ->.
      intros [(files & [[= -> ->]|Hin]%elem_of_cons & Hq)|[-> ->]].
      * exists (files0 ++ [p]). split; [apply list_elem_of_here|].
        apply elem_of_app. by left.
      * exists files. split; [by apply list_elem_of_further | done].
      * exists (files0 ++ [p]). split; [apply list_elem_of_here|].
        apply elem_of_app. right. apply list_elem_of_here.
    + intros [(files & [[= -> ->]|Hin]%elem_of_cons & Hq)|Hnew].
      * exists files0. split; [apply list_elem_of_here | done].
      * destruct IH as (files' & ? & ?); [left; eauto|].
        exists files'. split; [by apply list_elem_of_further | done].
      * destruct IH as (files' & ? & ?); [by right|].
        exists files'. split; [by apply list_elem_of_further | done].
Qed.

(** Every member of a group after the addition was one before, or is
    [p] in the group of [h]. *)
Lemma group_add_members_from h p (d : list (string * list path)) h' files q :
  (h', files) ∈ group_add h p d → q ∈ files →
  (∃ files0, (h', files0) ∈ d ∧ q ∈ files0) ∨ (h' = h ∧ q = p).
Proof.
  induction d as [|[h0 files0] d IH]; cbn [group_add].
  - intros [= -> ->]%list_elem_of_singleton ->%list_elem_of_singleton.
    by right.
  - destruct (String.eqb h h0) eqn:E.
    + apply String.eqb_eq in E as ->.
      intros [[= -> ->]|Hin]%elem_of_cons Hq.
      * apply elem_of_app in Hq as [Hq | ->%list_elem_of_singleton];
          [|by right].
        left. exists files0. split; [apply list_elem_of_here | done].
      * left. exists files. split; [by apply list_elem_of_further | done].
    + intros [[= -> ->]|Hin]%elem_of_cons Hq.
      * left. exists files0. split; [apply list_elem_of_here | done].
      * destruct (IH Hin Hq) as [(f0 & ? & ?)|?]; [|by right].
        left. exists f0. split; [by apply list_elem_of_further | done].
Qed.

Lemma hash_files_groups all_files :
  ∀ duplicates w,
    let r := hash_files all_files duplicates w in
    (NoDup duplicates.*1 → NoDup r.2.*1)
    ∧ (∀ h files q, (h, files) ∈ r.2 → q ∈ files →
         (∃ files0, (h, files0) ∈ duplicates ∧ q ∈ files0)
         ∨ (q ∈ all_files ∧ (get_file_hash w q).2 = h ∧ h ≠ EmptyString))
    ∧ (∀ h q,
         (∃ files0, (h, files0) ∈ duplicates ∧ q ∈ files0)
         ∨ (q ∈ all_files ∧ (get_file_hash w q).2 = h ∧ h ≠ EmptyString) →
         ∃ files, (h, files) ∈ r.2 ∧ q ∈ files).
Proof.
  induction all_files as [|p files IH]; intros d w; cbn [hash_files].
  { cbn [snd]. split_and!; auto.
    - intros h fs0 q ? ?. left. eauto.
    - intros h q [?|(?%elem_of_nil & _)]; done. }
  pose proof (get_file_hash_world w p) as Hw.
  destruct (get_file_hash w p) as [w1 h] eqn:G; simpl in Hw; subst w1.
  assert (∀ q, (get_file_hash (emit (Hashed p) w) q).2
               = (get_file_hash w q).2) as Hsame
    by (intros q; by apply get_file_hash_fs).
  assert ((get_file_hash w p).2 = h) as Hp by by rewrite G.
  destruct (truthy h) eqn:Ht.
  - assert (h ≠ EmptyString) as Hne.
    { unfold truthy in Ht. by apply negb_true_iff, String.eqb_neq in Ht. }
    destruct (IH (group_add h p d) (emit (Hashed p) w)) as (N & From & To).
    split_and!.
    + intros Hnd. by apply N, group_add_NoDup.
    + intros h' fs0 q Hin Hq.
      destruct (From h' fs0 q Hin Hq) as [(f0 & Hin0 & Hq0)|(? & ? & ?)].
      * destruct (group_add_members_from _ _ _ _ _ _ Hin0 Hq0)
          as [?|[-> ->]]; [by left|].
        right. split_and!; [apply list_elem_of_here|done..].
      * right. split_and!; [by apply list_elem_of_further| |done].
        by rewrite <-Hsame.
    + intros h' q Hq. apply To.
      destruct Hq as [Hold|([->|Hin]%elem_of_cons & Hh & Hn)].
      * left. apply group_add_members_kept. by left.
      * left. apply group_add_members_kept. right. split; congruence.
      * right. by rewrite Hsame.
  - assert (h = EmptyString) as ->.
    { unfold truthy in Ht. by apply negb_false_iff, String.eqb_eq in Ht. }
    destruct (IH d (emit (Hashed p) w)) as (N & From & To).
    split_and!; [done| |].
    + intros h' fs0 q Hin Hq.
      destruct (From h' fs0 q Hin Hq) as [?|(? & ? & ?)]; [by left|].
      right. split_and!; [by apply list_elem_of_further| |done].
      by rewrite <-Hsame.
    + intros h' q Hq. apply To.
      destruct Hq as [Hold|([->|Hin]%elem_of_cons & Hh & Hn)];
        [by left|congruence|].
      right. by rewrite Hsame.
Qed.

Lemma NoDup_fst_unique {A B : Type} (l : list (A * B)) a b1 b2 :
  NoDup l.*1 → (a, b1) ∈ l → (a, b2) ∈ l → b1 = b2.
Proof.
  induction l as [|[a' b'] l IH]; [by intros _ ?%elem_of_nil|].
  rewrite fmap_cons. simpl. intros [Hnin Hnd]%NoDup_cons.
  intros [[= -> ->]|H1]%elem_of_cons [[= ?]|H2]%elem_of_cons; try done.
  - destruct Hnin. apply list_elem_of_fmap. by exists (a', b2).
  - simplify_eq. destruct Hnin. apply list_elem_of_fmap. by exists (a', b1).
  - by apply IH.
Qed.

(** The listing that [find_all_duplicates] hashes. *)
Lemma find_all_duplicates_listing w recursive w1 duplicates :
  find_all_duplicates w recursive = (w1, Ret duplicates) →
  ∃ all_files groups,
    NoDup all_files
    ∧ (∀ p, p ∈ all_files ↔ searched recursive (fs w) p)
    ∧ hash_files all_files [] w = (w1, groups)
    ∧ duplicates = filter (λ g, 1 < length g.2) groups.
Proof.
  unfold find_all_duplicates.
  destruct (if recursive then Some (rglob (fs w) []) else iterdir (fs w) [])
    as [listing|] eqn:L; [|done].
  assert (NoDup listing.*1
          ∧ ∀ p n, (p, n) ∈ listing ↔
                   fs w !! p = Some n
                   ∧ (if recursive then below [] p else child_of [] p) = true)
    as [Hnd Hin].
  { destruct recursive.
    - injection L as <-. split.
      + apply (sublist_NoDup _ (scandir (map_to_list (fs w))).*1).
        * rewrite scandir_perm. apply NoDup_fst_map_to_list.
        * apply fmap_sublist, sublist_filter.
      + intros p n. unfold rglob.
        rewrite list_elem_of_filter, scandir_perm, elem_of_map_to_list.
        simpl. rewrite Is_true_true. tauto.
    - split; [by eapply iterdir_NoDup|].
      intros p n. by apply iterdir_elem. }
  destruct (hash_files _ [] w) as [w2 groups] eqn:H. intros [= <- <-].
  eexists _, groups. split_and!; [| |exact H|done].
  - eapply sublist_NoDup; [exact Hnd|]. apply fmap_sublist, sublist_filter.
  - intros p. rewrite list_elem_of_fmap. split.
    + intros ([p' n] & -> & [Hv Hl]%list_elem_of_filter). simpl.
      apply Is_true_true in Hv. unfold visible_file in Hv. simpl in Hv.
      apply andb_true_iff in Hv as [Hf Hh]. apply negb_true_iff in Hh.
      apply Hin in Hl as [? ?]. by exists n.
    + intros (n & Hl & Hf & Hh & Hs). exists (p, n). split; [done|].
      apply list_elem_of_filter. split; [|by apply Hin].
      apply Is_true_true. unfold visible_file. simpl. by rewrite Hf, Hh.
Qed.

(** X17: the groups of [find_all_duplicates] are sound.  The search
    changes neither the disk nor the counters nor the cache; the keys of
    the dictionary are distinct, non-empty hashes; each group has two
    members or more, no path is in two groups or twice in one; every
    member is a visible regular file of the searched folder whose hash is
    the key of its group. *)
Theorem duplicate_groups_are_sound w recursive w1 duplicates :
  find_all_duplicates w recursive = (w1, Ret duplicates) →
  fs w1 = fs w ∧ stats w1 = stats w ∧ hash_cache w1 = hash_cache w
  ∧ only_hashed w w1
  ∧ NoDup duplicates.*1
  ∧ NoDup (duplicates ≫= snd)
  ∧ ∀ h files, (h, files) ∈ duplicates →
      h ≠ EmptyString ∧ 2 ≤ length files
      ∧ ∀ p, p ∈ files →
             searched recursive (fs w) p ∧ (get_file_hash w p).2 = h.
Proof.
  intros (all_files & groups & Hnd & Hmem & H & ->)%find_all_duplicates_listing.
  pose proof (hash_files_spec all_files [] w)
    as (F & S & C & T & (l & Hl & Hp) & _).
  pose proof (hash_files_groups all_files [] w) as (N & From & _).
  rewrite H in *. cbn [fst snd] in *.
  split_and!; [done..| | |].
  - apply (sublist_NoDup _ groups.*1); [apply N, NoDup_nil_2|].
    apply fmap_sublist, sublist_filter.
  - apply (sublist_NoDup _ (groups ≫= snd)).
    + rewrite Hp. simpl. by eapply sublist_NoDup.
    + apply bind_sublist, sublist_filter.
  - intros h files [Hlen Hin]%list_elem_of_filter. simpl in Hlen.
    assert (∀ p, p ∈ files →
                 searched recursive (fs w) p ∧ (get_file_hash w p).2 = h
                 ∧ h ≠ EmptyString) as Hall.
    { intros p Hpf.
      destruct (From h files p Hin Hpf) as [(? & ?%elem_of_nil & _)|(? & ? & ?)];
        [done|].
      split_and!; [by apply Hmem|done..]. }
    split_and!; [|lia|].
    + destruct files as [|p files]; [simpl in Hlen; lia|].
      apply (Hall p), list_elem_of_here.
    + intros p Hpf. destruct (Hall p Hpf) as (? & ? & _). done.
Qed.

(** X18: the groups of [find_all_duplicates] are complete.  Two different
    visible files of the searched folder that have the same non-empty
    hash are members of one group, the group of that hash. *)
Theorem duplicate_groups_are_complete w recursive w1 duplicates p q :
  find_all_duplicates w recursive = (w1, Ret duplicates) →
  p ≠ q →
  searched recursive (fs w) p → searched recursive (fs w) q →
  (get_file_hash w p).2 = (get_file_hash w q).2 →
  (get_file_hash w p).2 ≠ EmptyString →
  ∃ files,
    ((get_file_hash w p).2, files) ∈ duplicates ∧ p ∈ files ∧ q ∈ files.
Proof.
  intros (all_files & groups & Hnd & Hmem & H & ->)%find_all_duplicates_listing.
  intros Hpq Hp Hq Heq Hne.
  pose proof (hash_files_groups all_files [] w) as (N & _ & To).
  pose proof (hash_files_spec all_files [] w) as (_ & _ & _ & _ & (l & Hl & Hperm) & _).
  rewrite H in *. cbn [fst snd] in *.
  destruct (To (get_file_hash w p).2 p) as (files & Hin & Hpf).
  { right. split_and!; [by apply Hmem|done..]. }
  destruct (To (get_file_hash w p).2 q) as (files' & Hin' & Hqf).
  { right. split_and!; [by apply Hmem|done..]. }
  assert (files' = files) as ->
    by (eapply NoDup_fst_unique; [apply N, NoDup_nil_2|done..]).
  exists files. split_and!; [|done..].
  apply list_elem_of_filter. split; [|done]. simpl.
  destruct files as [|a [|b files]]; simpl; [| |lia].
  - by apply elem_of_nil in Hpf.
  - apply list_elem_of_singleton in Hpf, Hqf. congruence.
Qed.

(** ** What remove_duplicates removes and counts *)

Lemma size_delete_Some (f : filesystem) p n :
  f !! p = Some n → size f = S (size (delete p f)).
Proof.
  intros Hp. rewrite map_size_delete_Some by eauto.
  assert (size f ≠ 0) by (eapply map_size_ne_0_lookup_2; eauto). lia.
Qed.

(** Every confirmed unlink is counted once and takes one entry off the
    disk; nothing else changes the disk. *)
Lemma delete_rest_count org others :
  ∀ n w,
    let r := delete_rest org others n w in
    fs r.1 ⊆ fs w
    ∧ r.2 + size (fs r.1) = n + size (fs w)
    ∧ (dry_run org = false → ∀ p d m rd,
         p ∈ others.*1 → fs w !! p = Some (File d m rd true) →
         fs r.1 !! p = None).
Proof.
  induction others as [|[p mt] others IH]; intros n w; simpl.
  { split_and!; [done..|]. by intros _ p d m rd ?%elem_of_nil. }
  destruct (dry_run org) eqn:Hdry; simpl.
  { destruct (IH n w) as (Sub & Cnt & _). split_and!; done. }
  unfold unlink. simpl.
  destruct (fs w !! p) as [[d0 m0 rd0 [] | ] | ] eqn:E.
  - destruct (IH (S n) (set_fs (delete p (fs w)) (emit (Unlinked p) w)))
      as (Sub & Cnt & Gone). simpl in Sub, Cnt, Gone.
    split_and!.
    + etrans; [exact Sub | apply delete_subseteq].
    + rewrite Cnt, (size_delete_Some (fs w) p _ E). lia.
    + intros _ q d m rd Hq Hf. destruct (decide (q = p)) as [->|Hne].
      * eapply lookup_weaken_None; [|exact Sub]. apply lookup_delete_eq.
      * apply elem_of_cons in Hq as [?|Hq]; [done|].
        eapply Gone; [done..|]. by rewrite lookup_delete_ne.
  - destruct (IH n (emit (Unlinked p) w)) as (Sub & Cnt & Gone).
    simpl in Sub, Cnt, Gone. split_and!; [done..|].
    intros _ q d m rd Hq Hf. destruct (decide (q = p)) as [->|Hne];
      [congruence|].
    apply elem_of_cons in Hq as [?|Hq]; [done|]. by eapply Gone.
  - destruct (IH n (emit (Unlinked p) w)) as (Sub & Cnt & Gone).
    simpl in Sub, Cnt, Gone. split_and!; [done..|].
    intros _ q d m rd Hq Hf. destruct (decide (q = p)) as [->|Hne];
      [congruence|].
    apply elem_of_cons in Hq as [?|Hq]; [done|]. by eapply Gone.
  - destruct (IH n (emit (Unlinked p) w)) as (Sub & Cnt & Gone).
    simpl in Sub, Cnt, Gone. split_and!; [done..|].
    intros _ q d m rd Hq Hf. destruct (decide (q = p)) as [->|Hne];
      [congruence|].
    apply elem_of_cons in Hq as [?|Hq]; [done|]. by eapply Gone.
Qed.

Lemma remove_groups_count org keep_oldest groups :
  ∀ n w,
    NoDup (groups ≫= snd) →
    (∀ g p, g ∈ groups → p ∈ g.2 → is_Some (fs w !! p)) →
    (∀ g, g ∈ groups → g.2 ≠ []) →
    ∃ w' n',
      remove_groups org keep_oldest groups n w = (w', Ret n')
      ∧ fs w' ⊆ fs w
      ∧ n' + size (fs w') = n + size (fs w)
      ∧ (dry_run org = false → ∀ p d m rd,
           p ∈ groups ≫= (λ g, doomed keep_oldest (fs w) g.2) →
           fs w !! p = Some (File d m rd true) → fs w' !! p = None).
Proof.
  induction groups as [|[h files] groups IH]; intros n w Hnd Hex Hne;
    cbn [remove_groups].
  { exists w, n. split_and!; [done..|]. by intros _ p d m rd ?%elem_of_nil. }
  rewrite bind_cons in Hnd. simpl in Hnd.
  apply NoDup_app in Hnd as (Hnf & Hdisj & Hnd).
  destruct (group_plan_is_Some keep_oldest (fs w) files) as [[k os] Hplan].
  { apply (Hne (h, files)), list_elem_of_here. }
  { intros p Hp. apply (Hex (h, files)); [apply list_elem_of_here | done]. }
  pose proof (group_plan_perm _ _ _ _ _ Hplan) as Hperm.
  assert (doomed keep_oldest (fs w) files = os) as Hdoomed
    by (unfold doomed; by rewrite Hplan).
  unfold group_plan in Hplan.
  destruct (with_mtime (fs w) files) as [l|]; [|done].
  destruct (keep_order keep_oldest l) as [|k' others]; [done|].
  injection Hplan as <- <-.
  pose proof (delete_rest_spec org others n w) as (_ & _ & F1 & _).
  pose proof (delete_rest_count org others n w) as (Sub1 & Cnt1 & Gone1).
  destruct (delete_rest org others n w) as [w1 n1]; cbn [fst snd] in *.
  assert (∀ p, p ∈ groups ≫= snd → fs w1 !! p = fs w !! p) as Hsame.
  { intros p Hp. apply F1. intros Hin. apply (Hdisj p); [|done].
    rewrite <-Hperm. by apply list_elem_of_further. }
  assert (∀ g, g ∈ groups → ∀ p, p ∈ g.2 → fs w1 !! p = fs w !! p) as Hsame'.
  { intros g Hg p Hp. apply Hsame, list_elem_of_bind. eauto. }
  destruct (IH n1 w1 Hnd) as (w' & n' & E & Sub & Cnt & Gone).
  { intros g p Hg Hp. rewrite (Hsame' g Hg p Hp). by eapply Hex;
      [apply list_elem_of_further|]. }
  { intros g Hg. by apply Hne, list_elem_of_further. }
  assert (groups ≫= (λ g, doomed keep_oldest (fs w1) g.2)
          = groups ≫= (λ g, doomed keep_oldest (fs w) g.2)) as Hd.
  { apply bind_ext_elem. intros g Hg. unfold doomed.
    by rewrite (group_plan_ext _ (fs w1) (fs w)) by by apply Hsame'. }
  rewrite Hd in Gone.
  exists w', n'. rewrite bind_cons. cbn [snd]. rewrite Hdoomed.
  split_and!; [done|by etrans|lia|].
  intros Hreal p d m rd [Hp|Hp]%elem_of_app Hf.
  - eapply lookup_weaken_None; [|exact Sub]. by eapply Gone1.
  - eapply Gone; [done..|]. rewrite <-Hf. apply Hsame.
    apply list_elem_of_bind in Hp as (g & Hp & Hg).
    apply list_elem_of_bind. exists g. split; [|done].
    unfold doomed in Hp.
    destruct (group_plan keep_oldest (fs w) g.2) as [[k2 os2]|] eqn:E2;
      [|by apply elem_of_nil in Hp].
    rewrite <-(group_plan_perm _ _ _ _ _ E2). by apply list_elem_of_further.
Qed.

(** X19: [remove_duplicates] only deletes, and counts what it deleted.
    Every entry of the disk afterwards was there before, unchanged; a
    path that no group dooms is as it was; outside a dry run every doomed
    file that can be removed is gone.  [duplicates_removed] grows by the
    number of entries that left the disk, so a file whose unlink failed
    is not counted, and no other counter moves. *)
Theorem remove_duplicates_only_deletes org keep_oldest w :
  ∃ w1 duplicates,
    find_all_duplicates w true = (w1, Ret duplicates)
    ∧ let w' := (remove_duplicates org keep_oldest w).1 in
      let gone := duplicates ≫= (λ g, doomed keep_oldest (fs w) g.2) in
      fs w' ⊆ fs w
      ∧ (∀ p, p ∉ gone → fs w' !! p = fs w !! p)
      ∧ (dry_run org = false → ∀ p d m rd,
           p ∈ gone → fs w !! p = Some (File d m rd true) →
           fs w' !! p = None)
      ∧ duplicates_removed (stats w') + size (fs w')
        = duplicates_removed (stats w) + size (fs w)
      ∧ processed (stats w') = processed (stats w)
      ∧ moved (stats w') = moved (stats w)
      ∧ renamed (stats w') = renamed (stats w)
      ∧ duplicates_found (stats w') = duplicates_found (stats w)
      ∧ errors (stats w') = errors (stats w)
      ∧ skipped (stats w') = skipped (stats w).
Proof.
  destruct (find_all_duplicates_spec w)
    as (w1 & d & E & F & S & _ & _ & Hnd & Hex & Hlen).
  assert (∀ g p, g ∈ d → p ∈ g.2 → is_Some (fs w1 !! p)) as Hex1.
  { intros g p Hg Hp. rewrite F. destruct (Hex g p Hg Hp) as (? & -> & _).
    eauto. }
  assert (∀ g, g ∈ d → g.2 ≠ []) as Hne.
  { intros g Hg Eg. specialize (Hlen g Hg). rewrite Eg in Hlen.
    simpl in Hlen. lia. }
  destruct (remove_groups_spec org keep_oldest d 0 w1 Hnd Hex1 Hne)
    as (w2 & n' & R & S2 & _ & F2 & _).
  destruct (remove_groups_count org keep_oldest d 0 w1 Hnd Hex1 Hne)
    as (w2' & n'' & R' & Sub & Cnt & Gone).
  rewrite R in R'. injection R' as <- <-.
  rewrite F in F2, Sub, Cnt, Gone.
  exists w1, d. split; [done|]. unfold remove_duplicates. rewrite E.
  destruct d as [|g d].
  - simpl in R. injection R as <- <-. simpl.
    rewrite F, S. split_and!; try done. by intros _ p d m rd ?%elem_of_nil.
  - rewrite R. cbn [fst]. simpl stats. simpl fs.
    split_and!; try done; try (simpl; congruence).
    simpl. rewrite S2, S. lia.
Qed.

(** ** The report *)

Lemma write_file_Some f p data now f' :
  write_file f p data now = Some f' →
  (∃ mt rd rm, f' !! p = Some (File data mt rd rm))
  ∧ (∀ q, q ≠ p → f' !! q = f !! q)
  ∧ (∃ s m, f !! removelast p = Some (Dir s m))
  ∧ ∀ s m, f !! p ≠ Some (Dir s m).
Proof.
  unfold write_file.
  destruct (f !! removelast p) as [[|s m]|] eqn:Ed; try done.
  destruct (f !! p) as [[d0 m0 r0 rm0|s0 m0]|] eqn:Ep; try done;
    intros [= <-]; (split_and!; [rewrite lookup_insert_eq; eauto
                               |intros q Hq; by rewrite lookup_insert_ne
                               |eauto|done]).
Qed.

Lemma write_file_None f p data now :
  write_file f p data now = None →
  ¬ ((∃ s m, f !! removelast p = Some (Dir s m))
     ∧ ∀ s m, f !! p ≠ Some (Dir s m)).
Proof.
  unfold write_file. intros H [(s & m & Ed) Hp]. rewrite Ed in H.
  destruct (f !! p) as [[d0 m0 r0 rm0|s0 m0]|] eqn:Ep; try done.
  by apply (Hp s0 m0).
Qed.

(** X20: [save_report] touches one path.  It changes neither the counters
    nor the cache, and no path other than the report path.  A dry run
    writes nothing and returns.  Otherwise either the report path holds,
    as a regular file, the dump of the counters as they are at the call,
    or the call raises and the disk is as it was; it raises exactly when
    the folder of the report is not a directory or the report path is
    one. *)
Theorem save_report_touches_one_path org report_path w :
  let r := save_report org report_path w in
  let p := default default_report report_path in
  stats r.1 = stats w ∧ hash_cache r.1 = hash_cache w
  ∧ (∀ q, q ≠ p → fs r.1 !! q = fs w !! q)
  ∧ (dry_run org = true →
       r.2 = Ret () ∧ fs r.1 = fs w ∧ trace r.1 = trace w)
  ∧ (dry_run org = false →
       trace r.1 = Wrote p :: trace w
       ∧ match r.2 with
         | Ret _ =>
             ∃ mt rd rm,
               fs r.1 !! p
               = Some (File (json_dump (clock w) false (stats w)) mt rd rm)
         | Exc => fs r.1 = fs w
         end
       ∧ (r.2 = Exc ↔
          ¬ ((∃ s m, fs w !! removelast p = Some (Dir s m))
             ∧ ∀ s m, fs w !! p ≠ Some (Dir s m)))).
Proof.
  unfold save_report. cbv zeta.
  set (p := default default_report report_path).
  destruct (dry_run org) eqn:Hdry; cbn [negb].
  { cbn [fst snd tick stats hash_cache fs trace]. split_and!; done. }
  cbn [fs emit tick clock].
  destruct (write_file (fs w) p _ _) as [f'|] eqn:Ew; cbn [fst snd].
  - apply write_file_Some in Ew as (Hp & Hq & Hd & Hnd).
    cbn [set_fs emit tick stats hash_cache fs trace].
    split_and!; [done..|]. intros _. split_and!; [done..|].
    split; [done|]. intros []. done.
  - apply write_file_None in Ew.
    cbn [set_fs emit tick stats hash_cache fs trace].
    split_and!; [done..|]. intros _. split_and!; done.
Qed.

(** ** The table of categories *)

(** X21: the table lists two extensions twice.  An extension listed
    under a category sends a file to that category, with two exceptions
    that the order of the table decides: [.pptx] is listed under
    Presentations but goes to Documents, and [.key] is listed under
    Certificates but goes to Presentations. *)
Theorem listed_extension_goes_to_its_category c exts ext :
  (c, exts) ∈ get_category_mappings → ext ∈ exts →
  first_category get_category_mappings ext = Some c
  ∨ (c = "Presentations" ∧ ext = ".pptx"
     ∧ first_category get_category_mappings ext = Some "Documents")
  ∨ (c = "Certificates" ∧ ext = ".key"
     ∧ first_category get_category_mappings ext = Some "Presentations").
Proof.
  unfold get_category_mappings. intros Hc He.
  repeat (apply elem_of_cons in Hc as [[= -> ->]|Hc];
          [repeat (apply elem_of_cons in He as [->|He];
                   [vm_compute; tauto|]);
           by apply elem_of_nil in He|]).
  by apply elem_of_nil in Hc.
Qed.

(** ** The steps of a dry run *)

Lemma remove_duplicates_dry_calls org keep_oldest w :
  dry_run org = true → only_hashed w (remove_duplicates org keep_oldest w).1.
Proof.
  intros Hdry. unfold remove_duplicates.
  destruct (find_all_duplicates_spec w)
    as (w1 & d & -> & F & _ & _ & T & Hnd & Hex & Hlen).
  destruct d as [|g d]; [done|].
  destruct (remove_groups_spec org keep_oldest (g :: d) 0 w1 Hnd)
    as (w' & n' & -> & _ & _ & _ & _ & evs & Tr & M).
  - intros g' p Hg Hp. rewrite F. destruct (Hex g' p Hg Hp) as (? & -> & _).
    eauto.
  - intros g' Hg E. specialize (Hlen g' Hg). rewrite E in Hlen.
    simpl in Hlen. lia.
  - eapply only_hashed_trans; [exact T|]. apply only_hashed_same. simpl.
    destruct evs as [|e evs]; [done|].
    destruct (proj1 (M e)) as [? _]; [apply list_elem_of_here|congruence].
Qed.

(** X22: in a dry run the three steps of the program change nothing.
    [organize_files], then [remove_duplicates] on what it leaves, then
    [save_report]: after each of them the disk is what it was at the
    start, and every I/O call made is the reading of a file for hashing;
    no folder is created, no file moved or unlinked, no report written. *)
Theorem dry_run_steps_change_nothing org keep_oldest report_path w :
  dry_run org = true →
  let w1 := (organize_files org w).1 in
  let w2 := (remove_duplicates org keep_oldest w1).1 in
  let w3 := (save_report org report_path w2).1 in
  fs w1 = fs w ∧ fs w2 = fs w ∧ fs w3 = fs w
  ∧ only_hashed w w1 ∧ only_hashed w1 w2 ∧ only_hashed w2 w3.
Proof.
  intros Hdry w1 w2 w3.
  pose proof (organize_files_dry org w Hdry) as (F1 & T1 & _).
  pose proof (remove_duplicates_dry org keep_oldest w1 Hdry) as F2.
  pose proof (remove_duplicates_dry_calls org keep_oldest w1 Hdry) as T2.
  fold w1 in F1, T1. fold w2 in F2, T2.
  assert (fs w3 = fs w2 ∧ trace w3 = trace w2) as [F3 T3].
  { subst w3. unfold save_report. by rewrite Hdry. }
  split_and!; [done|congruence|congruence|done|done|].
  by apply only_hashed_same.
Qed.

(** ** Where process_file puts a file *)

Lemma shutil_move_outside f src dst c f' q :
  shutil_move f src dst = Some f' → removelast dst = [c] →
  q ≠ src → below [c] q = false → f' !! q = f !! q.
Proof.
  intros H Hdst Hsrc Hq. destruct (removelast_category _ _ Hdst) as [x ->].
  unfold shutil_move in H.
  destruct (f !! src) as [[d m r []|]|] eqn:Es; try done.
  destruct (f !! [c; x]) as [[|s' m']|] eqn:Ed.
  - destruct (f !! removelast [c; x]) as [[|]|]; simplify_eq.
    rewrite lookup_insert_ne, lookup_delete_ne; [done..|].
    intros <-. by rewrite below_category in Hq.
  - destruct (exists_ f (join [c; x] (name src))); [done|].
    destruct (f !! removelast (join [c; x] (name src))) as [[|]|];
      simplify_eq.
    rewrite lookup_insert_ne, lookup_delete_ne; [done..|].
    intros <-. unfold join in Hq. simpl in Hq.
    by rewrite below_category in Hq.
  - destruct (f !! removelast [c; x]) as [[|]|]; simplify_eq.
    rewrite lookup_insert_ne, lookup_delete_ne; [done..|].
    intros <-. by rewrite below_category in Hq.
Qed.

(** Handling a file for a category changes nothing but the file itself
    and what lies inside the folder of the category. *)
Lemma place_outside org category file_path w q :
  q ≠ file_path → below [category] q = false →
  fs (place org category file_path w).1 !! q = fs w !! q.
Proof.
  intros Hsrc Hq. unfold place.
  pose proof (get_unique_filename_effect org file_path [category] w) as G.
  destruct (get_unique_filename org file_path [category] w) as [w1 [up|]];
    simpl in G.
  - destruct G as (F & _ & Hup). rewrite <-F.
    destruct (check_case_insensitive_duplicate _ _ _); [|done].
    destruct (dry_run org); cbn [negb]; [done|].
    destruct (shutil_move (fs (emit _ w1)) file_path up) as [f'|] eqn:M;
      [|done].
    cbn [emit fs] in M.
    rewrite <-(shutil_move_outside _ _ _ _ _ q M Hup Hsrc Hq).
    by case_bool_decide.
  - destruct G as (wm & F & _ & ->). rewrite <-F. cbn [fst].
    unfold drop_duplicate. destruct (dry_run org); simpl; [done|].
    unfold unlink. destruct (fs wm !! file_path) as [[? ? ? []|]|]; simpl;
      try done.
    by rewrite lookup_delete_ne.
Qed.

(** In a real run a removable file whose natural destination is free, in
    a category folder that is a directory, is moved there under its own
    name. *)
Lemma place_arrives org category file_path w s m d mt rd :
  dry_run org = false →
  fs w !! [category] = Some (Dir s m) →
  fs w !! file_path = Some (File d mt rd true) →
  fs w !! join [category] (name file_path) = None →
  let r := place org category file_path w in
  r.2 = Ret ()
  ∧ fs r.1 = <[join [category] (name file_path) := File d mt rd true]>
               (delete file_path (fs w))
  ∧ moved (stats r.1) = S (moved (stats w))
  ∧ renamed (stats r.1) = renamed (stats w).
Proof.
  intros Hreal Hd Hf Hfree. unfold place, get_unique_filename,
    get_unique_filename_fuel.
  destruct (split_name (name file_path)) as [b e].
  rewrite unique_loop_free
    by (apply bool_decide_eq_false; rewrite Hfree; by intros [? ?]).
  cbn [chosen].
  destruct (check_returns (fs w) (name (join [category] (name file_path)))
              [category] s m Hd) as [dup ->].
  rewrite Hreal. cbn [negb emit fs].
  unfold shutil_move. rewrite Hf, Hfree, removelast_join, Hd.
  rewrite name_join. rewrite bool_decide_eq_false_2 by (intros H; by apply H).
  cbn [fst snd set_stats set_fs fs stats incr_moved moved renamed emit].
  done.
Qed.

(** C10: [process_file] hands the file to the first category, in the
    order of the table, whose list has the lower-cased extension, and to
    no other; a file with no such category is counted as skipped.
    Handling the file for that category makes no I/O call other than
    hashing a file, unlinking the source, or moving it into the folder of
    the category; it changes no path other than the source and what lies
    inside that folder; and in a real run a removable file whose natural
    destination in the folder is free arrives there, under its own name
    and with its content, and is counted as moved.  With the table of
    [get_category_mappings] the first category of [.pptx] is [Documents]
    and that of [.key] is [Presentations], so a [.pptx] file is never put
    under [Presentations] and a [.key] file never under [Certificates]. *)
Theorem first_matching_category_wins org w file_path :
  let file_ext := lower (suffix file_path) in
  let w' := (process_file org w file_path).1 in
  process_file org w file_path
    = match first_category (categories org) file_ext with
      | Some category => place org category file_path w
      | None => (set_stats (incr_skipped (stats w)) w, Ret ())
      end
  ∧ (∀ category,
       first_category (categories org) file_ext = Some category ↔
       ∃ pre extensions post,
         categories org = pre ++ (category, extensions) :: post
         ∧ file_ext ∈ extensions
         ∧ Forall (λ c, file_ext ∉ c.2) pre)
  ∧ (∀ category,
       first_category (categories org) file_ext = Some category →
       since (touches file_path [category]) w w'
       ∧ (∀ q, q ≠ file_path → below [category] q = false →
               fs w' !! q = fs w !! q)
       ∧ (∀ s m d mt rd,
            dry_run org = false →
            fs w !! [category] = Some (Dir s m) →
            fs w !! file_path = Some (File d mt rd true) →
            fs w !! join [category] (name file_path) = None →
            (process_file org w file_path).2 = Ret ()
            ∧ fs w' = <[join [category] (name file_path)
                         := File d mt rd true]> (delete file_path (fs w))
            ∧ moved (stats w') = S (moved (stats w))))
  ∧ (categories org = get_category_mappings →
     (file_ext = ".pptx" →
        first_category (categories org) file_ext = Some "Documents"
        ∧ process_file org w file_path = place org "Documents" file_path w
        ∧ since (touches file_path ["Documents"]) w w')
     ∧ (file_ext = ".key" →
        first_category (categories org) file_ext = Some "Presentations"
        ∧ process_file org w file_path
          = place org "Presentations" file_path w
        ∧ since (touches file_path ["Presentations"]) w w')).
Proof.
  intros file_ext w'. split_and!.
  - apply process_file_first.
  - intros category. apply first_category_spec.
  - intros category Hc. subst w'. rewrite process_file_first.
    fold file_ext. rewrite Hc. split_and!.
    + apply place_events.
    + intros q. apply place_outside.
    + intros s m d mt rd Hreal Hd Hf Hfree.
      destruct (place_arrives org category file_path w s m d mt rd
                  Hreal Hd Hf Hfree) as (? & ? & ? & _).
      done.
  - intros Hc. subst w'. rewrite process_file_first, Hc. fold file_ext.
    split; intros ->.
    + change (first_category get_category_mappings ".pptx")
        with (Some "Documents").
      split_and!; [done..|apply place_events].
    + change (first_category get_category_mappings ".key")
        with (Some "Presentations").
      split_and!; [done..|apply place_events].
Qed.

End Properties.

(** * Runs on concrete inputs *)

Lemma get_unique_filename_terminates_witness :
  ∃ w' n,
    get_unique_filename_fuel 100 (new_organizer false) ["a.jpg"] ["Images"]
      (new_world storm_fs) = Some (w', n)
    ∧ get_unique_filename (new_organizer false) ["a.jpg"] ["Images"]
        (new_world storm_fs) = (w', chosen n)
    ∧ iterations n ≤ 101
    ∧ last_counter n - 1 ≤ 100
    ∧ (forced n = true → last_counter n = 101).
Proof.
  apply (get_unique_filename_terminates (new_organizer false) ["a.jpg"]
           ["Images"] (new_world storm_fs) 100).
  lia.
Defined.

Lemma unforced_path_is_free_witness :
  fs (get_unique_filename (new_organizer false) ["photo_copy.jpg"]
        ["Images"] (new_world photos_fs)).1
    !! ["Images"; "photo_copy.jpg"] = None.
Proof.
  eapply (unforced_path_is_free (new_organizer false) ["photo_copy.jpg"]
            ["Images"] (new_world photos_fs) _ _ ["Images"; "photo_copy.jpg"]).
  - vm_compute. reflexivity.
  - reflexivity.
  - reflexivity.
Defined.

Lemma storm_fs_taken p : p ∈ storm_names → storm_fs !! p = Some storm_occupant.
Proof.
  unfold storm_fs. generalize storm_names. intros l.
  induction l as [|q l IH]; simpl; [by intros ?%elem_of_nil|].
  intros [->|H]%elem_of_cons; [by rewrite lookup_insert_eq|].
  rewrite lookup_insert. case_decide; auto.
Qed.

Lemma storm_fs_source :
  storm_fs !! ["a.jpg"] = Some (File (bytes_of "A") 1 true true).
Proof.
  unfold storm_fs.
  assert (Forall (λ p : path, length p = 2) storm_names) as H.
  { unfold storm_names. do 2 (apply Forall_cons_2; [done|]).
    apply Forall_forall. intros p (k & -> & _)%list_elem_of_fmap. done. }
  induction H as [|q l Hq _ IH]; simpl; [reflexivity|].
  rewrite lookup_insert_ne; [exact IH|]. intros ->. done.
Qed.

Lemma storm_fs_differs p :
  p ∈ storm_names → size_differs (fs (new_world storm_fs)) ["a.jpg"] p.
Proof.
  intros Hp. exists 1, 2. cbn [fs new_world].
  rewrite storm_fs_source, (storm_fs_taken _ Hp). split_and!; done.
Qed.

Lemma storm_fs_forced :
  get_unique_filename (new_organizer false) ["a.jpg"] ["Images"]
    (new_world storm_fs)
  = (tick (new_world storm_fs),
     Some ["Images"; "a_20240101_000000_000000.jpg"]).
Proof.
  unfold get_unique_filename, get_unique_filename_fuel, loop_bound.
  change (split_name (name ["a.jpg"])) with ("a", ".jpg"). cbv beta iota.
  rewrite (unique_loop_storm (new_organizer false) ["a.jpg"] ["Images"]
             "a" ".jpg" (new_world storm_fs)); [reflexivity| |lia..|].
  - intros k Hk. apply storm_fs_differs.
    do 2 apply list_elem_of_further. apply list_elem_of_fmap.
    exists k. split; [done|]. apply elem_of_seq. lia.
  - apply storm_fs_differs, list_elem_of_here.
Qed.

(** The claim of C4 fails for the forced name: after 100 collisions the
    timestamp name is returned although [storm_fs] has a file there. *)
Lemma forced_name_may_be_taken :
  ¬ (∀ (P : Platform) org file_path target_folder w w' p,
       get_unique_filename org file_path target_folder w = (w', Some p) →
       fs w' !! p = None).
Proof.
  intros H.
  specialize (H example_platform _ _ _ _ _ _ storm_fs_forced).
  cbn [fs tick new_world] in H. rewrite storm_fs_taken in H; [done|].
  apply list_elem_of_further, list_elem_of_here.
Qed.

Lemma failed_hash_never_duplicate_witness :
  (is_exact_duplicate (new_world unreadable_fs) ["a.jpg"] ["Images"; "a.jpg"]).2
  = false.
Proof.
  apply (failed_hash_never_duplicate (new_world unreadable_fs)
           ["a.jpg"] ["Images"; "a.jpg"]).
  left. split.
  - vm_compute. reflexivity.
  - intros h Hh. vm_compute in Hh. discriminate Hh.
Defined.

Lemma sizes_first_then_hashes_witness :
  (is_exact_duplicate (new_world photos_fs) ["photo.jpg"]
     ["Images"; "photo.jpg"]).2 = true
  ∧ is_exact_duplicate (new_world storm_fs) ["a.jpg"] ["Images"; "a.jpg"]
    = (new_world storm_fs, false).
Proof.
  split.
  - apply (sizes_first_then_hashes (new_world photos_fs) ["photo.jpg"]
             ["Images"; "photo.jpg"]).
    + apply cache_coherent_new.
    + split; [exists 5; split; vm_compute; reflexivity|].
      split; [vm_compute; reflexivity|]. vm_compute. discriminate.
  - apply (sizes_first_then_hashes (new_world storm_fs) ["a.jpg"]
             ["Images"; "a.jpg"]).
    intros (s & E1 & E2). cbn [fs new_world] in E1, E2.
    rewrite storm_fs_source in E1.
    rewrite storm_fs_taken in E2 by apply list_elem_of_here.
    cbv in E1, E2. congruence.
Defined.

Lemma organize_files_missing_source_witness :
  organize_files (new_organizer false) (new_world ∅)
  = (new_world ∅, Ret false).
Proof.
  apply (organize_files_missing_source (new_organizer false) (new_world ∅)).
  reflexivity.
Defined.

(** The presentation ends up in [Documents]; [Presentations] stays empty. *)
Example talk_goes_to_documents :
  let w := (process_file (new_organizer false) (new_world slides_fs)
              ["talk.PPTX"]).1 in
  fs w !! ["Documents"; "talk.PPTX"]
    = Some (File (bytes_of "slides") 1 true true)
  ∧ fs w !! ["Presentations"; "talk.PPTX"] = None
  ∧ fs w !! ["talk.PPTX"] = None.
Proof. vm_compute. done. Qed.

(** The claim of C1 fails: on [photos_fs] the real run moves a file and
    removes a duplicate, the dry run counts neither. *)
Lemma dry_run_counts_differ :
  ¬ (∀ (P : Platform) w,
       stats (organize_files (new_organizer true) w).1
       = stats (organize_files (new_organizer false) w).1).
Proof.
  intros H. specialize (H example_platform (new_world photos_fs)).
  assert (moved (stats (organize_files (new_organizer true)
                          (new_world photos_fs)).1) = 0) as Hd
    by (vm_compute; reflexivity).
  assert (moved (stats (organize_files (new_organizer false)
                          (new_world photos_fs)).1) = 1) as Hr
    by (vm_compute; reflexivity).
  rewrite H in Hd. congruence.
Qed.

(** [duplicates_found] is not the same in both modes either: on
    [chain_fs] the real run puts one of the two files at [Images/a_1.jpg]
    and finds the other to be its duplicate there, which the dry run, with
    nothing moved, cannot see. *)
Example dry_run_duplicates_found_differ :
  duplicates_found (stats (organize_files (new_organizer true)
                             (new_world chain_fs)).1) = 0
  ∧ duplicates_found (stats (organize_files (new_organizer false)
                               (new_world chain_fs)).1) = 1.
Proof. split; vm_compute; reflexivity. Qed.

(** The claim of C8 fails for the report: [organization_report.json],
    left by an earlier run, is collected like any other file. *)
Lemma report_is_collected :
  ¬ (∀ (P : Platform) (f : filesystem) files,
       files_to_process f = Some files → default_report ∉ files).
Proof.
  intros H.
  assert (reported_fs !! [] = Some (Dir 4096 0)) as H0
    by (vm_compute; reflexivity).
  destruct (files_to_process_spec (P := example_platform) reported_fs 4096 0
              H0) as (files & E & _ & M).
  apply (H example_platform reported_fs files E), M.
  exists (File (bytes_of "{}") 1 true true). clear.
  vm_compute. split_and!; [reflexivity..|discriminate].
Qed.

Lemma snapshot_before_processing_witness :
  ∃ w1 files,
    create_category_folders (new_organizer false) (new_world reported_fs)
      = (w1, Ret ())
    ∧ files_to_process (fs w1) = Some files
    ∧ NoDup files
    ∧ (∀ p, p ∈ files ↔ collected reported_fs p)
    ∧ organize_files (new_organizer false) (new_world reported_fs)
      = match process_files (new_organizer false) files
                (set_stats (set_processed (length files) (stats w1)) w1) with
        | (w3, Ret _) => (w3, Ret true)
        | (w3, Exc) => (w3, Exc)
        end.
Proof.
  apply (snapshot_before_processing (new_organizer false)
           (new_world reported_fs) 4096 0).
  vm_compute. reflexivity.
Defined.

(** [photo.jpg] is a copy of [Images/photo.jpg]: it is unlinked, and its
    hash stays in the cache under the path that is gone. *)
Example photo_is_removed :
  let w := (process_file (new_organizer false) (new_world photos_fs)
              ["photo.jpg"]).1 in
  fs w !! ["photo.jpg"] = None
  ∧ hash_cache w !! ["photo.jpg"] = Some "41414141410000000000000000000000"
  ∧ trace w = [Unlinked ["photo.jpg"]; Hashed ["Images"; "photo.jpg"];
               Hashed ["photo.jpg"]].
Proof. vm_compute. split_and!; reflexivity. Qed.

Example photo_exists : is_Some (photos_fs !! ["photo.jpg"]).
Proof. vm_compute. eexists. reflexivity. Qed.

(** The claim of C3 fails: the entry of a removed file is not removed. *)
Lemma stale_entry_stays :
  ¬ (∀ (P : Platform) org w file_path,
       is_Some (fs w !! file_path) →
       fs (process_file org w file_path).1 !! file_path = None →
       hash_cache (process_file org w file_path).1 !! file_path = None).
Proof.
  intros H.
  pose proof photo_is_removed as (Hgone & Hcached & _).
  rewrite (H example_platform (new_organizer false) (new_world photos_fs)
             ["photo.jpg"] photo_exists Hgone) in Hcached.
  discriminate Hcached.
Qed.

(** The bulk pass on [photos_fs] keeps the oldest of the three copies. *)
Example photos_deduplicated :
  let w := (remove_duplicates (new_organizer false) true
              (new_world photos_fs)).1 in
  fs w !! ["Images"; "photo.jpg"]
    = Some (File (bytes_of "AAAAA") 1 true true)
  ∧ fs w !! ["photo.jpg"] = None
  ∧ fs w !! ["photo_copy.jpg"] = None
  ∧ fs w !! ["notes.xyz"] = Some (File (bytes_of "hello") 4 true true)
  ∧ duplicates_removed (stats w) = 2.
Proof. vm_compute. split_and!; reflexivity. Qed.

(** ** Runs for the further properties *)

Lemma comparison_is_symmetric_witness :
  (is_exact_duplicate (new_world photos_fs) ["photo.jpg"]
     ["Images"; "photo.jpg"]).2
  = (is_exact_duplicate (new_world photos_fs) ["Images"; "photo.jpg"]
       ["photo.jpg"]).2.
Proof.
  apply (comparison_is_symmetric (new_world photos_fs) ["photo.jpg"]
           ["Images"; "photo.jpg"]).
  apply cache_coherent_new.
Defined.


Lemma duplicate_has_matching_occupant_witness :
  let org := new_organizer false in
  let w := new_world photos_fs in
  let w' := (get_unique_filename org ["photo.jpg"] ["Images"] w).1 in
  ∃ k nf nq,
    k < 100
    ∧ fs w !! ["photo.jpg"] = Some nf
    ∧ fs w !! candidate ["Images"] ["photo.jpg"] k = Some nq
    ∧ st_size nf = st_size nq
    ∧ (get_file_hash w ["photo.jpg"]).2
      = (get_file_hash w (candidate ["Images"] ["photo.jpg"] k)).2
    ∧ (get_file_hash w ["photo.jpg"]).2 ≠ EmptyString
    ∧ (∀ i, i < k →
            exists_ (fs w) (candidate ["Images"] ["photo.jpg"] i) = true)
    ∧ duplicates_found (stats w') = S (duplicates_found (stats w))
    ∧ (dry_run org = true →
       fs w' = fs w
       ∧ duplicates_removed (stats w') = duplicates_removed (stats w)
       ∧ errors (stats w') = errors (stats w))
    ∧ (dry_run org = false →
       (unlink (fs w) ["photo.jpg"] = Some (fs w')
        ∧ duplicates_removed (stats w') = duplicates_removed (stats w) + 1
        ∧ errors (stats w') = errors (stats w))
       ∨ (unlink (fs w) ["photo.jpg"] = None ∧ fs w' = fs w
          ∧ duplicates_removed (stats w') = duplicates_removed (stats w)
          ∧ errors (stats w') = S (errors (stats w)))).
Proof.
  intros org w w'.
  apply (duplicate_has_matching_occupant org ["photo.jpg"] ["Images"] w w').
  - apply cache_coherent_new.
  - vm_compute. reflexivity.
Defined.

Lemma returned_path_keeps_suffix_witness :
  suffix ["Images"; "a_1.jpg"] = suffix ["a.jpg"].
Proof.
  apply (returned_path_keeps_suffix (new_organizer false) ["a.jpg"]
           ["Images"] (new_world chain_fs)
           (get_unique_filename (new_organizer false) ["a.jpg"] ["Images"]
              (new_world chain_fs)).1).
  - vm_compute. intros H. discriminate H.
  - vm_compute. reflexivity.
Defined.

Lemma category_folders_exist_witness :
  let org := new_organizer false in
  let w := new_world photos_fs in
  ∃ w',
    create_category_folders org w = (w', Ret ())
    ∧ (∀ c, c ∈ (categories org).*1 → exists_ (fs w') [c] = true)
    ∧ fs w ⊆ fs w'
    ∧ (∀ p n, fs w' !! p = Some n →
              fs w !! p = Some n
              ∨ ∃ c s' m', c ∈ (categories org).*1 ∧ p = [c] ∧ n = Dir s' m')
    ∧ stats w' = stats w ∧ hash_cache w' = hash_cache w.
Proof.
  intros org w.
  apply (category_folders_exist org w 4096 0).
  - reflexivity.
  - vm_compute. reflexivity.
Defined.

Lemma category_folders_idempotent_witness :
  let org := new_organizer false in
  let w := new_world photos_fs in
  create_category_folders org (create_category_folders org w).1
  = ((create_category_folders org w).1, Ret ()).
Proof.
  intros org w.
  apply (category_folders_idempotent org w 4096 0).
  - reflexivity.
  - vm_compute. reflexivity.
Defined.

Lemma every_file_is_counted_witness :
  let org := new_organizer false in
  let w := new_world photos_fs in
  let w' := (organize_files org w).1 in
  duplicates_found (stats w') + skipped (stats w')
  ≤ duplicates_found (stats w) + skipped (stats w) + processed (stats w')
  ∧ (dry_run org = false →
     outcomes (stats w') = outcomes (stats w) + processed (stats w')).
Proof.
  intros org w w'.
  apply (every_file_is_counted org w w').
  vm_compute. reflexivity.
Defined.

Lemma organize_files_leaves_the_rest_witness :
  fs (organize_files (new_organizer false) (new_world nested_fs)).1
    !! ["old"; "a.jpg"]
  = fs (new_world nested_fs) !! ["old"; "a.jpg"].
Proof.
  apply (organize_files_leaves_the_rest (new_organizer false)
           (new_world nested_fs) ["old"; "a.jpg"]).
  - exists (File (bytes_of "A") 1 true true). vm_compute. reflexivity.
  - intros (n & _ & Hc & _). vm_compute in Hc. discriminate Hc.
  - intros (c & Hc & Hb). unfold below in Hb.
    apply bool_decide_eq_true in Hb as [_ Hb]. injection Hb as <-.
    revert Hc. apply (bool_decide_unpack _). vm_compute. exact I.
Defined.

Lemma source_file_is_never_lost_witness :
  let org := new_organizer false in
  let w := new_world photos_fs in
  let nf := File (bytes_of "AAAAA") 2 true true in
  let w' := (process_file org w ["photo.jpg"]).1 in
  fs w' !! ["photo.jpg"] = Some nf
  ∨ (∃ q, q ≠ ["photo.jpg"] ∧ fs w' !! q = Some nf)
  ∨ (∃ q nq,
       q ≠ ["photo.jpg"] ∧ fs w' !! q = Some nq
       ∧ st_size nq = st_size nf
       ∧ (get_file_hash w' q).2 = (get_file_hash w ["photo.jpg"]).2
       ∧ (get_file_hash w ["photo.jpg"]).2 ≠ EmptyString).
Proof.
  intros org w nf.
  apply (source_file_is_never_lost org w ["photo.jpg"] nf).
  - apply cache_coherent_new.
  - reflexivity.
  - vm_compute. reflexivity.
Defined.

Lemma dry_run_raises_without_folder_witness :
  (organize_files (new_organizer true) (new_world nested_fs)).2 = Exc.
Proof.
  apply (dry_run_raises_without_folder (new_organizer true)
           (new_world nested_fs) 4096 0 ["a.jpg"] "Images").
  - reflexivity.
  - vm_compute. reflexivity.
  - exists (File (bytes_of "A") 2 true true).
    split_and!; [vm_compute; reflexivity..|].
    vm_compute. intros H. discriminate H.
  - vm_compute. reflexivity.
  - vm_compute. reflexivity.
  - vm_compute. reflexivity.
Defined.

Lemma duplicate_groups_are_sound_witness :
  let w := new_world nested_fs in
  let w1 := (find_all_duplicates w true).1 in
  let duplicates :=
    [("41000000000000000000000000000000",
      [["b.jpg"]; ["old"; "a.jpg"]; ["a.jpg"]])] in
  fs w1 = fs w ∧ stats w1 = stats w ∧ hash_cache w1 = hash_cache w
  ∧ only_hashed w w1
  ∧ NoDup duplicates.*1
  ∧ NoDup (duplicates ≫= snd)
  ∧ ∀ h files, (h, files) ∈ duplicates →
      h ≠ EmptyString ∧ 2 ≤ length files
      ∧ ∀ p, p ∈ files →
             searched true (fs w) p ∧ (get_file_hash w p).2 = h.
Proof.
  intros w w1 duplicates.
  apply (duplicate_groups_are_sound w true w1 duplicates).
  vm_compute. reflexivity.
Defined.

Lemma duplicate_groups_are_complete_witness :
  let w := new_world nested_fs in
  let duplicates :=
    [("41000000000000000000000000000000",
      [["b.jpg"]; ["old"; "a.jpg"]; ["a.jpg"]])] in
  ∃ files,
    ((get_file_hash w ["a.jpg"]).2, files) ∈ duplicates
    ∧ ["a.jpg"] ∈ files ∧ ["old"; "a.jpg"] ∈ files.
Proof.
  intros w duplicates.
  apply (duplicate_groups_are_complete w true (find_all_duplicates w true).1
           duplicates ["a.jpg"] ["old"; "a.jpg"]).
  - vm_compute. reflexivity.
  - intros H. discriminate H.
  - exists (File (bytes_of "A") 2 true true).
    split_and!; vm_compute; reflexivity.
  - exists (File (bytes_of "A") 1 true true).
    split_and!; vm_compute; reflexivity.
  - vm_compute. reflexivity.
  - vm_compute. intros H. discriminate H.
Defined.

Lemma listed_extension_goes_to_its_category_witness :
  first_category get_category_mappings ".pptx" = Some "Presentations"
  ∨ ("Presentations" = "Presentations" ∧ ".pptx" = ".pptx"
     ∧ first_category get_category_mappings ".pptx" = Some "Documents")
  ∨ ("Presentations" = "Certificates" ∧ ".pptx" = ".key"
     ∧ first_category get_category_mappings ".pptx" = Some "Presentations").
Proof.
  apply (listed_extension_goes_to_its_category "Presentations"
           [".ppt"; ".pptx"; ".key"] ".pptx").
  - apply (bool_decide_unpack _). vm_compute. exact I.
  - apply (bool_decide_unpack _). vm_compute. exact I.
Defined.

(** [talk.PPTX] arrives in [Documents] and nothing appears under
    [Presentations]; [server.key] arrives in [Presentations] and nothing
    appears under [Certificates]. *)
Lemma first_matching_category_wins_witness :
  let org := new_organizer false in
  let w := new_world slides_fs in
  let wt := (process_file org w ["talk.PPTX"]).1 in
  let wk := (process_file org w ["server.key"]).1 in
  (fs wt !! ["Documents"; "talk.PPTX"]
   = Some (File (bytes_of "slides") 1 true true)
   ∧ fs wt !! ["talk.PPTX"] = None
   ∧ fs wt !! ["Presentations"; "talk.PPTX"] = None
   ∧ moved (stats wt) = 1)
  ∧ (fs wk !! ["Presentations"; "server.key"]
     = Some (File (bytes_of "secret") 2 true true)
     ∧ fs wk !! ["server.key"] = None
     ∧ fs wk !! ["Certificates"; "server.key"] = None
     ∧ moved (stats wk) = 1).
Proof.
  intros org w wt wk. split.
  - destruct (first_matching_category_wins org w ["talk.PPTX"])
      as (_ & _ & H & Htable).
    destruct (Htable eq_refl) as [Hpptx _].
    destruct (Hpptx eq_refl) as (Hfirst & _).
    destruct (H "Documents" Hfirst) as (_ & Hout & Hin).
    destruct (Hin 4096 0%Z (bytes_of "slides") 1%Z true eq_refl)
      as (_ & Hfs & Hmoved); [vm_compute; reflexivity..|].
    fold wt in Hfs, Hmoved, Hout. split_and!.
    + rewrite Hfs. apply lookup_insert_eq.
    + rewrite Hfs. rewrite lookup_insert_ne by discriminate.
      apply lookup_delete_eq.
    + rewrite Hout; [vm_compute; reflexivity|discriminate|reflexivity].
    + exact Hmoved.
  - destruct (first_matching_category_wins org w ["server.key"])
      as (_ & _ & H & Htable).
    destruct (Htable eq_refl) as [_ Hkey].
    destruct (Hkey eq_refl) as (Hfirst & _).
    destruct (H "Presentations" Hfirst) as (_ & Hout & Hin).
    destruct (Hin 4096 0%Z (bytes_of "secret") 2%Z true eq_refl)
      as (_ & Hfs & Hmoved); [vm_compute; reflexivity..|].
    fold wk in Hfs, Hmoved, Hout. split_and!.
    + rewrite Hfs. apply lookup_insert_eq.
    + rewrite Hfs. rewrite lookup_insert_ne by discriminate.
      apply lookup_delete_eq.
    + rewrite Hout; [vm_compute; reflexivity|discriminate|reflexivity].
    + exact Hmoved.
Defined.

Lemma dry_run_steps_change_nothing_witness :
  let org := new_organizer true in
  let w := new_world photos_fs in
  let w1 := (organize_files org w).1 in
  let w2 := (remove_duplicates org true w1).1 in
  let w3 := (save_report org None w2).1 in
  fs w1 = fs w ∧ fs w2 = fs w ∧ fs w3 = fs w
  ∧ only_hashed w w1 ∧ only_hashed w1 w2 ∧ only_hashed w2 w3.
Proof.
  intros org w.
  apply (dry_run_steps_change_nothing org true None w).
  reflexivity.
Defined.
